(** * TOTP authenticator module for Apache httpd: model and verification

    A shallow embedding of [mod_totp_authenticator.c] (the authentication
    provider: credential loader, code generator, one-time markers, the
    password check and the realm hash) and of [utils.c] (the refactored
    loader and the compacting ledger transaction), followed by the
    properties proved about them.

    Conventions.  A C string is modelled by the [string] of its characters
    before the terminating NUL.  Bytes and machine integers are [Z] with the
    wrap-around written out.  [unsigned long] and [apr_time_t] are 64 bits
    wide (LP64), [unsigned int] is 32 bits wide. *)

From Stdlib Require Import ZArith List String Ascii Bool Lia.
From stdpp Require Import gmap strings list fin_maps pretty.
From Equations Require Import Equations.
Import ListNotations.

Local Open Scope Z_scope.

(** ** Machine integers *)

Module Word.

Definition wrap (bits : Z) (x : Z) : Z := x mod 2 ^ bits.

Definition u8 (x : Z) : Z := wrap 8 x.
Definition u32 (x : Z) : Z := wrap 32 x.
Definition u64 (x : Z) : Z := wrap 64 x.

Definition INT64_MAX : Z := 2 ^ 63 - 1.

(** Big-endian bytes of a word, most significant first. *)
Fixpoint be_bytes (n : nat) (x : Z) : list Z :=
  match n with
  | O => []
  | S k => u8 (Z.shiftr x (8 * Z.of_nat k)) :: be_bytes k x
  end.

(** Little-endian bytes of a word, least significant first. *)
Fixpoint le_bytes (n : nat) (x : Z) : list Z :=
  match n with
  | O => []
  | S k => u8 x :: le_bytes k (Z.shiftr x 8)
  end.

(** Little-endian value of a byte string. *)
Fixpoint le_value (bs : list Z) : Z :=
  match bs with
  | [] => 0
  | b :: rest => u8 b + 256 * le_value rest
  end.

Definition is_byte (b : Z) : Prop := 0 <= b < 256.

(** Two's complement reading of a 64-bit pattern. *)
Definition s64 (x : Z) : Z :=
  let y := u64 x in if y <? 2 ^ 63 then y else y - 2 ^ 64.

End Word.

(** ** SHA-1 and HMAC *)

Module Sha1.
Import Word.

Definition SHA1_DIGEST_LENGTH : Z := 20.
Definition SHA1_BLOCKSIZE : nat := 64.

Definition rotl (n : Z) (x : Z) : Z :=
  u32 (Z.lor (Z.shiftl x n) (Z.shiftr (u32 x) (32 - n))).

Definition Ch (x y z : Z) : Z :=
  Z.lxor (Z.land x y) (Z.land (Z.lxor x 0xFFFFFFFF) z).
Definition Parity (x y z : Z) : Z := Z.lxor (Z.lxor x y) z.
Definition Maj (x y z : Z) : Z :=
  Z.lxor (Z.lxor (Z.land x y) (Z.land x z)) (Z.land y z).

Definition round_f (t : nat) : Z -> Z -> Z -> Z :=
  if (t <? 20)%nat then Ch
  else if (t <? 40)%nat then Parity
  else if (t <? 60)%nat then Maj
  else Parity.

Definition round_k (t : nat) : Z :=
  if (t <? 20)%nat then 0x5A827999
  else if (t <? 40)%nat then 0x6ED9EBA1
  else if (t <? 60)%nat then 0x8F1BBCDC
  else 0xCA62C1D6.

(** The padded message: a 1 bit, zeros up to 56 mod 64, and the bit length
    on 8 big-endian bytes. *)
Definition pad (msg : list Z) : list Z :=
  let len := Z.of_nat (length msg) in
  let zeros := Z.to_nat ((55 - len) mod 64) in
  msg ++ [0x80] ++ repeat 0 zeros ++ be_bytes 8 (8 * len).

Fixpoint be_words (n : nat) (bs : list Z) : list Z :=
  match n with
  | O => []
  | S k =>
      match bs with
      | b0 :: b1 :: b2 :: b3 :: rest =>
          (u8 b0 * 2 ^ 24 + u8 b1 * 2 ^ 16 + u8 b2 * 2 ^ 8 + u8 b3)
            :: be_words k rest
      | _ => []
      end
  end.

(** Message schedule, most recent word first. *)
Fixpoint schedule (n : nat) (rev_ws : list Z) : list Z :=
  match n with
  | O => rev_ws
  | S k =>
      let w := rotl 1 (Z.lxor (Z.lxor (nth 2 rev_ws 0) (nth 7 rev_ws 0))
                              (Z.lxor (nth 13 rev_ws 0) (nth 15 rev_ws 0))) in
      schedule k (w :: rev_ws)
  end.

Record regs := Regs { ra : Z; rb : Z; rc : Z; rd : Z; re : Z }.

Fixpoint rounds (t : nat) (ws : list Z) (r : regs) : regs :=
  match ws with
  | [] => r
  | w :: rest =>
      let tmp := u32 (rotl 5 (ra r) + round_f t (rb r) (rc r) (rd r)
                      + re r + round_k t + w) in
      rounds (S t) rest (Regs tmp (ra r) (rotl 30 (rb r)) (rc r) (rd r))
  end.

Definition compress (h : regs) (block : list Z) : regs :=
  let ws := rev (schedule 64 (rev (be_words 16 block))) in
  let r := rounds 0 ws h in
  Regs (u32 (ra h + ra r)) (u32 (rb h + rb r)) (u32 (rc h + rc r))
       (u32 (rd h + rd r)) (u32 (re h + re r)).

Fixpoint blocks (n : nat) (bs : list Z) (h : regs) : regs :=
  match n with
  | O => h
  | S k => blocks k (skipn SHA1_BLOCKSIZE bs) (compress h (firstn SHA1_BLOCKSIZE bs))
  end.

Definition init : regs :=
  Regs 0x67452301 0xEFCDAB89 0x98BADCFE 0x10325476 0xC3D2E1F0.

Definition digest_bytes (r : regs) : list Z :=
  be_bytes 4 (ra r) ++ be_bytes 4 (rb r) ++ be_bytes 4 (rc r)
    ++ be_bytes 4 (rd r) ++ be_bytes 4 (re r).

(** Modelled from the spec: the SHA-1 of [sha1.c], which is not among the
    sources; section 4.1 names the hash (SHA-1, 20-byte output). *)
Definition sha1 (msg : list Z) : list Z :=
  let p := pad msg in
  digest_bytes (blocks (length p / SHA1_BLOCKSIZE)%nat p init).

Definition xor_pad (c : Z) (key : list Z) : list Z :=
  map (fun b => Z.lxor (u8 b) c) key.

(** Modelled from the spec: [hmac_sha1] of [hmac.c], which is not among the
    sources; section 4.1 names it as HMAC over SHA-1 producing a 20-byte
    MAC.  A key longer than one block is hashed first; the key is then
    padded with zeros to the block size. *)
Definition hmac_sha1 (key data : list Z) : list Z :=
  let k0 := if (SHA1_BLOCKSIZE <? length key)%nat then sha1 key else key in
  let k := k0 ++ repeat 0 (SHA1_BLOCKSIZE - length k0) in
  sha1 (xor_pad 0x5c k ++ sha1 (xor_pad 0x36 k ++ data)).

End Sha1.

(** ** Characters and strings of the C library and of APR *)

Module CStr.
Import Word.

Definition code (c : ascii) : Z := Z.of_nat (nat_of_ascii c).

Definition bytes_of_string (s : string) : list Z :=
  map code (list_ascii_of_string s).

Definition apr_isdigit (c : ascii) : bool :=
  (48 <=? code c) && (code c <=? 57).

Definition apr_isalnum (c : ascii) : bool :=
  apr_isdigit c
  || ((65 <=? code c) && (code c <=? 90))
  || ((97 <=? code c) && (code c <=? 122)).

Definition apr_isspace (c : ascii) : bool :=
  (code c =? 32) || ((9 <=? code c) && (code c <=? 13)).

Definition QUOTE : ascii := ascii_of_nat 34.

Definition strlen (s : string) : Z := Z.of_nat (String.length s).

(** The first character of [s] on which [ok] fails, as found by the scans
    of the form [for (tmp = s; tmp[0]; ++tmp) if (!ok(tmp[0])) ...]. *)
Fixpoint first_bad (ok : ascii -> bool) (s : string) : option ascii :=
  match s with
  | EmptyString => None
  | String c rest => if ok c then first_bad ok rest else Some c
  end.

Definition all_digits (s : string) : bool :=
  match first_bad apr_isdigit s with None => true | Some _ => false end.

Fixpoint skip_while (p : ascii -> bool) (s : string) : string :=
  match s with
  | EmptyString => EmptyString
  | String c rest => if p c then skip_while p rest else s
  end.

Fixpoint take_until (p : ascii -> bool) (s : string) : string * string :=
  match s with
  | EmptyString => (EmptyString, EmptyString)
  | String c rest =>
      if p c then (EmptyString, rest)
      else let '(tok, last) := take_until p rest in (String c tok, last)
  end.

(** [apr_strtok(str, sep, &last)] for a one-character separator set: the
    token and the new value of [last], or [None] for a NULL result. *)
Definition apr_strtok (sep : ascii) (str : string) : option (string * string) :=
  match skip_while (Ascii.eqb sep) str with
  | EmptyString => None
  | s => Some (take_until (Ascii.eqb sep) s)
  end.

(** Value of the leading run of decimal digits. *)
Fixpoint digits_value (acc : Z) (s : string) : Z :=
  match s with
  | String c rest =>
      if apr_isdigit c then digits_value (10 * acc + (code c - 48)) rest else acc
  | EmptyString => acc
  end.

(** [apr_atoi64]: [apr_strtoi64(buf, NULL, 10)], which skips white space,
    reads an optional sign and the decimal digits, and saturates. *)
Definition apr_atoi64 (buf : string) : Z :=
  match skip_while apr_isspace buf with
  | String c rest =>
      if code c =? 45 then Z.max (- digits_value 0 rest) (- INT64_MAX - 1)
      else if code c =? 43 then Z.min (digits_value 0 rest) INT64_MAX
      else Z.min (digits_value 0 (String c rest)) INT64_MAX
  | EmptyString => 0
  end.

Fixpoint remove_spaces (s : string) : string :=
  match s with
  | EmptyString => EmptyString
  | String c rest =>
      if apr_isspace c then remove_spaces rest else String c (remove_spaces rest)
  end.

(** [0 == apr_strnatcmp(a, lit)] for a literal without digits and white
    space (the three directive names): the natural-order comparison skips
    white space in [a] and otherwise compares character by character. *)
Definition apr_strnatcmp_is0 (a lit : string) : bool :=
  String.eqb (remove_spaces a) lit.

(** The statement-expression macros [max] and [min] of the module. *)
Definition c_max (a b : Z) : Z := if a >? b then a else b.
Definition c_min (a b : Z) : Z := if a <? b then a else b.

Definition drop2 (s : string) : string :=
  match s with
  | String _ (String _ rest) => rest
  | _ => EmptyString
  end.

(** [apr_psprintf("%6.6u", n)]: at least six decimal digits, zero padded. *)
Definition fmt_6_6u (n : Z) : string :=
  let d := pretty n in
  String.concat EmptyString (repeat "0"%string (6 - String.length d)) +:+ d.

End CStr.

(** ** Counted loops with early exit *)

Inductive ctl (S R : Type) : Type :=
| Next (s : S)     (* the body ran to its end *)
| Exit (r : R).    (* the body left the loop: [break] or [return] *)
Arguments Next {S R} s.
Arguments Exit {S R} r.

(** [for (i = lo; i <= hi; ++i) body], started at [i]. *)
Equations for_upto {S R : Type} (hi : Z) (body : Z -> S -> ctl S R)
    (i : Z) (s : S) : ctl S R by wf (Z.to_nat (hi + 1 - i)) lt :=
  for_upto hi body i s with decide (i <= hi) := {
    | left _ with body i s := {
        | Next s' => for_upto hi body (i + 1) s'
        | Exit r => Exit r }
    | right _ => Next s }.
Next Obligation. lia. Qed.

(** ** The authentication provider, [mod_totp_authenticator.c] *)

Module Totp.
Import Word CStr.

(** Functions of libraries that are not part of the sources. *)
Class Libs := {
  (** [base32_decode(encoded, result, bufSize)] of [base32.h]: the decoded
      bytes, [None] for a negative count. *)
  base32_decode : string -> Z -> option (list Z);
  (** [apr_pdecode_base32] with [APR_ENCODE_NONE]: [None] for NULL. *)
  apr_pdecode_base32 : string -> option (list Z);
  (** [apr_md5]: the digest of a byte string. *)
  apr_md5 : list Z -> list Z
}.

Record totp_auth_config_rec := {
  tokenDir : option string;
  stateDir : option string
}.

Record totp_user_config := {
  shared_key : option (list Z);   (* NULL, or the [shared_key_len] bytes *)
  disallow_reuse : bool;
  window_size : Z;                (* unsigned char *)
  rate_limit_count : Z;           (* int *)
  rate_limit_seconds : Z;         (* int *)
  scratch_codes : list Z;         (* unsigned int [10] *)
  scratch_codes_count : Z         (* unsigned char *)
}.

(** [memset(user_config, 0, sizeof( *user_config))] *)
Definition zero_config : totp_user_config :=
  {| shared_key := None; disallow_reuse := false; window_size := 0;
     rate_limit_count := 0; rate_limit_seconds := 0;
     scratch_codes := repeat 0 10; scratch_codes_count := 0 |}.

Definition set_shared_key (c : totp_user_config) (k : list Z) :=
  {| shared_key := Some k; disallow_reuse := disallow_reuse c;
     window_size := window_size c; rate_limit_count := rate_limit_count c;
     rate_limit_seconds := rate_limit_seconds c;
     scratch_codes := scratch_codes c;
     scratch_codes_count := scratch_codes_count c |}.

Definition set_disallow_reuse (c : totp_user_config) (b : bool) :=
  {| shared_key := shared_key c; disallow_reuse := b;
     window_size := window_size c; rate_limit_count := rate_limit_count c;
     rate_limit_seconds := rate_limit_seconds c;
     scratch_codes := scratch_codes c;
     scratch_codes_count := scratch_codes_count c |}.

Definition set_window_size (c : totp_user_config) (v : Z) :=
  {| shared_key := shared_key c; disallow_reuse := disallow_reuse c;
     window_size := v; rate_limit_count := rate_limit_count c;
     rate_limit_seconds := rate_limit_seconds c;
     scratch_codes := scratch_codes c;
     scratch_codes_count := scratch_codes_count c |}.

Definition set_rate_limit_count (c : totp_user_config) (v : Z) :=
  {| shared_key := shared_key c; disallow_reuse := disallow_reuse c;
     window_size := window_size c; rate_limit_count := v;
     rate_limit_seconds := rate_limit_seconds c;
     scratch_codes := scratch_codes c;
     scratch_codes_count := scratch_codes_count c |}.

Definition set_rate_limit_seconds (c : totp_user_config) (v : Z) :=
  {| shared_key := shared_key c; disallow_reuse := disallow_reuse c;
     window_size := window_size c; rate_limit_count := rate_limit_count c;
     rate_limit_seconds := v;
     scratch_codes := scratch_codes c;
     scratch_codes_count := scratch_codes_count c |}.

(** [scratch_codes[scratch_codes_count++] = v] *)
Definition push_scratch_code (c : totp_user_config) (v : Z) :=
  {| shared_key := shared_key c; disallow_reuse := disallow_reuse c;
     window_size := window_size c; rate_limit_count := rate_limit_count c;
     rate_limit_seconds := rate_limit_seconds c;
     scratch_codes := <[Z.to_nat (scratch_codes_count c) := v]> (scratch_codes c);
     scratch_codes_count := u8 (scratch_codes_count c + 1) |}.

(** *** Messages of the error log *)

Inductive field := WindowSize | RateLimitCount | RateLimitSeconds.
Inductive directive := WINDOW_SIZE | RATE_LIMIT.

Inductive log_msg :=
| LogTokenDirUndefined
| LogCannotOpen (path : string)
| LogInvalidChar (f : field) (token : option string) (c : ascii)
| LogMissingValue (d : directive) (line : string)
| LogUnrecognized (line : string)
| LogComment (line : string)
| LogNoSecret
| LogScratchInvalid (line : string) (c : ascii)
| LogScratchSkipped (line : string)
| LogStateDirUndefined
| LogCannotCreate (path : string)
| LogBasicAuth (timestamp : Z) (user password : string)
| LogUserInvalid (user : string) (c : ascii)
| LogPasswordInvalid (password : string) (c : ascii)
| LogPasswordNotRecognized (password : string)
| LogNoUserConfig (user : string)
| LogSecretKey (key : option (list Z))
| LogValidating (timestamp expected input : Z)
| LogGranted (user : string) (code : Z)
| LogValidatingScratch (expected input : Z)
| LogGrantedScratch (user : string) (code : Z)
| LogDenied (user password : string)
| LogDigestAuth (timestamp : Z) (user realm : string)
| LogUserPassword (user pwstr : string) (timestamp : Z).

(** What a call does that the rest of the system can see: lines of the
    error log, and the files it opens. *)
Inductive event :=
| EvLog (m : log_msg)
| EvOpenConfig (path : string)     (* [ap_pcfg_openfile] on the token store *)
| EvCreateFile (path : string).    (* [apr_file_open] with CREATE and EXCL *)

(** *** The credential loader *)

Inductive step_result :=
| Continue (c : totp_user_config)
| ReturnNull             (* [return NULL] *)
| Undefined.             (* the C code dereferences NULL or reads stale data *)

Inductive load_result :=
| Loaded (c : totp_user_config)
| LoadNull
| LoadUndefined.

(** The validation loop of a directive value: every character that is
    not a digit is logged and resets [token] to NULL. *)
Fixpoint validate_digits (f : field) (tmp : string) (token : option string)
  : option string * list log_msg :=
  match tmp with
  | EmptyString => (token, [])
  | String c rest =>
      if apr_isdigit c then validate_digits f rest token
      else
        let '(t, l) := validate_digits f rest None in
        (t, LogInvalidChar f token c :: l)
  end.

Definition SEP : ascii := " ".

(** The [WINDOW_SIZE] branch of [get_user_totp_config]; [last] is what
    [apr_strtok] has left of the line. *)
Definition window_size_directive (c : totp_user_config) (line last : string)
  : step_result * list log_msg :=
  match apr_strtok SEP last with
  | None => (Undefined, [])
  | Some (token, _) =>
      match validate_digits WindowSize token (Some token) with
      | (Some t, l) =>
          (Continue (set_window_size c (u8 (c_max 0 (c_min (apr_atoi64 t) 32)))), l)
      | (None, l) => (Continue c, l ++ [LogMissingValue WINDOW_SIZE line])
      end
  end.

(** The [RATE_LIMIT] branch of [get_user_totp_config]. *)
Definition rate_limit_directive (c : totp_user_config) (line last : string)
  : step_result * list log_msg :=
  match apr_strtok SEP last with
  | None => (Undefined, [])
  | Some (token, last1) =>
      let '(c1, l1) :=
        match validate_digits RateLimitCount token (Some token) with
        | (Some t, l) =>
            (set_rate_limit_count c (c_max 0 (c_min (apr_atoi64 t) 5)), l)
        | (None, l) => (c, l ++ [LogMissingValue RATE_LIMIT line])
        end in
      match apr_strtok SEP last1 with
      | None => (Undefined, l1)
      | Some (token2, _) =>
          match validate_digits RateLimitSeconds token2 (Some token2) with
          | (Some t, l) =>
              (Continue (set_rate_limit_seconds c1
                           (c_max 30 (c_min (apr_atoi64 t) 300))), l1 ++ l)
          | (None, l) =>
              (Continue (set_rate_limit_count c1 0),
               l1 ++ l ++ [LogMissingValue RATE_LIMIT line])
          end
      end
  end.

(** The validation loop of a scratch code line. *)
Fixpoint validate_scratch (line tmp : string) (token : option string)
  : option string * list log_msg :=
  match tmp with
  | EmptyString => (token, [])
  | String c rest =>
      if apr_isdigit c then validate_scratch line rest token
      else
        let '(t, l) := validate_scratch line rest None in
        (t, LogScratchInvalid line c :: l)
  end.

Section Loader.
Context {L : Libs}.

(** One turn of the [while] loop over the lines of the record. *)
Definition process_line (c : totp_user_config) (line : string)
  : step_result * list log_msg :=
  match line with
  | EmptyString => (Continue c, [])
  | String c0 rest =>
      if Ascii.eqb c0 QUOTE then
        match rest with
        | EmptyString => (Undefined, [])      (* [&line[2]] is past the NUL *)
        | String _ body =>
            match apr_strtok SEP body with
            | Some (token, last) =>
                if apr_strnatcmp_is0 token "DISALLOW_REUSE" then
                  (Continue (set_disallow_reuse c true), [])
                else if apr_strnatcmp_is0 token "WINDOW_SIZE" then
                  window_size_directive c line last
                else if apr_strnatcmp_is0 token "RATE_LIMIT" then
                  rate_limit_directive c line last
                else (Continue c, [LogUnrecognized line])
            | None => (Continue c, [LogComment line])
            end
        end
      else
        match shared_key c with
        | None =>
            match base32_decode line (strlen line) with
            | None => (ReturnNull, [LogNoSecret])
            | Some key => (Continue (set_shared_key c key), [])
            end
        | Some _ =>
            match validate_scratch line line (Some line) with
            | (Some t, l) =>
                if scratch_codes_count c <? 10
                then (Continue (push_scratch_code c (u32 (apr_atoi64 t))), l)
                else (Continue c, l ++ [LogScratchSkipped line])
            | (None, l) => (Continue c, l ++ [LogScratchSkipped line])
            end
        end
  end.

(** [while (!(ap_cfg_getline(line, MAX_STRING_LEN, config_file)))] over the
    lines that [ap_cfg_getline] delivers. *)
Fixpoint read_lines (lines : list string) (c : totp_user_config)
  : load_result * list log_msg :=
  match lines with
  | [] => (Loaded c, [])
  | line :: rest =>
      match process_line c line with
      | (Continue c', l) =>
          let '(r, l') := read_lines rest c' in (r, l ++ l')
      | (ReturnNull, l) => (LoadNull, l)
      | (Undefined, l) => (LoadUndefined, l)
      end
  end.

(** The token store: the lines of the file at a path, [None] when
    [ap_pcfg_openfile] fails. *)
Definition token_store := string -> option (list string).

Definition get_user_totp_config (store : token_store)
    (conf : totp_auth_config_rec) (username : string)
  : load_result * list event :=
  match tokenDir conf with
  | None => (LoadNull, [EvLog LogTokenDirUndefined])
  | Some dir =>
      let config_filename := dir +:+ "/" +:+ username in
      match store config_filename with
      | None =>
          (LoadNull, [EvOpenConfig config_filename;
                      EvLog (LogCannotOpen config_filename)])
      | Some lines =>
          let '(r, l) := read_lines lines zero_config in
          (r, EvOpenConfig config_filename :: map EvLog l)
      end
  end.

End Loader.

(** *** The code generator *)

(** [for (j = 8; j--; challenge >>= 8) challenge_data[j] = challenge;] *)
Fixpoint fill_challenge (j : nat) (challenge : Z) (challenge_data : list Z)
  : list Z :=
  match j with
  | O => challenge_data
  | S j' =>
      fill_challenge j' (Z.shiftr challenge 8)
        (<[j' := u8 challenge]> challenge_data)
  end.

(** [for (j = 0; j < 4; ++j) { totp_code <<= 8; totp_code |= hash[offset + j]; }]
    on [unsigned int totp_code = 0]. *)
Definition truncate_hash (hash : list Z) (offset : Z) : Z :=
  fold_left
    (fun totp_code j =>
       Z.lor (u32 (Z.shiftl totp_code 8)) (nth (Z.to_nat (offset + j)) hash 0))
    [0; 1; 2; 3] 0.

Definition generate_totp_code (challenge : Z) (secret : list Z) : Z :=
  let challenge_data := fill_challenge 8 challenge (repeat 0 8) in
  let hash := Sha1.hmac_sha1 secret challenge_data in
  let offset := Z.land (nth 19 hash 0) 0xF in
  let totp_code := truncate_hash hash offset in
  let totp_code := Z.land totp_code 0x7FFFFFFF in
  totp_code mod 1000000.

(** *** Requests and the state directory *)

(** The files of the state directory: path to contents. *)
Abbreviation files := (gmap string (list Z)).

Record request_rec := {
  per_dir_config : totp_auth_config_rec;
  apr_time_now : Z;                       (* microseconds since the epoch *)
  token_files : string -> option (list string);
  (** paths at which the system refuses to create a file for a reason
      other than the file being there already *)
  create_error : string -> bool
}.

Inductive authn_status :=
| AUTH_DENIED
| AUTH_GRANTED
| AUTH_USER_FOUND
| AUTH_USER_NOT_FOUND.

Inductive outcome :=
| Verdict (s : authn_status)
| Undef.            (* the loader ran into undefined behaviour *)

(** Number of 30-second intervals since the epoch, as [unsigned long]. *)
Definition get_timestamp (r : request_rec) : Z :=
  u64 (Z.quot (Z.quot (apr_time_now r) 1000000) 30).

Definition hex_digit (n : Z) : ascii :=
  nth (Z.to_nat n) (list_ascii_of_string "0123456789abcdef") "0"%char.

Fixpoint hex_encode (data : list Z) (len : nat) : string :=
  match len, data with
  | S n, d :: rest =>
      String (hex_digit (Z.shiftr d 4))
        (String (hex_digit (Z.land d 0xF)) (hex_encode rest n))
  | _, _ => EmptyString
  end.

(** [apr_file_open] with [APR_FOPEN_CREATE | APR_FOPEN_EXCL]: the files
    after the call, [None] when the call fails. *)
Definition create_exclusive (r : request_rec) (fs : files) (path : string)
  : option files :=
  if create_error r path then None
  else match fs !! path with
       | Some _ => None
       | None => Some (<[path := []]> fs)
       end.

Definition code_filepath (dir user password : string) : string :=
  dir +:+ "/" +:+ user +:+ "-c" +:+ password.

Definition mark_code_invalid (r : request_rec) (conf : totp_auth_config_rec)
    (fs : files) (user password : string) : bool * files * list event :=
  match stateDir conf with
  | None => (false, fs, [EvLog LogStateDirUndefined])
  | Some dir =>
      let path := code_filepath dir user password in
      match create_exclusive r fs path with
      | None => (false, fs, [EvCreateFile path; EvLog (LogCannotCreate path)])
      | Some fs' => (true, fs', [EvCreateFile path])
      end
  end.

(** *** The password check *)

(** How a loop of the password check is left early. *)
Inductive loop_exit :=
| Return (s : authn_status)
| Break.

Definition loop_result : Type := loop_exit * files * list event.

(** The key handed to [generate_totp_code]: [shared_key] with
    [shared_key_len]; a record without a secret line has NULL and 0. *)
Definition key_bytes (c : totp_user_config) : list Z :=
  match shared_key c with Some k => k | None => [] end.

Section Provider.
Context {L : Libs}.

(** Body of the loop over the time window. *)
Definition totp_body (r : request_rec) (conf : totp_auth_config_rec)
    (totp_config : totp_user_config) (fs : files) (user password : string)
    (timestamp user_code : Z) (i : Z) (tr : list event)
  : ctl (list event) loop_result :=
  let totp_code :=
    generate_totp_code (u64 (timestamp + i)) (key_bytes totp_config) in
  let tr := tr ++ [EvLog (LogValidating timestamp totp_code user_code)] in
  if totp_code =? user_code then
    match mark_code_invalid r conf fs user password with
    | (true, fs', ev) =>
        Exit (Return AUTH_GRANTED, fs',
              tr ++ ev ++ [EvLog (LogGranted user user_code)])
    | (false, fs', ev) => Exit (Break, fs', tr ++ ev)
    end
  else Next tr.

(** Body of the loop over the scratch codes. *)
Definition scratch_body (r : request_rec) (conf : totp_auth_config_rec)
    (totp_config : totp_user_config) (fs : files) (user password : string)
    (user_code : Z) (i : Z) (tr : list event)
  : ctl (list event) loop_result :=
  let expected := nth (Z.to_nat i) (scratch_codes totp_config) 0 in
  let tr := tr ++ [EvLog (LogValidatingScratch expected user_code)] in
  if expected =? user_code then
    match mark_code_invalid r conf fs user password with
    | (true, fs', ev) =>
        Exit (Return AUTH_GRANTED, fs',
              tr ++ ev ++ [EvLog (LogGrantedScratch user user_code)])
    | (false, fs', ev) => Exit (Break, fs', tr ++ ev)
    end
  else Next tr.

Definition authn_totp_check_password (r : request_rec) (fs : files)
    (user password : string) : outcome * files * list event :=
  let conf := per_dir_config r in
  let password_len := u32 (strlen password) in
  let timestamp := get_timestamp r in
  let tr := [EvLog (LogBasicAuth timestamp user password)] in
  match first_bad apr_isalnum user with
  | Some c => (Verdict AUTH_DENIED, fs, tr ++ [EvLog (LogUserInvalid user c)])
  | None =>
      if (password_len =? 6) || (password_len =? 8) then
        match first_bad apr_isdigit password with
        | Some c =>
            (Verdict AUTH_DENIED, fs,
             tr ++ [EvLog (LogPasswordInvalid password c)])
        | None =>
            match get_user_totp_config (token_files r) conf user with
            | (LoadUndefined, ev) => (Undef, fs, tr ++ ev)
            | (LoadNull, ev) =>
                (Verdict AUTH_DENIED, fs,
                 tr ++ ev ++ [EvLog (LogNoUserConfig user)])
            | (Loaded totp_config, ev) =>
                let tr :=
                  tr ++ ev ++ [EvLog (LogSecretKey (shared_key totp_config))] in
                let user_code := u32 (apr_atoi64 password) in
                let looped :=
                  if password_len =? 6 then
                    for_upto (window_size totp_config)
                      (totp_body r conf totp_config fs user password
                         timestamp user_code)
                      (- window_size totp_config) tr
                  else
                    for_upto (scratch_codes_count totp_config - 1)
                      (scratch_body r conf totp_config fs user password
                         user_code)
                      0 tr in
                match looped with
                | Exit (Return st, fs', tr) => (Verdict st, fs', tr)
                | Exit (Break, fs', tr) =>
                    (Verdict AUTH_DENIED, fs',
                     tr ++ [EvLog (LogDenied user password)])
                | Next tr =>
                    (Verdict AUTH_DENIED, fs,
                     tr ++ [EvLog (LogDenied user password)])
                end
            end
        end
      else
        (Verdict AUTH_DENIED, fs,
         tr ++ [EvLog (LogPasswordNotRecognized password)])
  end.

(** *** The realm hash of digest authentication *)

Definition APR_MD5_DIGESTSIZE : nat := 16.

Definition authn_totp_get_realm_hash (r : request_rec) (user realm : string)
  : outcome * option string * list event :=
  let conf := per_dir_config r in
  let timestamp := get_timestamp r in
  let tr := [EvLog (LogDigestAuth timestamp user realm)] in
  match get_user_totp_config (token_files r) conf user with
  | (LoadUndefined, ev) => (Undef, None, tr ++ ev)
  | (LoadNull, ev) =>
      (Verdict AUTH_USER_NOT_FOUND, None,
       tr ++ ev ++ [EvLog (LogNoUserConfig user)])
  | (Loaded totp_config, ev) =>
      let totp_code := generate_totp_code timestamp (key_bytes totp_config) in
      let pwstr := fmt_6_6u totp_code in
      let hashstr := user +:+ ":" +:+ realm +:+ ":" +:+ pwstr in
      let hash := apr_md5 (bytes_of_string hashstr) in
      (Verdict AUTH_USER_FOUND, Some (hex_encode hash APR_MD5_DIGESTSIZE),
       tr ++ ev ++ [EvLog (LogSecretKey (shared_key totp_config));
                    EvLog (LogUserPassword user pwstr timestamp)])
  end.

(** The same request against another token store. *)
Definition with_store (r : request_rec) (store : token_store) : request_rec :=
  {| per_dir_config := per_dir_config r;
     apr_time_now := apr_time_now r;
     token_files := store;
     create_error := create_error r |}.

(** *** The provider over time *)

(** The two entry points registered with the host. *)
Inductive call :=
| CheckPassword (r : request_rec) (user password : string)
| GetRealmHash (r : request_rec) (user realm : string).

Definition serve (fs : files) (c : call) : files :=
  match c with
  | CheckPassword r user password =>
      snd (fst (authn_totp_check_password r fs user password))
  | GetRealmHash _ _ _ => fs
  end.

Definition serve_all (fs : files) (cs : list call) : files :=
  fold_left serve cs fs.

End Provider.

End Totp.

(** ** The refactored helpers, [utils.c] *)

Module Utils.
Import Word CStr Totp.

(** Modelled from the spec: [is_digit_str] is declared in [utils.h], which
    is not among the sources.  Section 4.2 accepts a value that is all
    digits and warns about any other; the call sites print the result as
    the offending character and take 0 for an accepted string. *)
Definition is_digit_str (token : string) : option ascii :=
  first_bad apr_isdigit token.

Section Loader.
Context {L : Libs}.

(** The [WINDOW_SIZE] branch of [totp_read_user_config]. *)
Definition read_window_size (c : totp_user_config) (last : string)
  : step_result * list log_msg :=
  match apr_strtok SEP last with
  | None => (Undefined, [])           (* [is_digit_str(NULL)] *)
  | Some (token, _) =>
      match is_digit_str token with
      | Some err_char =>
          (Continue c, [LogInvalidChar WindowSize (Some token) err_char])
      | None =>
          (Continue (set_window_size c (u8 (c_max 0 (c_min (apr_atoi64 token) 32)))),
           [])
      end
  end.

(** The [RATE_LIMIT] branch of [totp_read_user_config]. *)
Definition read_rate_limit (c : totp_user_config) (last : string)
  : step_result * list log_msg :=
  match apr_strtok SEP last with
  | None => (Undefined, [])
  | Some (token, last1) =>
      let '(c1, l1) :=
        match is_digit_str token with
        | Some err_char =>
            (c, [LogInvalidChar RateLimitCount (Some token) err_char])
        | None =>
            (set_rate_limit_count c (c_max 0 (c_min (apr_atoi64 token) 5)), [])
        end in
      match apr_strtok SEP last1 with
      | None => (Undefined, l1)
      | Some (token2, _) =>
          match is_digit_str token2 with
          | Some err_char =>
              (Continue (set_rate_limit_count c1 0),
               l1 ++ [LogInvalidChar RateLimitSeconds (Some token2) err_char])
          | None =>
              (Continue (set_rate_limit_seconds c1
                           (c_max 0 (c_min (apr_atoi64 token2) 300))), l1)
          end
      end
  end.

(** One turn of the [while] loop of [totp_read_user_config]. *)
Definition read_process_line (c : totp_user_config) (line : string)
  : step_result * list log_msg :=
  match line with
  | EmptyString => (Continue c, [])
  | String c0 rest =>
      if Ascii.eqb c0 QUOTE then
        match rest with
        | EmptyString => (Undefined, [])
        | String _ body =>
            match apr_strtok SEP body with
            | Some (token, last) =>
                if apr_strnatcmp_is0 token "DISALLOW_REUSE" then
                  (Continue (set_disallow_reuse c true), [])
                else if apr_strnatcmp_is0 token "WINDOW_SIZE" then
                  read_window_size c last
                else if apr_strnatcmp_is0 token "RATE_LIMIT" then
                  read_rate_limit c last
                else (Continue c, [LogUnrecognized line])
            | None => (Continue c, [LogComment line])
            end
        end
      else
        match shared_key c with
        | None =>
            match apr_pdecode_base32 line with
            | None => (ReturnNull, [LogNoSecret])
            | Some key => (Continue (set_shared_key c key), [])
            end
        | Some _ =>
            match is_digit_str line with
            | Some err_char => (Continue c, [LogScratchInvalid line err_char])
            | None =>
                if scratch_codes_count c <? 10
                then (Continue (push_scratch_code c (u32 (apr_atoi64 line))), [])
                else (Continue c, [LogScratchSkipped line])
            end
        end
  end.

Fixpoint read_config_lines (lines : list string) (c : totp_user_config)
  : load_result * list log_msg :=
  match lines with
  | [] => (Loaded c, [])
  | line :: rest =>
      match read_process_line c line with
      | (Continue c', l) =>
          let '(r, l') := read_config_lines rest c' in (r, l ++ l')
      | (ReturnNull, l) => (LoadNull, l)
      | (Undefined, l) => (LoadUndefined, l)
      end
  end.

(** The source formats the file name from [username], a name it does not
    declare; the parameter [user] is what is meant. *)
Definition totp_read_user_config (store : token_store)
    (user token_dir : string) : load_result * list event :=
  let config_filename := token_dir +:+ "/" +:+ user in
  match store config_filename with
  | None =>
      (LoadNull, [EvOpenConfig config_filename;
                  EvLog (LogCannotOpen config_filename)])
  | Some lines =>
      let '(r, l) := read_config_lines lines zero_config in
      (r, EvOpenConfig config_filename :: map EvLog l)
  end.

End Loader.

(** *** The ledger transaction *)

Inductive ledger_step :=
| CreateTmp | OpenTarget | FileInfo | Mmap | WriteTmp | Rename.

Inductive apr_status_t :=
| APR_SUCCESS
| APR_FAILURE (at_step : ledger_step).

(** The calls of a transaction that the system may refuse. *)
Record ledger_io := {
  create_tmp_error : bool;
  open_error : bool;          (* other than the target not existing *)
  finfo_error : bool;
  mmap_error : bool;
  write_error : nat -> bool;  (* by the bytes already in the temporary file *)
  rename_error : bool
}.

(** The time stamp at the head of a record: an [apr_time_t] in host byte
    order (little-endian). *)
Definition entry_time_of (record : list Z) : Z :=
  s64 (le_value (firstn 8 record)).

Section Ledger.
Variable cb_data : Type.
(** [totp_file_helper_cb]: called with the new entry, an existing record
    (or NULL) and the accumulator; a non-zero result keeps the record. *)
Variable cb_check : list Z -> option (list Z) -> cb_data -> bool * cb_data.
Variable io : ledger_io.
Variable entry : list Z.
Variable entry_size : positive.

Definition esize : nat := Pos.to_nat entry_size.

(** The loop over the mapped target file; [false] when a write fails. *)
Equations scan_target (file_data : list Z) (entry_pos : Z)
    (acc : cb_data) (tmp : list Z)
  : bool * cb_data * list Z
  by wf (Z.to_nat (Z.of_nat (length file_data) - entry_pos)) lt :=
  scan_target file_data entry_pos acc tmp
    with decide (entry_pos < Z.of_nat (length file_data)) := {
    | right _ => (true, acc, tmp)
    | left _ =>
        let here := skipn (Z.to_nat entry_pos) file_data in
        if entry_time_of entry >=? entry_time_of here then
          match cb_check entry (Some (firstn esize here)) acc with
          | (true, acc') =>
              if write_error io (length tmp) then (false, acc', tmp)
              else scan_target file_data (entry_pos + Z.pos entry_size) acc'
                     (tmp ++ firstn esize here)
          | (false, acc') =>
              scan_target file_data (entry_pos + Z.pos entry_size) acc' tmp
          end
        else scan_target file_data (entry_pos + Z.pos entry_size) acc tmp }.
Next Obligation. lia. Qed.
Next Obligation. lia. Qed.
Next Obligation. lia. Qed.

Definition tmp_filepath_of (filepath : string) : string :=
  filepath +:+ "." +:+ pretty (entry_time_of entry).

Definition totp_check_n_update_file_helper (fs : files) (filepath : string)
    (acc : cb_data) : apr_status_t * cb_data * files :=
  let tmp_filepath := tmp_filepath_of filepath in
  if create_tmp_error io || bool_decide (is_Some (fs !! tmp_filepath)) then
    (APR_FAILURE CreateTmp, acc, fs)
  else
    let fs := <[tmp_filepath := []]> fs in
    if open_error io then (APR_FAILURE OpenTarget, acc, fs)
    else
      let scanned :=
        match fs !! filepath with
        | None => inl (true, acc, [])                  (* APR_ENOENT *)
        | Some file_data =>
            if finfo_error io then inr FileInfo
            else if mmap_error io then inr Mmap
            else inl (scan_target file_data 0 acc [])
        end in
      match scanned with
      | inr st => (APR_FAILURE st, acc, fs)
      | inl (false, acc, tmp) =>
          (APR_FAILURE WriteTmp, acc, <[tmp_filepath := tmp]> fs)
      | inl (true, acc, tmp) =>
          match cb_check entry None acc with
          | (true, acc) =>
              if write_error io (length tmp) then
                (APR_FAILURE WriteTmp, acc, <[tmp_filepath := tmp]> fs)
              else
                let tmp := tmp ++ firstn esize entry in
                if rename_error io then
                  (APR_FAILURE Rename, acc, <[tmp_filepath := tmp]> fs)
                else
                  (APR_SUCCESS, acc,
                   <[filepath := tmp]> (delete tmp_filepath fs))
          | (false, acc) =>
              if rename_error io then
                (APR_FAILURE Rename, acc, <[tmp_filepath := tmp]> fs)
              else
                (APR_SUCCESS, acc,
                 <[filepath := tmp]> (delete tmp_filepath fs))
          end
      end.

End Ledger.

End Utils.

(** ** The code generator in the words of section 4.1 *)

Module GeneratorSpec.
Import Word.

(** The value of a byte string read as a big-endian integer. *)
Definition be_uint (bs : list Z) : Z :=
  fold_left (fun acc b => acc * 256 + b) bs 0.

(** The generator in the words of section 4.1: the time step on 8
    big-endian bytes, the 20-byte MAC keyed by the secret, the dynamic
    truncation at [MAC[19] & 0x0F], the sign bit cleared, modulo 10^6. *)
Definition generate (secret : list Z) (T : Z) : Z :=
  let mac := Sha1.hmac_sha1 secret (be_bytes 8 T) in
  let offset := Z.to_nat (Z.land (nth 19 mac 0) 0x0F) in
  let word := be_uint (firstn 4 (skipn offset mac)) in
  Z.land word 0x7FFFFFFF mod 1000000.

End GeneratorSpec.

(** ** The password check, path by path *)

(** The first of [n] consecutive indices from [lo] at which [hit] holds. *)
Fixpoint first_hit (hit : Z -> bool) (lo : Z) (n : nat) : option Z :=
  match n with
  | O => None
  | S m => if hit lo then Some lo else first_hit hit (lo + 1) m
  end.

Module CheckSpec.
Import Word CStr Totp.

(** The log line of the candidate at window offset [k]. *)
Definition validating (T0 c : Z) (cand : Z -> Z) (k : Z) : event :=
  EvLog (LogValidating T0 (cand k) c).

(** The log line of the scratch code at index [i]. *)
Definition validating_scratch (c : Z) (codes : list Z) (i : Z) : event :=
  EvLog (LogValidatingScratch (nth (Z.to_nat i) codes 0) c).

(** Admission of a matched code: the verdict follows the marker. *)
Definition admission (r : request_rec) (fs : files) (user password : string)
    (granted : log_msg) (tr : list event) : outcome * files * list event :=
  match mark_code_invalid r (per_dir_config r) fs user password with
  | (true, fs', e) => (Verdict AUTH_GRANTED, fs', tr ++ e ++ [EvLog granted])
  | (false, fs', e) =>
      (Verdict AUTH_DENIED, fs', tr ++ e ++ [EvLog (LogDenied user password)])
  end.

(** The candidate code at window offset [k]. *)
Definition candidate (r : request_rec) (cfg : totp_user_config) (k : Z) : Z :=
  generate_totp_code (u64 (get_timestamp r + k)) (key_bytes cfg).

(** The events before the scan starts. *)
Definition preamble (r : request_rec) (cfg : totp_user_config)
    (user password : string) (ev : list event) : list event :=
  EvLog (LogBasicAuth (get_timestamp r) user password)
    :: ev ++ [EvLog (LogSecretKey (shared_key cfg))].

(** How the loops of the password check leave: at the first hit, through
    the marker. *)
Definition leave (r : request_rec) (fs : files) (user password : string)
    (granted : log_msg) (tr : list event) : loop_result :=
  match mark_code_invalid r (per_dir_config r) fs user password with
  | (true, fs', e) => (Return AUTH_GRANTED, fs', tr ++ e ++ [EvLog granted])
  | (false, fs', e) => (Break, fs', tr ++ e)
  end.

End CheckSpec.

(** ** The credential record in the words of section 4.2 *)

Module LoaderSpec.
Import Word CStr Totp.

Definition is_directive (line : string) : bool :=
  match line with
  | String c _ => Ascii.eqb c QUOTE
  | EmptyString => false
  end.

(** Neither blank nor a directive. *)
Definition is_content (line : string) : bool :=
  match line with
  | String c _ => negb (Ascii.eqb c QUOTE)
  | EmptyString => false
  end.

Definition content_lines (lines : list string) : list string :=
  List.filter is_content lines.

Definition scratch_value (line : string) : Z := u32 (apr_atoi64 line).

(** The lines after the secret: a line of digits is kept while fewer than
    ten codes are; every other line is skipped.  The codes kept and the
    lines skipped, both in the order of the record; [kept] codes are
    there already. *)
Fixpoint scratch_lines (kept : nat) (rest : list string)
  : list Z * list string :=
  match rest with
  | [] => ([], [])
  | line :: rest' =>
      if all_digits line && (kept <? 10)%nat then
        let '(codes, skipped) := scratch_lines (S kept) rest' in
        (scratch_value line :: codes, skipped)
      else
        let '(codes, skipped) := scratch_lines kept rest' in
        (codes, line :: skipped)
  end.

(** The scratch codes of a record: the first [scratch_codes_count]
    entries of the array. *)
Definition kept_codes (c : totp_user_config) : list Z :=
  firstn (Z.to_nat (scratch_codes_count c)) (scratch_codes c).

(** The array has ten entries, of which at most ten are in use. *)
Definition well_formed (c : totp_user_config) : Prop :=
  length (scratch_codes c) = 10%nat /\ 0 <= scratch_codes_count c <= 10.

(** The two records agree on the secret and the scratch codes. *)
Definition same_codes (c c' : totp_user_config) : Prop :=
  shared_key c' = shared_key c
  /\ scratch_codes c' = scratch_codes c
  /\ scratch_codes_count c' = scratch_codes_count c.

(** The loop over the lines of a record, for either loader. *)
Fixpoint read_loop
    (step : totp_user_config -> string -> step_result * list log_msg)
    (lines : list string) (c : totp_user_config)
  : load_result * list log_msg :=
  match lines with
  | [] => (Loaded c, [])
  | line :: rest =>
      match step c line with
      | (Continue c', l) =>
          let '(r, l') := read_loop step rest c' in (r, l ++ l')
      | (ReturnNull, l) => (LoadNull, l)
      | (Undefined, l) => (LoadUndefined, l)
      end
  end.

(** The warning by which [get_user_totp_config] reports a scratch line
    that it does not keep. *)
Definition skipped_msg (m : log_msg) : option string :=
  match m with
  | LogScratchSkipped line => Some line
  | _ => None
  end.

(** The warnings by which [totp_read_user_config] does. *)
Definition warned_msg (m : log_msg) : option string :=
  match m with
  | LogScratchSkipped line => Some line
  | LogScratchInvalid line _ => Some line
  | _ => None
  end.

(** The lines about which the log says that they were skipped. *)
Definition skipped_of (log : list log_msg) : list string :=
  omap skipped_msg log.

(** Section 4.2 on the secret and the scratch codes, for a loader that
    decodes with [decode], reports the lines it does not keep by the
    messages that [warning] selects, and has returned [res] with log [log]
    on the lines [lines]:
    - a record is returned only if the first content line, when there is
      one, decodes, and that is its secret; its scratch codes are the first
      ten lines of digits after the secret, in their order; every later
      content line that is not of digits, and every line of digits after
      the tenth, has its warning;
    - NULL is returned only for a first content line that does not decode;
    - undefined behaviour comes from a directive only. *)
Definition parses_record (decode : string -> option (list Z))
    (warning : log_msg -> option string) (lines : list string)
    (res : load_result) (log : list log_msg) : Prop :=
  match res with
  | Loaded c =>
      match content_lines lines with
      | [] => shared_key c = None /\ kept_codes c = []
      | first :: rest =>
          decode first = Some (key_bytes c)
          /\ shared_key c = Some (key_bytes c)
          /\ kept_codes c
             = map scratch_value (firstn 10 (List.filter all_digits rest))
          /\ (forall line,
                (line ∈ rest /\ all_digits line = false)
                \/ line ∈ skipn 10 (List.filter all_digits rest) ->
                line ∈ omap warning log)
      end
  | LoadNull =>
      exists first rest,
        content_lines lines = first :: rest /\ decode first = None
  | LoadUndefined => exists line, line ∈ lines /\ is_directive line = true
  end.

(** The number that a string of digits writes. *)
Definition decimal (v : string) : Z := digits_value 0 v.

(** What a loader does with a line that is blank or a directive: the
    secret and the scratch codes stay, the load does not end with NULL, no
    scratch line is reported. *)
Definition other_line
    (step : totp_user_config -> string -> step_result * list log_msg)
    (warning : log_msg -> option string) : Prop :=
  forall c line,
    is_content line = false ->
    match step c line with
    | (Continue c', l) => same_codes c c' /\ omap warning l = []
    | (ReturnNull, _) => False
    | (Undefined, _) => is_directive line = true
    end.

(** What a loader does with the first content line. *)
Definition secret_line
    (step : totp_user_config -> string -> step_result * list log_msg)
    (decode : string -> option (list Z)) : Prop :=
  forall c line,
    is_content line = true -> shared_key c = None ->
    step c line =
    match decode line with
    | None => (ReturnNull, [LogNoSecret])
    | Some key => (Continue (set_shared_key c key), [])
    end.

(** What a loader does with a later content line. *)
Definition scratch_line
    (step : totp_user_config -> string -> step_result * list log_msg)
    (warning : log_msg -> option string) : Prop :=
  forall c line key,
    is_content line = true -> shared_key c = Some key ->
    exists l,
      step c line =
      (Continue (if all_digits line && (scratch_codes_count c <? 10)
                 then push_scratch_code c (scratch_value line) else c), l)
      /\ omap warning l =
         (if all_digits line && (scratch_codes_count c <? 10)
          then [] else [line]).

End LoaderSpec.

(** ** The ledger in the words of section 4.4 *)

Module LedgerSpec.
Import Word Utils.

Section Retain.
Variable cb_data : Type.
Variable cb_check : list Z -> option (list Z) -> cb_data -> bool * cb_data.
Variable entry : list Z.

(** The records that a transaction retains, in stored order: a record
    dated after the new entry is dropped without asking; any other is
    shown to the predicate, which keeps or drops it and updates the
    accumulator. *)
Fixpoint retain (records : list (list Z)) (acc : cb_data)
  : list (list Z) * cb_data :=
  match records with
  | [] => ([], acc)
  | record :: rest =>
      if entry_time_of record <=? entry_time_of entry then
        let '(keep, acc) := cb_check entry (Some record) acc in
        let '(kept, acc) := retain rest acc in
        (if keep then record :: kept else kept, acc)
      else retain rest acc
  end.

(** The ledger after a completed transaction, and the accumulator. *)
Definition compacted (records : list (list Z)) (acc : cb_data)
  : list Z * cb_data :=
  let '(kept, acc) := retain records acc in
  let '(accept, acc) := cb_check entry None acc in
  (concat kept ++ (if accept then entry else []), acc).

End Retain.

End LedgerSpec.

(** ** A concrete setting for examples *)

Module Demo.
Import Word CStr Totp.

Definition b32_value (c : ascii) : option Z :=
  let n := code c in
  if (65 <=? n) && (n <=? 90) then Some (n - 65)
  else if (50 <=? n) && (n <=? 55) then Some (n - 24)
  else None.

(** Base32 of RFC 4648 without padding: five bits per character, a byte
    out whenever eight bits are there. *)
Fixpoint b32_decode (s : string) (buffer bits_left : Z) : option (list Z) :=
  match s with
  | EmptyString => Some []
  | String c rest =>
      match b32_value c with
      | None => None
      | Some v =>
          let buffer := Z.lor (Z.shiftl buffer 5) v in
          let bits_left := bits_left + 5 in
          if bits_left >=? 8 then
            match b32_decode rest (Z.land buffer (Z.ones (bits_left - 8)))
                    (bits_left - 8) with
            | Some out => Some (u8 (Z.shiftr buffer (bits_left - 8)) :: out)
            | None => None
            end
          else b32_decode rest buffer bits_left
      end
  end.

(** An instance of the library functions for the examples.  The theorems
    hold for every instance; this one decodes Base32 and uses the first 16
    bytes of SHA-1 in the place of the MD5 digest. *)
Definition libs : Libs :=
  {| base32_decode := fun s _ => b32_decode s 0 0;
     apr_pdecode_base32 := fun s => b32_decode s 0 0;
     apr_md5 := fun m => firstn 16 (Sha1.sha1 m) |}.

Definition directive (body : string) : string :=
  String QUOTE (String " " body).

(** A record: directives, the secret of the published test vectors, two
    scratch codes. *)
Definition record (directives : list string) : list string :=
  directives
    ++ ["GEZDGNBVGY3TQOJQGEZDGNBVGY3TQOJQ"; "11112222"; "33334444"]%string.

(** The record of user alice: a window of one step, no reuse, at most
    one attempt in 30 seconds. *)
Definition alice_record : list string :=
  record [ directive "WINDOW_SIZE 1";
           directive "DISALLOW_REUSE";
           directive "RATE_LIMIT 1 30" ].

(** The same record without a reuse or rate policy. *)
Definition plain_record : list string :=
  record [ directive "WINDOW_SIZE 1" ].

Definition store_with (lines : list string) : string -> option (list string) :=
  fun path => if String.eqb path "/tokens/alice" then Some lines else None.

(** The record of alice without the rate limit. *)
Definition reuse_record : list string :=
  record [ directive "WINDOW_SIZE 1"; directive "DISALLOW_REUSE" ].

Definition store := store_with alice_record.
Definition plain_store := store_with plain_record.
Definition reuse_store := store_with reuse_record.

Definition conf : totp_auth_config_rec :=
  {| tokenDir := Some "/tokens"%string; stateDir := Some "/state"%string |}.

(** A request at [seconds] after the epoch. *)
Definition request (seconds : Z) : request_rec :=
  {| per_dir_config := conf;
     apr_time_now := seconds * 1000000;
     token_files := store;
     create_error := fun _ => false |}.

Definition config_of (st : string -> option (list string)) : totp_user_config :=
  match fst (@get_user_totp_config libs st conf "alice") with
  | Loaded c => c
  | _ => zero_config
  end.

Definition events_of (st : string -> option (list string)) : list event :=
  snd (@get_user_totp_config libs st conf "alice").

Definition alice_config : totp_user_config := config_of store.
Definition alice_events : list event := events_of store.

(** A rate-limiting predicate over records that are a time stamp and
    nothing else: a record is kept, and counted, when it is at most 30
    seconds old; the new entry is admitted while fewer than two are. *)
Definition count_recent (new : list Z) (old : option (list Z)) (count : Z)
  : bool * Z :=
  match old with
  | Some record =>
      if Utils.entry_time_of new - Utils.entry_time_of record <=? 30
      then (true, count + 1) else (false, count)
  | None => (count <? 2, count)
  end.

Definition stamp (seconds : Z) : list Z := le_bytes 8 seconds.

Definition no_errors : Utils.ledger_io :=
  {| Utils.create_tmp_error := false; Utils.open_error := false;
     Utils.finfo_error := false; Utils.mmap_error := false;
     Utils.write_error := fun _ => false; Utils.rename_error := false |}.

(** A ledger with a stale record, a recent one and one from the future. *)
Definition ledger : gmap string (list Z) :=
  {[ "/state/alice"%string := stamp 10 ++ stamp 100 ++ stamp 500 ]}.

End Demo.

(** ** The directory configuration, [create_authn_totp_config] *)

Module Host.
Import Totp.

(** The per-directory record before any directive: both paths NULL. *)
Definition create_authn_totp_config : totp_auth_config_rec :=
  {| tokenDir := None; stateDir := None |}.

(** A request like [r] at another time and against another token store:
    the same directory configuration and the same file system. *)
Definition elsewhen (r : request_rec) (now : Z)
    (store : string -> option (list string)) : request_rec :=
  {| per_dir_config := per_dir_config r;
     apr_time_now := now;
     token_files := store;
     create_error := create_error r |}.

End Host.

(** ** Reading hexadecimal back *)

Module HexSpec.
Import CStr.

Definition hex_value (c : ascii) : option Z :=
  let n := code c in
  if (48 <=? n) && (n <=? 57) then Some (n - 48)
  else if (97 <=? n) && (n <=? 102) then Some (n - 87)
  else None.

(** Two characters a byte, most significant digit first. *)
Fixpoint hex_decode (s : string) : option (list Z) :=
  match s with
  | EmptyString => Some []
  | String h (String l rest) =>
      match hex_value h, hex_value l, hex_decode rest with
      | Some x, Some y, Some bytes => Some (16 * x + y :: bytes)
      | _, _, _ => None
      end
  | String _ EmptyString => None
  end.

End HexSpec.

(** ** Records as the loaders leave them *)

Module RecordSpec.
Import Word CStr Totp LoaderSpec.

(** The policy of a record within its bounds; [low] is the least number
    of seconds that a [RATE_LIMIT] directive can leave. *)
Definition policy_in_range (low : Z) (c : totp_user_config) : Prop :=
  0 <= window_size c <= 32
  /\ 0 <= rate_limit_count c <= 5
  /\ (rate_limit_seconds c = 0 \/ low <= rate_limit_seconds c <= 300)
  /\ well_formed c.

(** The first token of a directive line, when the line has one. *)
Definition directive_token (line : string) : option string :=
  match line with
  | String c0 (String _ body) =>
      if Ascii.eqb c0 QUOTE then
        match apr_strtok SEP body with
        | Some (token, _) => Some token
        | None => None
        end
      else None
  | _ => None
  end.

(** A blank line, a comment (a directive line without a token), or a
    directive that the loaders do not know. *)
Definition inert (line : string) : bool :=
  match line with
  | EmptyString => true
  | String c0 (String _ body) =>
      Ascii.eqb c0 QUOTE
      && match apr_strtok SEP body with
         | None => true
         | Some (token, _) =>
             negb (apr_strnatcmp_is0 token "DISALLOW_REUSE")
             && negb (apr_strnatcmp_is0 token "WINDOW_SIZE")
             && negb (apr_strnatcmp_is0 token "RATE_LIMIT")
         end
  | String _ EmptyString => false
  end.

(** A [DISALLOW_REUSE] directive. *)
Definition disallows_reuse (line : string) : bool :=
  match directive_token line with
  | Some token => apr_strnatcmp_is0 token "DISALLOW_REUSE"
  | None => false
  end.

(** The record of the module and the record of [utils.c] agree, but
    for seconds below 30 where the module has 30. *)
Definition agree_but_seconds (cm cu : totp_user_config) : Prop :=
  shared_key cm = shared_key cu
  /\ disallow_reuse cm = disallow_reuse cu
  /\ window_size cm = window_size cu
  /\ rate_limit_count cm = rate_limit_count cu
  /\ scratch_codes cm = scratch_codes cu
  /\ scratch_codes_count cm = scratch_codes_count cu
  /\ (rate_limit_seconds cm = rate_limit_seconds cu
      \/ (0 <= rate_limit_seconds cu < 30 /\ rate_limit_seconds cm = 30)).

(** One turn of the two loops has ended alike. *)
Definition step_alike (rm ru : step_result) : Prop :=
  match rm, ru with
  | Continue cm, Continue cu => agree_but_seconds cm cu
  | ReturnNull, ReturnNull => True
  | Undefined, Undefined => True
  | _, _ => False
  end.

(** The two loaders have returned alike. *)
Definition loaded_alike (rm ru : load_result) : Prop :=
  match rm, ru with
  | Loaded cm, Loaded cu => agree_but_seconds cm cu
  | LoadNull, LoadNull => True
  | LoadUndefined, LoadUndefined => True
  | _, _ => False
  end.

End RecordSpec.

(** ** A system that refuses a call of the ledger transaction *)

Module Faults.

(** The rename of the temporary file is refused; every other call is
    served. *)
Definition rename_refused : Utils.ledger_io :=
  {| Utils.create_tmp_error := false; Utils.open_error := false;
     Utils.finfo_error := false; Utils.mmap_error := false;
     Utils.write_error := fun _ => false; Utils.rename_error := true |}.

End Faults.

(** * Properties *)

(** ** Small cases *)

Section Examples.
Import Word CStr Totp.

(** FIPS 180 and RFC 2202 test vectors. *)
Example sha1_abc :
  Sha1.sha1 (bytes_of_string "abc")
  = [0xa9; 0x99; 0x3e; 0x36; 0x47; 0x06; 0x81; 0x6a; 0xba; 0x3e;
     0x25; 0x71; 0x78; 0x50; 0xc2; 0x6c; 0x9c; 0xd0; 0xd8; 0x9d].
Proof. vm_compute. reflexivity. Qed.

Example hmac_sha1_jefe :
  Sha1.hmac_sha1 (bytes_of_string "Jefe")
    (bytes_of_string "what do ya want for nothing?")
  = [0xef; 0xfc; 0xdf; 0x6a; 0xe5; 0xeb; 0x2f; 0xa2; 0xd2; 0x74;
     0x16; 0xd5; 0xf1; 0x84; 0xdf; 0x9c; 0x25; 0x9a; 0x7c; 0x79].
Proof. vm_compute. reflexivity. Qed.

Example hmac_sha1_long_key :
  Sha1.hmac_sha1 (repeat 0xaa 80)
    (bytes_of_string "Test Using Larger Than Block-Size Key - Hash Key First")
  = [0xaa; 0x4a; 0xe5; 0xe1; 0x52; 0x72; 0xd0; 0x0e; 0x95; 0x70;
     0x56; 0x37; 0xce; 0x8a; 0x3b; 0x55; 0xed; 0x40; 0x21; 0x12].
Proof. vm_compute. reflexivity. Qed.

(** The first counters of the published HOTP test values. *)
Example generate_totp_code_counters :
  map (fun T => generate_totp_code T (bytes_of_string "12345678901234567890"))
      [0; 1; 2; 3]
  = [755224; 287082; 359152; 969429].
Proof. vm_compute. reflexivity. Qed.

Example apr_strtok_directive :
  apr_strtok SEP "WINDOW_SIZE  17 x" = Some ("WINDOW_SIZE", " 17 x")%string.
Proof. reflexivity. Qed.

Example apr_strtok_end : apr_strtok SEP "   " = None.
Proof. reflexivity. Qed.

Example apr_atoi64_leading_zeros : apr_atoi64 "00123" = 123.
Proof. reflexivity. Qed.

Example apr_atoi64_saturates :
  apr_atoi64 "99999999999999999999" = 9223372036854775807.
Proof. reflexivity. Qed.

Example fmt_6_6u_pads : fmt_6_6u 4711 = "004711"%string.
Proof. reflexivity. Qed.

Example hex_encode_bytes : hex_encode [0; 171; 255] 3 = "00abff"%string.
Proof. reflexivity. Qed.

Example get_timestamp_59 : get_timestamp (Demo.request 59) = 1.
Proof. reflexivity. Qed.

Example alice_loads :
  Demo.alice_config
  = {| shared_key := Some (bytes_of_string "12345678901234567890");
       disallow_reuse := true; window_size := 1;
       rate_limit_count := 1; rate_limit_seconds := 30;
       scratch_codes := [11112222; 33334444; 0; 0; 0; 0; 0; 0; 0; 0];
       scratch_codes_count := 2 |}.
Proof. vm_compute. reflexivity. Qed.

(** A directive without its value makes the C code read through NULL. *)
Example window_size_without_value :
  fst (@read_lines Demo.libs [Demo.directive "WINDOW_SIZE"] zero_config)
  = LoadUndefined.
Proof. reflexivity. Qed.

End Examples.

(** ** Counted loops *)

Lemma for_upto_step {S R : Type} (hi : Z) (body : Z -> S -> ctl S R)
    (i : Z) (s : S) :
  for_upto hi body i s =
  if decide (i <= hi) then
    match body i s with
    | Next s' => for_upto hi body (i + 1) s'
    | Exit r => Exit r
    end
  else Next s.
Proof.
  rewrite for_upto_equation_1.
  destruct (decide (i <= hi)); simpl; [|reflexivity].
  destruct (body i s); reflexivity.
Qed.

(** ** Bytes and words *)

Section WordFacts.
Import Word.

Lemma u8_is_byte x : is_byte (u8 x).
Proof. unfold is_byte, u8, wrap. apply Z.mod_pos_bound. lia. Qed.

Lemma be_bytes_length n x : length (be_bytes n x) = n.
Proof. induction n; simpl; congruence. Qed.

Lemma be_bytes_bytes n x : Forall is_byte (be_bytes n x).
Proof. induction n; simpl; constructor; auto using u8_is_byte. Qed.

(** Shifting a byte in from the right is multiplication by 256 and
    addition, when the bits do not overlap. *)
Lemma shift_in_byte x b :
  0 <= x -> is_byte b -> Z.lor (Z.shiftl x 8) b = x * 256 + b.
Proof.
  intros Hx [Hb0 Hb1].
  assert (Hland : Z.land (Z.shiftl x 8) b = 0).
  { apply Z.bits_inj'. intros n Hn.
    rewrite Z.land_spec, Z.bits_0.
    destruct (Z.lt_ge_cases n 8) as [Hlt|Hge].
    - rewrite Z.shiftl_spec_low by lia. reflexivity.
    - replace b with (b mod 2 ^ 8) by (apply Z.mod_small; lia).
      rewrite Z.mod_pow2_bits_high by lia. apply andb_false_r. }
  rewrite <- Z.lxor_lor by exact Hland.
  rewrite <- Z.add_nocarry_lxor by exact Hland.
  rewrite Z.shiftl_mul_pow2 by lia. reflexivity.
Qed.

End WordFacts.

(** ** SHA-1 and HMAC: shape of the output *)

Section Sha1Facts.
Import Word Sha1.

Lemma digest_bytes_length r : length (digest_bytes r) = 20%nat.
Proof. reflexivity. Qed.

Lemma digest_bytes_bytes r : Forall is_byte (digest_bytes r).
Proof.
  unfold digest_bytes. rewrite !Forall_app.
  repeat split; apply be_bytes_bytes.
Qed.

Lemma hmac_sha1_length key data : length (hmac_sha1 key data) = 20%nat.
Proof. apply digest_bytes_length. Qed.

Lemma hmac_sha1_bytes key data : Forall is_byte (hmac_sha1 key data).
Proof. apply digest_bytes_bytes. Qed.

End Sha1Facts.

(** ** The code generator (section 4.1) *)

Section GeneratorFacts.
Import Word CStr Totp GeneratorSpec.

Lemma fill_challenge_be challenge :
  fill_challenge 8 challenge (repeat 0 8) = be_bytes 8 challenge.
Proof.
  cbn [fill_challenge repeat be_bytes Nat.pred].
  unfold be_bytes. cbn [Z.of_nat Pos.of_succ_nat Pos.succ Z.mul Pos.mul Pos.add].
  rewrite !Z.shiftr_shiftr by lia.
  cbn. reflexivity.
Qed.

Lemma nth_offset (hash : list Z) (o j : Z) :
  0 <= o -> 0 <= j ->
  nth (Z.to_nat (o + j)) hash 0 = nth (Z.to_nat j) (skipn (Z.to_nat o) hash) 0.
Proof.
  intros Ho Hj. rewrite !nth_lookup, lookup_drop.
  replace (Z.to_nat (o + j)) with (Z.to_nat o + Z.to_nat j)%nat by lia.
  reflexivity.
Qed.

Lemma truncate_four (b0 b1 b2 b3 : Z) :
  is_byte b0 -> is_byte b1 -> is_byte b2 -> is_byte b3 ->
  Z.lor (u32 (Z.shiftl (Z.lor (u32 (Z.shiftl (Z.lor (u32 (Z.shiftl
    (Z.lor (u32 (Z.shiftl 0 8)) b0) 8)) b1) 8)) b2) 8)) b3
  = be_uint [b0; b1; b2; b3].
Proof.
  unfold is_byte, be_uint. intros H0 H1 H2 H3. cbn [fold_left].
  assert (Hu : forall x, 0 <= x < 2 ^ 24 -> u32 (Z.shiftl x 8) = x * 256).
  { intros x Hx. unfold u32, wrap. rewrite Z.shiftl_mul_pow2 by lia.
    apply Z.mod_small. lia. }
  assert (Hl : forall x b, 0 <= x < 2 ^ 24 -> 0 <= b < 256 ->
                           Z.lor (u32 (Z.shiftl x 8)) b = x * 256 + b).
  { intros x b Hx Hb. rewrite <- shift_in_byte by (unfold is_byte; lia).
    f_equal. rewrite Hu by lia. rewrite Z.shiftl_mul_pow2 by lia. reflexivity. }
  rewrite (Hl 0 b0) by lia.
  rewrite (Hl (0 * 256 + b0) b1) by lia.
  rewrite (Hl ((0 * 256 + b0) * 256 + b1) b2) by lia.
  rewrite (Hl (((0 * 256 + b0) * 256 + b1) * 256 + b2) b3) by lia.
  reflexivity.
Qed.

Lemma truncate_hash_be (hash : list Z) (o : Z) :
  Forall is_byte hash -> 0 <= o -> (Z.to_nat o + 4 <= length hash)%nat ->
  truncate_hash hash o = be_uint (firstn 4 (skipn (Z.to_nat o) hash)).
Proof.
  intros Hb Ho Hlen. unfold truncate_hash. cbn [fold_left].
  rewrite !nth_offset by lia.
  assert (Hb' : Forall is_byte (skipn (Z.to_nat o) hash))
    by (apply Forall_drop; exact Hb).
  assert (Hl' : (4 <= length (skipn (Z.to_nat o) hash))%nat)
    by (rewrite length_skipn; lia).
  destruct (skipn (Z.to_nat o) hash) as [|b0 [|b1 [|b2 [|b3 rest]]]];
    simpl in Hl'; try lia.
  inversion_clear Hb' as [|? ? H0 Hb1]. inversion_clear Hb1 as [|? ? H1 Hb2].
  inversion_clear Hb2 as [|? ? H2 Hb3]. inversion_clear Hb3 as [|? ? H3 _].
  change (Z.to_nat 0) with 0%nat. change (Z.to_nat 1) with 1%nat.
  change (Z.to_nat 2) with 2%nat. change (Z.to_nat 3) with 3%nat.
  cbn [nth firstn]. apply truncate_four; assumption.
Qed.

Lemma offset_range (b : Z) : 0 <= Z.land b 0xF <= 15.
Proof.
  change (Z.land b 0xF) with (Z.land b (Z.ones 4)).
  rewrite Z.land_ones by lia. change (2 ^ 4) with 16.
  pose proof (Z.mod_pos_bound b 16). lia.
Qed.

Lemma generate_totp_code_generate (challenge : Z) (secret : list Z) :
  generate_totp_code challenge secret = generate secret challenge.
Proof.
  unfold generate_totp_code, generate.
  rewrite fill_challenge_be.
  set (mac := Sha1.hmac_sha1 secret (be_bytes 8 challenge)).
  pose proof (offset_range (nth 19 mac 0)) as Ho.
  pose proof (hmac_sha1_length secret (be_bytes 8 challenge)) as Hlen.
  fold mac in Hlen.
  rewrite truncate_hash_be; [reflexivity | apply hmac_sha1_bytes | lia | lia].
Qed.

Lemma generate_totp_code_range (challenge : Z) (secret : list Z) :
  0 <= generate_totp_code challenge secret <= 999999.
Proof.
  unfold generate_totp_code.
  match goal with |- 0 <= ?x mod ?m <= _ =>
    pose proof (Z.mod_pos_bound x m) end.
  lia.
Qed.

End GeneratorFacts.

(** C4.  The code generator computes the dynamic truncation of section
    4.1: for a non-empty secret and a 64-bit time step [T], the MAC has 20
    bytes, [generate_totp_code] equals the value spelled out by the
    specification (8 big-endian bytes of [T], HMAC-SHA1 keyed by the
    secret, offset [MAC[19] & 0x0F], four bytes read big-endian, mask
    [0x7FFFFFFF], modulo 1,000,000), that value lies in [[0, 999999]], it
    depends on the secret and the step only, and the secret
    "12345678901234567890" at step 1 gives 287082. *)
Theorem generate_totp_code_correct (secret : list Z) (T : Z) :
  secret <> [] -> 0 <= T < 2 ^ 64 ->
  length (Sha1.hmac_sha1 secret (Word.be_bytes 8 T)) = 20%nat
  /\ Totp.generate_totp_code T secret = GeneratorSpec.generate secret T
  /\ 0 <= Totp.generate_totp_code T secret <= 999999
  /\ (forall secret' T', secret' = secret -> T' = T ->
        Totp.generate_totp_code T' secret' = Totp.generate_totp_code T secret)
  /\ Totp.generate_totp_code 1 (CStr.bytes_of_string "12345678901234567890")
       = 287082.
Proof.
  intros _ _. split; [|split; [|split; [|split]]].
  - apply hmac_sha1_length.
  - apply generate_totp_code_generate.
  - apply generate_totp_code_range.
  - intros secret' T' -> ->. reflexivity.
  - vm_compute. reflexivity.
Qed.

Lemma generate_totp_code_correct_witness :
  Totp.generate_totp_code 1 (CStr.bytes_of_string "12345678901234567890")
  = GeneratorSpec.generate (CStr.bytes_of_string "12345678901234567890") 1
  /\ 0 <= Totp.generate_totp_code 1
            (CStr.bytes_of_string "12345678901234567890") <= 999999.
Proof.
  destruct (generate_totp_code_correct
              (CStr.bytes_of_string "12345678901234567890") 1)
    as (_ & Heq & Hrange & _).
  - discriminate.
  - lia.
  - split; [exact Heq | exact Hrange].
Defined.

(** ** Search loops *)

Lemma first_hit_Some hit lo n k :
  first_hit hit lo n = Some k ->
  lo <= k < lo + Z.of_nat n /\ hit k = true
  /\ forall j, lo <= j < k -> hit j = false.
Proof.
  revert lo. induction n as [|m IH]; intros lo H; simpl in H; [discriminate|].
  destruct (hit lo) eqn:Hlo.
  - injection H as <-. split; [lia | split; [assumption|]]. intros j Hj. lia.
  - apply IH in H as (Hk & Hhit & Hbefore). split; [lia | split; [assumption|]].
    intros j Hj. destruct (decide (j = lo)) as [->|Hne]; [assumption|].
    apply Hbefore. lia.
Qed.

Lemma first_hit_None hit lo n :
  first_hit hit lo n = None ->
  forall j, lo <= j < lo + Z.of_nat n -> hit j = false.
Proof.
  revert lo. induction n as [|m IH]; intros lo H j Hj; [lia|].
  simpl in H. destruct (hit lo) eqn:Hlo; [discriminate|].
  destruct (decide (j = lo)) as [->|Hne]; [assumption|].
  apply (IH (lo + 1)); [assumption | lia].
Qed.

Lemma first_hit_exists hit lo n k :
  lo <= k < lo + Z.of_nat n -> hit k = true ->
  exists k0, first_hit hit lo n = Some k0 /\ k0 <= k.
Proof.
  intros Hk Hhit. destruct (first_hit hit lo n) as [k0|] eqn:Hf.
  - exists k0. split; [reflexivity|].
    apply first_hit_Some in Hf as (_ & _ & Hbefore).
    destruct (Z.le_gt_cases k0 k) as [|Hgt]; [assumption|].
    rewrite Hbefore in Hhit by lia. discriminate.
  - rewrite (first_hit_None _ _ _ Hf k Hk) in Hhit. discriminate.
Qed.

Lemma first_hit_least hit lo n k :
  lo <= k < lo + Z.of_nat n -> hit k = true ->
  (forall j, lo <= j < k -> hit j = false) ->
  first_hit hit lo n = Some k.
Proof.
  intros Hk Hhit Hbefore.
  destruct (first_hit_exists hit lo n k Hk Hhit) as (k0 & Hf & Hle).
  rewrite Hf. f_equal.
  apply first_hit_Some in Hf as (Hk0 & Hhit0 & _).
  destruct (decide (k0 = k)) as [|Hne]; [assumption|].
  rewrite Hbefore in Hhit0 by lia. discriminate.
Qed.

(** A loop that logs one event per index and leaves at the first hit. *)
Lemma for_upto_search {E R : Type} (hi : Z) (ev : Z -> E) (hit : Z -> bool)
    (fin : list E -> R) (body : Z -> list E -> ctl (list E) R) :
  (forall i tr, body i tr =
     if hit i then Exit (fin (tr ++ [ev i])) else Next (tr ++ [ev i])) ->
  forall (n : nat) (i : Z) (tr : list E),
    n = Z.to_nat (hi + 1 - i) ->
    for_upto hi body i tr =
    match first_hit hit i n with
    | Some k => Exit (fin (tr ++ map ev (seqZ i (k - i + 1))))
    | None => Next (tr ++ map ev (seqZ i (Z.of_nat n)))
    end.
Proof.
  intros Hbody n. induction n as [|m IH]; intros i tr Hn.
  - rewrite for_upto_step. destruct (decide (i <= hi)); [lia|].
    simpl. rewrite app_nil_r. reflexivity.
  - rewrite for_upto_step. destruct (decide (i <= hi)); [|lia].
    rewrite Hbody. simpl. destruct (hit i) eqn:Hhit.
    + replace (i - i + 1) with 1 by lia. reflexivity.
    + rewrite (IH (i + 1) (tr ++ [ev i])) by lia.
      destruct (first_hit hit (i + 1) m) as [k|] eqn:Hf.
      * apply first_hit_Some in Hf as (Hk & _ & _).
        rewrite (seqZ_cons i (k - i + 1)) by lia.
        rewrite <- app_assoc. simpl.
        replace (Z.succ i) with (i + 1) by lia.
        replace (Z.pred (k - i + 1)) with (k - (i + 1) + 1) by lia.
        reflexivity.
      * rewrite (seqZ_cons i (Z.of_nat (S m))) by lia.
        rewrite <- app_assoc. simpl.
        replace (Z.succ i) with (i + 1) by lia.
        replace (Z.pred (Z.of_nat (S m))) with (Z.of_nat m) by lia.
        reflexivity.
Qed.

(** ** The password check, path by path *)

Section ProviderFacts.
Import Word CStr Totp CheckSpec.
Context {L : Libs}.

Lemma seqZ_to_nat (m n : Z) : seqZ m (Z.of_nat (Z.to_nat n)) = seqZ m n.
Proof. unfold seqZ. rewrite Nat2Z.id. reflexivity. Qed.

Lemma password_len_6 (password : string) :
  String.length password = 6%nat -> u32 (strlen password) = 6.
Proof. unfold strlen. intros ->. reflexivity. Qed.

Lemma password_len_8 (password : string) :
  String.length password = 8%nat -> u32 (strlen password) = 8.
Proof. unfold strlen. intros ->. reflexivity. Qed.

Lemma totp_loop r cfg fs user password (c : Z) (tr : list event) :
  let w := window_size cfg in
  let line := validating (get_timestamp r) c (candidate r cfg) in
  for_upto w
    (totp_body r (per_dir_config r) cfg fs user password (get_timestamp r) c)
    (- w) tr =
  match first_hit (fun k => candidate r cfg k =? c) (- w) (Z.to_nat (2 * w + 1)) with
  | Some k =>
      Exit (leave r fs user password (LogGranted user c)
              (tr ++ map line (seqZ (- w) (k + w + 1))))
  | None => Next (tr ++ map line (seqZ (- w) (2 * w + 1)))
  end.
Proof.
  intros w line.
  rewrite for_upto_search
    with (ev := line) (hit := fun k => candidate r cfg k =? c)
         (fin := leave r fs user password (LogGranted user c))
         (n := Z.to_nat (2 * w + 1)); [| | f_equal; lia].
  - destruct (first_hit _ _ _) as [k|].
    + replace (k - - w + 1) with (k + w + 1) by lia. reflexivity.
    + rewrite seqZ_to_nat. reflexivity.
  - intros i tr'. unfold totp_body, leave, line, validating, candidate.
    destruct (_ =? c); [|reflexivity].
    destruct (mark_code_invalid _ _ _ _ _) as [[[] fs'] e]; reflexivity.
Qed.

Lemma scratch_loop r cfg fs user password (c : Z) (tr : list event) :
  let n := scratch_codes_count cfg in
  let line := validating_scratch c (scratch_codes cfg) in
  for_upto (n - 1)
    (scratch_body r (per_dir_config r) cfg fs user password c) 0 tr =
  match first_hit (fun i => nth (Z.to_nat i) (scratch_codes cfg) 0 =? c)
          0 (Z.to_nat n) with
  | Some i =>
      Exit (leave r fs user password (LogGrantedScratch user c)
              (tr ++ map line (seqZ 0 (i + 1))))
  | None => Next (tr ++ map line (seqZ 0 n))
  end.
Proof.
  intros n line.
  rewrite for_upto_search
    with (ev := line)
         (hit := fun i => nth (Z.to_nat i) (scratch_codes cfg) 0 =? c)
         (fin := leave r fs user password (LogGrantedScratch user c))
         (n := Z.to_nat n); [| | f_equal; lia].
  - destruct (first_hit _ _ _) as [k|].
    + replace (k - 0 + 1) with (k + 1) by lia. reflexivity.
    + rewrite seqZ_to_nat. reflexivity.
  - intros i tr'. unfold scratch_body, leave, line, validating_scratch.
    destruct (_ =? c); [|reflexivity].
    destruct (mark_code_invalid _ _ _ _ _) as [[[] fs'] e]; reflexivity.
Qed.

(** The time-based path: six digits and a record that loads. *)
Lemma check_password_totp r fs user password cfg ev :
  first_bad apr_isalnum user = None ->
  u32 (strlen password) = 6 ->
  first_bad apr_isdigit password = None ->
  get_user_totp_config (token_files r) (per_dir_config r) user
    = (Loaded cfg, ev) ->
  let c := u32 (apr_atoi64 password) in
  let w := window_size cfg in
  let line := validating (get_timestamp r) c (candidate r cfg) in
  let pre := preamble r cfg user password ev in
  authn_totp_check_password r fs user password =
  match first_hit (fun k => candidate r cfg k =? c) (- w) (Z.to_nat (2 * w + 1)) with
  | Some k =>
      admission r fs user password (LogGranted user c)
        (pre ++ map line (seqZ (- w) (k + w + 1)))
  | None =>
      (Verdict AUTH_DENIED, fs,
       pre ++ map line (seqZ (- w) (2 * w + 1))
           ++ [EvLog (LogDenied user password)])
  end.
Proof.
  intros Huser Hlen Hdigits Hload c w line pre.
  unfold authn_totp_check_password.
  rewrite Huser, Hdigits, Hload, Hlen. cbn [Z.eqb Pos.eqb orb].
  rewrite totp_loop. fold c w line.
  destruct (first_hit _ _ _) as [k|].
  - unfold leave, admission, pre, preamble.
    destruct (mark_code_invalid _ _ _ _ _) as [[[] fs'] e]; simpl;
      rewrite <- ?app_assoc; reflexivity.
  - unfold pre, preamble. simpl. rewrite <- ?app_assoc. reflexivity.
Qed.

(** The scratch path: eight digits and a record that loads. *)
Lemma check_password_scratch r fs user password cfg ev :
  first_bad apr_isalnum user = None ->
  u32 (strlen password) = 8 ->
  first_bad apr_isdigit password = None ->
  get_user_totp_config (token_files r) (per_dir_config r) user
    = (Loaded cfg, ev) ->
  let c := u32 (apr_atoi64 password) in
  let n := scratch_codes_count cfg in
  let line := validating_scratch c (scratch_codes cfg) in
  let pre := preamble r cfg user password ev in
  authn_totp_check_password r fs user password =
  match first_hit (fun i => nth (Z.to_nat i) (scratch_codes cfg) 0 =? c)
          0 (Z.to_nat n) with
  | Some i =>
      admission r fs user password (LogGrantedScratch user c)
        (pre ++ map line (seqZ 0 (i + 1)))
  | None =>
      (Verdict AUTH_DENIED, fs,
       pre ++ map line (seqZ 0 n) ++ [EvLog (LogDenied user password)])
  end.
Proof.
  intros Huser Hlen Hdigits Hload c n line pre.
  unfold authn_totp_check_password.
  rewrite Huser, Hdigits, Hload, Hlen. cbn [Z.eqb Pos.eqb orb].
  rewrite scratch_loop. fold c n line.
  destruct (first_hit _ _ _) as [k|].
  - unfold leave, admission, pre, preamble.
    destruct (mark_code_invalid _ _ _ _ _) as [[[] fs'] e]; simpl;
      rewrite <- ?app_assoc; reflexivity.
  - unfold pre, preamble. simpl. rewrite <- ?app_assoc. reflexivity.
Qed.

(** *** The marker *)

Lemma mark_code_invalid_free r fs user password dir :
  stateDir (per_dir_config r) = Some dir ->
  create_error r (code_filepath dir user password) = false ->
  fs !! code_filepath dir user password = None ->
  mark_code_invalid r (per_dir_config r) fs user password =
  (true, <[code_filepath dir user password := []]> fs,
   [EvCreateFile (code_filepath dir user password)]).
Proof.
  intros Hdir Herr Hfree. unfold mark_code_invalid, create_exclusive.
  rewrite Hdir, Herr, Hfree. reflexivity.
Qed.

Lemma mark_code_invalid_taken r fs user password dir :
  stateDir (per_dir_config r) = Some dir ->
  is_Some (fs !! code_filepath dir user password) ->
  mark_code_invalid r (per_dir_config r) fs user password =
  (false, fs,
   [EvCreateFile (code_filepath dir user password);
    EvLog (LogCannotCreate (code_filepath dir user password))]).
Proof.
  intros Hdir [x Htaken]. unfold mark_code_invalid, create_exclusive.
  rewrite Hdir, Htaken. destruct (create_error _ _); reflexivity.
Qed.

Lemma mark_code_invalid_true r fs user password fs' e :
  mark_code_invalid r (per_dir_config r) fs user password = (true, fs', e) ->
  exists dir,
    stateDir (per_dir_config r) = Some dir
    /\ fs !! code_filepath dir user password = None
    /\ fs' = <[code_filepath dir user password := []]> fs.
Proof.
  unfold mark_code_invalid, create_exclusive.
  destruct (stateDir _) as [dir|]; [|discriminate].
  destruct (create_error _ _); [discriminate|].
  destruct (fs !! _) eqn:Hfs; [discriminate|].
  intros [= <- <-]. exists dir. auto.
Qed.

Lemma mark_code_invalid_false r fs user password fs' e :
  mark_code_invalid r (per_dir_config r) fs user password = (false, fs', e) ->
  fs' = fs.
Proof.
  unfold mark_code_invalid, create_exclusive.
  destruct (stateDir _) as [dir|]; [|congruence].
  destruct (create_error _ _); [congruence|].
  destruct (fs !! _); congruence.
Qed.

(** *** Every path of the password check *)

(** Either the state directory is left as it was and access is denied (or
    the loader ran into undefined behaviour), or access is granted and the
    marker of this user and password has just been created. *)
Lemma check_password_shape r fs user password :
  forall o fs' tr,
    authn_totp_check_password r fs user password = (o, fs', tr) ->
    (fs' = fs
     /\ (o = Verdict AUTH_DENIED
         \/ (o = Undef
             /\ fst (get_user_totp_config (token_files r) (per_dir_config r)
                       user) = LoadUndefined)))
    \/ (o = Verdict AUTH_GRANTED
        /\ exists e,
            mark_code_invalid r (per_dir_config r) fs user password
            = (true, fs', e)).
Proof.
  intros o fs' tr. unfold authn_totp_check_password.
  destruct (first_bad apr_isalnum user); [intros [= <- <- <-]; auto|].
  destruct (_ || _); [|intros [= <- <- <-]; auto].
  destruct (first_bad apr_isdigit password); [intros [= <- <- <-]; auto|].
  destruct (get_user_totp_config _ _ _) as [[cfg| |] ev]; simpl;
    [|intros [= <- <- <-]; auto..].
  destruct (_ =? 6).
  - rewrite totp_loop. destruct (first_hit _ _ _) as [k|];
      [|intros [= <- <- <-]; auto].
    unfold leave.
    destruct (mark_code_invalid _ _ _ _ _) as [[[] fs1] e] eqn:Hmark.
    + intros [= <- <- <-]. right. eauto.
    + intros [= <- <- <-]. left.
      rewrite (mark_code_invalid_false _ _ _ _ _ _ Hmark). auto.
  - rewrite scratch_loop. destruct (first_hit _ _ _) as [k|];
      [|intros [= <- <- <-]; auto].
    unfold leave.
    destruct (mark_code_invalid _ _ _ _ _) as [[[] fs1] e] eqn:Hmark.
    + intros [= <- <- <-]. right. eauto.
    + intros [= <- <- <-]. left.
      rewrite (mark_code_invalid_false _ _ _ _ _ _ Hmark). auto.
Qed.

(** A granted attempt leaves the marker of its user and password. *)
Lemma granted_leaves_marker r fs user password fs' tr :
  authn_totp_check_password r fs user password
    = (Verdict AUTH_GRANTED, fs', tr) ->
  exists dir,
    stateDir (per_dir_config r) = Some dir
    /\ fs !! code_filepath dir user password = None
    /\ fs' = <[code_filepath dir user password := []]> fs.
Proof.
  intros H. apply check_password_shape in H as [[_ [H|[H _]]]|[_ [e He]]];
    try discriminate.
  eapply mark_code_invalid_true; eassumption.
Qed.

(** With the marker in place the attempt is not granted. *)
Lemma marker_blocks r fs user password dir :
  stateDir (per_dir_config r) = Some dir ->
  is_Some (fs !! code_filepath dir user password) ->
  fst (get_user_totp_config (token_files r) (per_dir_config r) user)
    <> LoadUndefined ->
  fst (fst (authn_totp_check_password r fs user password))
    = Verdict AUTH_DENIED.
Proof.
  intros Hdir Htaken Hdef.
  destruct (authn_totp_check_password r fs user password) as [[o fs'] tr] eqn:H.
  apply check_password_shape in H as [[_ [H|[_ H]]]|[_ [e He]]]; simpl.
  - assumption.
  - contradiction.
  - rewrite (mark_code_invalid_taken _ _ _ _ _ Hdir Htaken) in He. discriminate.
Qed.

(** No call of the provider removes a file of the state directory. *)
Lemma serve_keeps (fs : files) (c : call) (path : string) :
  is_Some (fs !! path) -> is_Some (serve fs c !! path).
Proof.
  intros Hin. destruct c as [r user password|r user realm]; [|assumption].
  simpl.
  destruct (authn_totp_check_password r fs user password) as [[o fs'] tr] eqn:H.
  simpl. apply check_password_shape in H as [[-> _]|[_ [e He]]]; [assumption|].
  apply mark_code_invalid_true in He as (dir & _ & _ & ->).
  rewrite lookup_insert. case_decide; [eauto | assumption].
Qed.

Lemma serve_all_keeps (cs : list call) (fs : files) (path : string) :
  is_Some (fs !! path) -> is_Some (serve_all fs cs !! path).
Proof.
  revert fs. induction cs as [|c cs IH]; intros fs Hin; [assumption|].
  simpl. apply IH, serve_keeps, Hin.
Qed.

End ProviderFacts.

(** ** The window property *)

Section Window.
Import Word CStr Totp CheckSpec.
Context {L : Libs}.

(** The events that follow the scan do not examine a candidate. *)
Lemma admission_trace r fs user password granted tr :
  (forall T x y, granted <> LogValidating T x y) ->
  exists post,
    snd (admission r fs user password granted tr) = tr ++ post
    /\ forall e, e ∈ post -> forall T x y, e <> EvLog (LogValidating T x y).
Proof.
  intros Hg. unfold admission, mark_code_invalid.
  destruct (stateDir _) as [dir|]; [destruct (create_exclusive _ _ _)|];
    simpl; eexists; (split; [reflexivity|]);
    intros e He T x y ->;
    repeat (apply elem_of_cons in He as [He|He]);
    try discriminate He; try (apply elem_of_nil in He; contradiction);
    injection He as He; symmetry in He; exact (Hg _ _ _ He).
Qed.

End Window.

(** C1.  For a valid user name whose record loads with secret [s] and
    window [w], and a presented code [c] of six digits: if [c] is the
    candidate of some offset in [[-w, w]] and the marker can be created
    (state directory configured, no marker for this user and code yet, no
    other refusal), the verdict is Granted; if no offset of the window gives
    [c], the verdict is Denied after exactly the [2 w + 1] candidates of
    offsets [-w] to [w] in ascending order were examined; and when [k] is
    the first matching offset, the candidates examined are exactly those
    of offsets [-w] to [k], in ascending order, and nothing after them
    examines a candidate.  Offsets are added to the current time step
    modulo 2^64. *)
Theorem window_property {L : Totp.Libs} (r : Totp.request_rec)
    (fs : gmap string (list Z)) (user password : string)
    (cfg : Totp.totp_user_config) (ev : list Totp.event) :
  CStr.first_bad CStr.apr_isalnum user = None ->
  String.length password = 6%nat ->
  CStr.first_bad CStr.apr_isdigit password = None ->
  Totp.get_user_totp_config (Totp.token_files r) (Totp.per_dir_config r) user
    = (Totp.Loaded cfg, ev) ->
  let c := Word.u32 (CStr.apr_atoi64 password) in
  let w := Totp.window_size cfg in
  let cand := CheckSpec.candidate r cfg in
  let line := CheckSpec.validating (Totp.get_timestamp r) c cand in
  let pre := CheckSpec.preamble r cfg user password ev in
  let result := Totp.authn_totp_check_password r fs user password in
  (forall dir,
      (exists k, - w <= k <= w /\ cand k = c) ->
      Totp.stateDir (Totp.per_dir_config r) = Some dir ->
      Totp.create_error r (Totp.code_filepath dir user password) = false ->
      fs !! Totp.code_filepath dir user password = None ->
      fst (fst result) = Totp.Verdict Totp.AUTH_GRANTED)
  /\ ((forall k, - w <= k <= w -> cand k <> c) ->
      fst (fst result) = Totp.Verdict Totp.AUTH_DENIED
      /\ snd result
         = pre ++ map line (seqZ (- w) (2 * w + 1))
               ++ [Totp.EvLog (Totp.LogDenied user password)])
  /\ (forall k,
        - w <= k <= w -> cand k = c ->
        (forall j, - w <= j < k -> cand j <> c) ->
        exists post,
          snd result = pre ++ map line (seqZ (- w) (k + w + 1)) ++ post
          /\ forall e, e ∈ post -> forall T x y,
               e <> Totp.EvLog (Totp.LogValidating T x y)).
Proof.
  intros Huser Hlen Hdigits Hload c w cand line pre result.
  pose proof (check_password_totp r fs user password cfg ev Huser
                (password_len_6 _ Hlen) Hdigits Hload) as Hpath.
  cbv zeta in Hpath. fold c w cand line pre in Hpath.
  subst result.
  split; [|split].
  - intros dir (k & Hk & Hhit) Hdir Herr Hfree.
    destruct (first_hit_exists (fun k => cand k =? c) (- w)
                (Z.to_nat (2 * w + 1)) k) as (k0 & Hf & _);
      [lia | apply Z.eqb_eq, Hhit |].
    fold cand in Hpath. rewrite Hf in Hpath. rewrite Hpath.
    unfold CheckSpec.admission.
    rewrite (mark_code_invalid_free _ _ _ _ _ Hdir Herr Hfree). reflexivity.
  - intros Hnone.
    assert (Hf : first_hit (fun k => cand k =? c) (- w) (Z.to_nat (2 * w + 1))
                 = None).
    { destruct (first_hit _ _ _) as [k|] eqn:Hf; [|reflexivity].
      apply first_hit_Some in Hf as (Hk & Hhit & _).
      apply Z.eqb_eq in Hhit. exfalso. apply (Hnone k); [lia | assumption]. }
    fold cand in Hpath. rewrite Hf in Hpath. rewrite Hpath. split; reflexivity.
  - intros k Hk Hhit Hbefore.
    assert (Hf : first_hit (fun k => cand k =? c) (- w) (Z.to_nat (2 * w + 1))
                 = Some k).
    { apply first_hit_least; [lia | apply Z.eqb_eq, Hhit |].
      intros j Hj. apply Z.eqb_neq, Hbefore, Hj. }
    fold cand in Hpath. rewrite Hf in Hpath. rewrite Hpath.
    destruct (admission_trace r fs user password (Totp.LogGranted user c)
                (pre ++ map line (seqZ (- w) (k + w + 1))))
      as (post & -> & Hpost); [discriminate|].
    exists post. split; [rewrite <- app_assoc; reflexivity | exact Hpost].
Qed.

Lemma window_property_witness :
  fst (fst (@Totp.authn_totp_check_password Demo.libs (Demo.request 59) ∅
              "alice" "287082"))
  = Totp.Verdict Totp.AUTH_GRANTED.
Proof.
  destruct (@window_property Demo.libs (Demo.request 59) ∅ "alice" "287082"
              Demo.alice_config Demo.alice_events)
    as (Hgranted & _).
  - reflexivity.
  - reflexivity.
  - reflexivity.
  - vm_compute. reflexivity.
  - apply (Hgranted "/state"%string).
    + exists 0. split; [vm_compute; intuition discriminate | vm_compute; reflexivity].
    + reflexivity.
    + reflexivity.
    + apply lookup_empty.
Defined.

(** ** Reuse *)

(** C2.  Once a code was presented and the attempt Granted, presenting
    the same code for the same user again is Denied, whatever happened in
    between and however long ago, for a user whose record sets
    [DISALLOW_REUSE] (the state directory being the same); and an attempt
    whose marker cannot be created is Denied, whether or not the code
    matches. *)
Theorem reuse_property {L : Totp.Libs} (r1 r2 : Totp.request_rec)
    (fs0 fs1 : gmap string (list Z)) (tr1 : list Totp.event)
    (user password : string) (between : list Totp.call)
    (cfg : Totp.totp_user_config) (ev : list Totp.event) :
  Totp.authn_totp_check_password r1 fs0 user password
    = (Totp.Verdict Totp.AUTH_GRANTED, fs1, tr1) ->
  Totp.stateDir (Totp.per_dir_config r2)
    = Totp.stateDir (Totp.per_dir_config r1) ->
  Totp.get_user_totp_config (Totp.token_files r2) (Totp.per_dir_config r2) user
    = (Totp.Loaded cfg, ev) ->
  Totp.disallow_reuse cfg = true ->
  fst (fst (Totp.authn_totp_check_password r2 (Totp.serve_all fs1 between)
              user password))
    = Totp.Verdict Totp.AUTH_DENIED
  /\ (forall fs,
        fst (fst (Totp.mark_code_invalid r2 (Totp.per_dir_config r2) fs
                    user password)) = false ->
        fst (fst (Totp.authn_totp_check_password r2 fs user password))
        = Totp.Verdict Totp.AUTH_DENIED).
Proof.
  intros Hgranted Hdir Hload _.
  assert (Hdef : fst (Totp.get_user_totp_config (Totp.token_files r2)
                        (Totp.per_dir_config r2) user) <> Totp.LoadUndefined)
    by (rewrite Hload; discriminate).
  split.
  - apply granted_leaves_marker in Hgranted as (dir & Hdir1 & _ & ->).
    apply (marker_blocks r2 _ user password dir); [congruence | | exact Hdef].
    apply serve_all_keeps. rewrite lookup_insert_eq. eauto.
  - intros fs Hmark.
    destruct (Totp.authn_totp_check_password r2 fs user password)
      as [[o fs'] tr] eqn:H.
    apply check_password_shape in H as [[_ [H|[_ H]]]|[_ [e He]]]; simpl.
    + assumption.
    + contradiction.
    + rewrite He in Hmark. discriminate.
Qed.

Lemma reuse_property_witness :
  fst (fst (@Totp.authn_totp_check_password Demo.libs (Demo.request 61)
              (@Totp.serve_all Demo.libs
                 (<["/state/alice-c287082"%string := []]> ∅)
                 [@Totp.GetRealmHash (Demo.request 60) "alice" "realm"])
              "alice" "287082"))
  = Totp.Verdict Totp.AUTH_DENIED.
Proof.
  refine (proj1 (@reuse_property Demo.libs (Demo.request 59) (Demo.request 61)
                   ∅ _ _ "alice" "287082" _ Demo.alice_config
                   Demo.alice_events _ _ _ _)).
  - vm_compute. reflexivity.
  - reflexivity.
  - vm_compute. reflexivity.
  - vm_compute. reflexivity.
Defined.

(** ** What the verdict depends on *)

Section PolicyBlind.
Import Word CStr Totp CheckSpec.
Context {L : Libs}.

Lemma first_hit_ext (hit hit' : Z -> bool) lo n :
  (forall k, hit k = hit' k) -> first_hit hit lo n = first_hit hit' lo n.
Proof.
  intros Hext. revert lo. induction n as [|m IH]; intros lo; simpl;
    [reflexivity|].
  rewrite Hext, IH. reflexivity.
Qed.

(** The verdict and the state directory depend on the record through the
    secret, the window and the scratch codes only. *)
Lemma check_password_agree r store' fs user password cfg ev cfg' ev' :
  get_user_totp_config (token_files r) (per_dir_config r) user
    = (Loaded cfg, ev) ->
  get_user_totp_config store' (per_dir_config r) user = (Loaded cfg', ev') ->
  shared_key cfg' = shared_key cfg ->
  window_size cfg' = window_size cfg ->
  scratch_codes cfg' = scratch_codes cfg ->
  scratch_codes_count cfg' = scratch_codes_count cfg ->
  fst (authn_totp_check_password (with_store r store') fs user password)
  = fst (authn_totp_check_password r fs user password).
Proof.
  intros Hload Hload' Hkey Hw Hcodes Hcount.
  unfold authn_totp_check_password.
  change (per_dir_config (with_store r store')) with (per_dir_config r).
  change (token_files (with_store r store')) with store'.
  change (get_timestamp (with_store r store')) with (get_timestamp r).
  destruct (first_bad apr_isalnum user); [reflexivity|].
  destruct (_ || _); [|reflexivity].
  destruct (first_bad apr_isdigit password); [reflexivity|].
  rewrite Hload, Hload'.
  assert (Hleave : forall g tr,
    leave (with_store r store') fs user password g tr
    = leave r fs user password g tr) by reflexivity.
  destruct (_ =? 6).
  - pose proof (totp_loop (with_store r store') cfg' fs user password) as Hl'.
    change (per_dir_config (with_store r store')) with (per_dir_config r) in Hl'.
    change (get_timestamp (with_store r store')) with (get_timestamp r) in Hl'.
    cbv zeta in Hl'. rewrite Hl', totp_loop, Hw.
    rewrite (first_hit_ext (fun k => candidate (with_store r store') cfg' k =? _)
               (fun k => candidate r cfg k =? u32 (apr_atoi64 password)))
      by (intros k; unfold candidate, key_bytes; rewrite Hkey; reflexivity).
    destruct (first_hit _ _ _) as [k|]; [|reflexivity].
    rewrite Hleave. unfold leave.
    destruct (mark_code_invalid _ _ _ _ _) as [[[] fs'] e]; reflexivity.
  - pose proof (scratch_loop (with_store r store') cfg' fs user password) as Hl'.
    change (per_dir_config (with_store r store')) with (per_dir_config r) in Hl'.
    cbv zeta in Hl'. rewrite Hl', scratch_loop, Hcount, Hcodes.
    destruct (first_hit _ _ _) as [k|]; [|reflexivity].
    rewrite Hleave. unfold leave.
    destruct (mark_code_invalid _ _ _ _ _) as [[[] fs'] e]; reflexivity.
Qed.

End PolicyBlind.

(** ** One-time admission *)

Section FirstMatch.
Import Word CStr Totp CheckSpec.
Context {L : Libs}.

(** The three ways in which the marker of a matched code ends. *)
Lemma admission_created r fs user password dir granted tr :
  stateDir (per_dir_config r) = Some dir ->
  create_error r (code_filepath dir user password) = false ->
  fs !! code_filepath dir user password = None ->
  admission r fs user password granted tr
  = (Verdict AUTH_GRANTED, <[code_filepath dir user password := []]> fs,
     tr ++ [EvCreateFile (code_filepath dir user password); EvLog granted]).
Proof.
  intros Hdir Herr Hfree. unfold admission.
  rewrite (mark_code_invalid_free r fs user password dir Hdir Herr Hfree).
  reflexivity.
Qed.

Lemma admission_refused r fs user password dir granted tr :
  stateDir (per_dir_config r) = Some dir ->
  create_error r (code_filepath dir user password) = true ->
  admission r fs user password granted tr
  = (Verdict AUTH_DENIED, fs,
     tr ++ [EvCreateFile (code_filepath dir user password);
            EvLog (LogCannotCreate (code_filepath dir user password));
            EvLog (LogDenied user password)]).
Proof.
  intros Hdir Herr. unfold admission, mark_code_invalid, create_exclusive.
  rewrite Hdir, Herr. reflexivity.
Qed.

Lemma admission_no_state_dir r fs user password granted tr :
  stateDir (per_dir_config r) = None ->
  admission r fs user password granted tr
  = (Verdict AUTH_DENIED, fs,
     tr ++ [EvLog LogStateDirUndefined; EvLog (LogDenied user password)]).
Proof.
  intros Hdir. unfold admission, mark_code_invalid. rewrite Hdir. reflexivity.
Qed.

(** The attempt whose first match is at window offset [k]. *)
Lemma totp_first_match r fs user password cfg ev k :
  first_bad apr_isalnum user = None ->
  String.length password = 6%nat ->
  first_bad apr_isdigit password = None ->
  get_user_totp_config (token_files r) (per_dir_config r) user
    = (Loaded cfg, ev) ->
  let c := u32 (apr_atoi64 password) in
  - window_size cfg <= k <= window_size cfg ->
  candidate r cfg k = c ->
  (forall j, - window_size cfg <= j < k -> candidate r cfg j <> c) ->
  authn_totp_check_password r fs user password
  = admission r fs user password (LogGranted user c)
      (preamble r cfg user password ev
       ++ map (validating (get_timestamp r) c (candidate r cfg))
              (seqZ (- window_size cfg) (k + window_size cfg + 1))).
Proof.
  intros Huser Hlen Hdigits Hload c Hk Hhit Hbefore.
  rewrite (check_password_totp r fs user password cfg ev Huser
             (password_len_6 _ Hlen) Hdigits Hload).
  fold c. rewrite (first_hit_least _ _ _ k);
    [reflexivity | lia | apply Z.eqb_eq, Hhit
     | intros j Hj; apply Z.eqb_neq, Hbefore, Hj].
Qed.

(** The attempt whose first match is the scratch code at index [i]. *)
Lemma scratch_first_match r fs user password cfg ev i :
  first_bad apr_isalnum user = None ->
  String.length password = 8%nat ->
  first_bad apr_isdigit password = None ->
  get_user_totp_config (token_files r) (per_dir_config r) user
    = (Loaded cfg, ev) ->
  let c := u32 (apr_atoi64 password) in
  0 <= i < scratch_codes_count cfg ->
  nth (Z.to_nat i) (scratch_codes cfg) 0 = c ->
  (forall j, 0 <= j < i -> nth (Z.to_nat j) (scratch_codes cfg) 0 <> c) ->
  authn_totp_check_password r fs user password
  = admission r fs user password (LogGrantedScratch user c)
      (preamble r cfg user password ev
       ++ map (validating_scratch c (scratch_codes cfg)) (seqZ 0 (i + 1))).
Proof.
  intros Huser Hlen Hdigits Hload c Hi Hhit Hbefore.
  rewrite (check_password_scratch r fs user password cfg ev Huser
             (password_len_8 _ Hlen) Hdigits Hload).
  fold c. rewrite (first_hit_least _ _ _ i);
    [reflexivity | lia | apply Z.eqb_eq, Hhit
     | intros j Hj; apply Z.eqb_neq, Hbefore, Hj].
Qed.

End FirstMatch.

(** C10.  The marker of a matched code does not depend on the
    [DISALLOW_REUSE] flag: two records that differ in the flag only give the
    same verdict and leave the same state directory.  For every user, a
    code that was Granted once is Denied whenever the same user presents it
    again (same state directory, the loader returning).  And when the first
    match of the scan finds its marker in place, the scan ends there: the
    events of the attempt are those of the candidates up to the first
    match, one refused creation of the marker, and the denial; no later
    window offset and no later scratch code is compared.

    The marker itself, on both paths and whatever the flag of the record:
    at the first match the attempt tries the exclusive creation of the
    file of its user and password.  When the file is absent and the system
    does not refuse, the attempt is Granted, the state directory has that
    one file in addition, empty, and the events are those of the
    candidates up to the match, the creation, and the grant.  When the
    system refuses the creation the attempt is Denied with the state
    directory as it was, and so it is, without any creation tried, when no
    state directory is configured; in both cases the scan ends at the
    match. *)
Theorem one_time_admission {L : Totp.Libs} (r : Totp.request_rec)
    (store' : Totp.token_store) (fs : gmap string (list Z))
    (user password : string) (cfg cfg' : Totp.totp_user_config)
    (ev ev' : list Totp.event) (flag : bool) :
  Totp.get_user_totp_config (Totp.token_files r) (Totp.per_dir_config r) user
    = (Totp.Loaded cfg, ev) ->
  Totp.get_user_totp_config store' (Totp.per_dir_config r) user
    = (Totp.Loaded cfg', ev') ->
  cfg' = Totp.set_disallow_reuse cfg flag ->
  let c := Word.u32 (CStr.apr_atoi64 password) in
  let pre := CheckSpec.preamble r cfg user password ev in
  let refused dir :=
    [Totp.EvCreateFile (Totp.code_filepath dir user password);
     Totp.EvLog (Totp.LogCannotCreate (Totp.code_filepath dir user password));
     Totp.EvLog (Totp.LogDenied user password)] in
  let no_state_dir :=
    [Totp.EvLog Totp.LogStateDirUndefined;
     Totp.EvLog (Totp.LogDenied user password)] in
  let outcomes (scan : list Totp.event) (granted : Totp.log_msg) :=
    (forall dir,
        Totp.stateDir (Totp.per_dir_config r) = Some dir ->
        Totp.create_error r (Totp.code_filepath dir user password) = false ->
        fs !! Totp.code_filepath dir user password = None ->
        Totp.authn_totp_check_password r fs user password
        = (Totp.Verdict Totp.AUTH_GRANTED,
           <[Totp.code_filepath dir user password := []]> fs,
           scan ++ [Totp.EvCreateFile (Totp.code_filepath dir user password);
                    Totp.EvLog granted]))
    /\ (forall dir,
          Totp.stateDir (Totp.per_dir_config r) = Some dir ->
          Totp.create_error r (Totp.code_filepath dir user password) = true ->
          Totp.authn_totp_check_password r fs user password
          = (Totp.Verdict Totp.AUTH_DENIED, fs, scan ++ refused dir))
    /\ (Totp.stateDir (Totp.per_dir_config r) = None ->
        Totp.authn_totp_check_password r fs user password
        = (Totp.Verdict Totp.AUTH_DENIED, fs, scan ++ no_state_dir)) in
  fst (Totp.authn_totp_check_password (Totp.with_store r store') fs
         user password)
  = fst (Totp.authn_totp_check_password r fs user password)
  /\ (forall r1 fs0 fs1 tr1 between,
        Totp.authn_totp_check_password r1 fs0 user password
          = (Totp.Verdict Totp.AUTH_GRANTED, fs1, tr1) ->
        Totp.stateDir (Totp.per_dir_config r)
          = Totp.stateDir (Totp.per_dir_config r1) ->
        fst (fst (Totp.authn_totp_check_password r
                    (Totp.serve_all fs1 between) user password))
        = Totp.Verdict Totp.AUTH_DENIED)
  /\ (forall dir k,
        CStr.first_bad CStr.apr_isalnum user = None ->
        String.length password = 6%nat ->
        CStr.first_bad CStr.apr_isdigit password = None ->
        Totp.stateDir (Totp.per_dir_config r) = Some dir ->
        is_Some (fs !! Totp.code_filepath dir user password) ->
        - Totp.window_size cfg <= k <= Totp.window_size cfg ->
        CheckSpec.candidate r cfg k = c ->
        (forall j, - Totp.window_size cfg <= j < k ->
                   CheckSpec.candidate r cfg j <> c) ->
        Totp.authn_totp_check_password r fs user password
        = (Totp.Verdict Totp.AUTH_DENIED, fs,
           pre ++ map (CheckSpec.validating (Totp.get_timestamp r) c
                         (CheckSpec.candidate r cfg))
                      (seqZ (- Totp.window_size cfg)
                         (k + Totp.window_size cfg + 1))
               ++ refused dir))
  /\ (forall dir i,
        CStr.first_bad CStr.apr_isalnum user = None ->
        String.length password = 8%nat ->
        CStr.first_bad CStr.apr_isdigit password = None ->
        Totp.stateDir (Totp.per_dir_config r) = Some dir ->
        is_Some (fs !! Totp.code_filepath dir user password) ->
        0 <= i < Totp.scratch_codes_count cfg ->
        nth (Z.to_nat i) (Totp.scratch_codes cfg) 0 = c ->
        (forall j, 0 <= j < i ->
                   nth (Z.to_nat j) (Totp.scratch_codes cfg) 0 <> c) ->
        Totp.authn_totp_check_password r fs user password
        = (Totp.Verdict Totp.AUTH_DENIED, fs,
           pre ++ map (CheckSpec.validating_scratch c (Totp.scratch_codes cfg))
                      (seqZ 0 (i + 1))
               ++ refused dir))
  /\ (forall k,
        CStr.first_bad CStr.apr_isalnum user = None ->
        String.length password = 6%nat ->
        CStr.first_bad CStr.apr_isdigit password = None ->
        - Totp.window_size cfg <= k <= Totp.window_size cfg ->
        CheckSpec.candidate r cfg k = c ->
        (forall j, - Totp.window_size cfg <= j < k ->
                   CheckSpec.candidate r cfg j <> c) ->
        outcomes
          (pre ++ map (CheckSpec.validating (Totp.get_timestamp r) c
                         (CheckSpec.candidate r cfg))
                      (seqZ (- Totp.window_size cfg)
                         (k + Totp.window_size cfg + 1)))
          (Totp.LogGranted user c))
  /\ (forall i,
        CStr.first_bad CStr.apr_isalnum user = None ->
        String.length password = 8%nat ->
        CStr.first_bad CStr.apr_isdigit password = None ->
        0 <= i < Totp.scratch_codes_count cfg ->
        nth (Z.to_nat i) (Totp.scratch_codes cfg) 0 = c ->
        (forall j, 0 <= j < i ->
                   nth (Z.to_nat j) (Totp.scratch_codes cfg) 0 <> c) ->
        outcomes
          (pre ++ map (CheckSpec.validating_scratch c (Totp.scratch_codes cfg))
                      (seqZ 0 (i + 1)))
          (Totp.LogGrantedScratch user c)).
Proof.
  intros Hload Hload' -> c pre refused no_state_dir outcomes.
  assert (Hdef : fst (Totp.get_user_totp_config (Totp.token_files r)
                        (Totp.per_dir_config r) user) <> Totp.LoadUndefined)
    by (rewrite Hload; discriminate).
  assert (Hout : forall scan granted,
            Totp.authn_totp_check_password r fs user password
            = CheckSpec.admission r fs user password granted scan ->
            outcomes scan granted).
  { intros scan granted Hadm. unfold outcomes. rewrite Hadm.
    split; [|split].
    - intros dir Hdir Herr Hfree. apply admission_created; assumption.
    - intros dir Hdir Herr. apply admission_refused; assumption.
    - intros Hdir. apply admission_no_state_dir; assumption. }
  split; [|split; [|split; [|split; [|split]]]].
  - eapply check_password_agree; eauto.
  - intros r1 fs0 fs1 tr1 between Hgranted Hdir.
    apply granted_leaves_marker in Hgranted as (dir & Hdir1 & _ & ->).
    apply (marker_blocks r _ user password dir); [congruence | | exact Hdef].
    apply serve_all_keeps. rewrite lookup_insert_eq. eauto.
  - intros dir k Huser Hlen Hdigits Hdir Htaken Hk Hhit Hbefore.
    rewrite (totp_first_match r fs user password cfg ev k Huser Hlen Hdigits
               Hload Hk Hhit Hbefore).
    fold c pre. unfold CheckSpec.admission.
    rewrite (mark_code_invalid_taken _ _ _ _ _ Hdir Htaken).
    rewrite <- app_assoc. reflexivity.
  - intros dir i Huser Hlen Hdigits Hdir Htaken Hi Hhit Hbefore.
    rewrite (scratch_first_match r fs user password cfg ev i Huser Hlen
               Hdigits Hload Hi Hhit Hbefore).
    fold c pre. unfold CheckSpec.admission.
    rewrite (mark_code_invalid_taken _ _ _ _ _ Hdir Htaken).
    rewrite <- app_assoc. reflexivity.
  - intros k Huser Hlen Hdigits Hk Hhit Hbefore. apply Hout.
    exact (totp_first_match r fs user password cfg ev k Huser Hlen Hdigits
             Hload Hk Hhit Hbefore).
  - intros i Huser Hlen Hdigits Hi Hhit Hbefore. apply Hout.
    exact (scratch_first_match r fs user password cfg ev i Huser Hlen
             Hdigits Hload Hi Hhit Hbefore).
Qed.

Lemma one_time_admission_witness :
  fst (@Totp.authn_totp_check_password Demo.libs
         (Totp.with_store (Demo.request 59) Demo.plain_store)
         ∅ "alice" "287082")
  = (Totp.Verdict Totp.AUTH_GRANTED,
     <[ "/state/alice-c287082"%string := [] ]> ∅).
Proof.
  refine (f_equal fst
            (proj1 (proj1 (proj2 (proj2 (proj2 (proj2
               (@one_time_admission Demo.libs
                  (Totp.with_store (Demo.request 59) Demo.plain_store)
                  Demo.reuse_store ∅ "alice" "287082"
                  (Demo.config_of Demo.plain_store)
                  (Demo.config_of Demo.reuse_store)
                  (Demo.events_of Demo.plain_store)
                  (Demo.events_of Demo.reuse_store)
                  true _ _ _))))) 0 _ _ _ _ _ _)
               "/state" _ _ _)).
  - vm_compute. reflexivity.
  - vm_compute. reflexivity.
  - vm_compute. reflexivity.
  - reflexivity.
  - reflexivity.
  - reflexivity.
  - change (Totp.window_size (Demo.config_of Demo.plain_store)) with 1. lia.
  - vm_compute. reflexivity.
  - change (Totp.window_size (Demo.config_of Demo.plain_store)) with 1.
    intros j Hj. assert (j = -1) as -> by lia. vm_compute. discriminate.
  - reflexivity.
  - reflexivity.
  - reflexivity.
Defined.

(** ** Rate limiting *)

(** C3, as the code has it.  The rate limit of a record is loaded and not
    enforced: two records that differ in [rate_limit_count] and
    [rate_limit_seconds] only give the same verdict and leave the same
    state directory, at any time and after any number of attempts. *)
Theorem rate_limit_not_enforced {L : Totp.Libs} (r : Totp.request_rec)
    (store' : Totp.token_store) (fs : gmap string (list Z))
    (user password : string) (cfg cfg' : Totp.totp_user_config)
    (ev ev' : list Totp.event) (count seconds : Z) :
  Totp.get_user_totp_config (Totp.token_files r) (Totp.per_dir_config r) user
    = (Totp.Loaded cfg, ev) ->
  Totp.get_user_totp_config store' (Totp.per_dir_config r) user
    = (Totp.Loaded cfg', ev') ->
  cfg' = Totp.set_rate_limit_seconds (Totp.set_rate_limit_count cfg count)
           seconds ->
  fst (Totp.authn_totp_check_password (Totp.with_store r store') fs
         user password)
  = fst (Totp.authn_totp_check_password r fs user password).
Proof.
  intros Hload Hload' ->. eapply check_password_agree; eauto.
Qed.

Lemma rate_limit_not_enforced_witness :
  fst (@Totp.authn_totp_check_password Demo.libs
         (Totp.with_store (Totp.with_store (Demo.request 59) Demo.reuse_store)
            Demo.store)
         ∅ "alice" "287082")
  = fst (@Totp.authn_totp_check_password Demo.libs
           (Totp.with_store (Demo.request 59) Demo.reuse_store)
           ∅ "alice" "287082").
Proof.
  refine (@rate_limit_not_enforced Demo.libs
            (Totp.with_store (Demo.request 59) Demo.reuse_store)
            Demo.store ∅ "alice" "287082"
            (Demo.config_of Demo.reuse_store) Demo.alice_config
            (Demo.events_of Demo.reuse_store) Demo.alice_events
            1 30 _ _ _).
  - vm_compute. reflexivity.
  - vm_compute. reflexivity.
  - vm_compute. reflexivity.
Defined.

(** C3, as the specification states it, fails: the record of alice has
    [RATE_LIMIT 1 30], so that a second attempt within 30 seconds would be
    the one to deny; presenting her two scratch codes one second apart,
    both attempts are Granted. *)
Lemma rate_limit_counterexample :
  Totp.rate_limit_count Demo.alice_config = 1
  /\ Totp.rate_limit_seconds Demo.alice_config = 30
  /\ exists fs1 tr1 fs2 tr2,
      @Totp.authn_totp_check_password Demo.libs (Demo.request 100) ∅
        "alice" "11112222" = (Totp.Verdict Totp.AUTH_GRANTED, fs1, tr1)
      /\ @Totp.authn_totp_check_password Demo.libs (Demo.request 101) fs1
           "alice" "33334444" = (Totp.Verdict Totp.AUTH_GRANTED, fs2, tr2)
      /\ Totp.Verdict Totp.AUTH_GRANTED <> Totp.Verdict Totp.AUTH_DENIED.
Proof.
  split; [vm_compute; reflexivity|]. split; [vm_compute; reflexivity|].
  do 4 eexists. split; [vm_compute; reflexivity|].
  split; [vm_compute; reflexivity | discriminate].
Qed.

(** ** The format of the presented password *)

(** An event is not among the events of an explicit list of others. *)
Ltac absent_event Hin :=
  simpl in Hin;
  repeat (apply elem_of_cons in Hin as [Hin|Hin]; [discriminate Hin|]);
  apply elem_of_nil in Hin; exact Hin.

(** C5.  A password that is not exactly 6 or exactly 8 characters long,
    or that has a character other than a digit, is Denied; the state
    directory is left as it is, no credential record is opened, and the
    result is the same whatever the token store holds.  The length is below
    2^32, as the host bounds the size of a request header. *)
Theorem format_property {L : Totp.Libs} (r : Totp.request_rec)
    (fs : gmap string (list Z)) (user password : string) :
  CStr.strlen password < 2 ^ 32 ->
  (String.length password <> 6%nat /\ String.length password <> 8%nat)
  \/ CStr.first_bad CStr.apr_isdigit password <> None ->
  fst (fst (Totp.authn_totp_check_password r fs user password))
    = Totp.Verdict Totp.AUTH_DENIED
  /\ snd (fst (Totp.authn_totp_check_password r fs user password)) = fs
  /\ (forall path,
        Totp.EvOpenConfig path
          ∉ snd (Totp.authn_totp_check_password r fs user password))
  /\ (forall store',
        Totp.authn_totp_check_password (Totp.with_store r store') fs
          user password
        = Totp.authn_totp_check_password r fs user password).
Proof.
  intros Hsize Hbad.
  assert (Hlen : Word.u32 (CStr.strlen password)
                 = Z.of_nat (String.length password)).
  { unfold Word.u32, Word.wrap, CStr.strlen in *. apply Z.mod_small. lia. }
  unfold Totp.authn_totp_check_password.
  change (Totp.get_timestamp (Totp.with_store r _)) with (Totp.get_timestamp r).
  rewrite Hlen.
  destruct (CStr.first_bad CStr.apr_isalnum user) as [c|].
  { repeat split; try reflexivity. intros path Hin. absent_event Hin. }
  destruct ((Z.of_nat (String.length password) =? 6)
            || (Z.of_nat (String.length password) =? 8)) eqn:Hsix.
  - destruct Hbad as [[H6 H8]|Hdigit].
    + apply orb_true_iff in Hsix as [H|H]; apply Z.eqb_eq in H; lia.
    + destruct (CStr.first_bad CStr.apr_isdigit password) as [c|];
        [|contradiction].
      repeat split; try reflexivity. intros path Hin. absent_event Hin.
  - repeat split; try reflexivity. intros path Hin. absent_event Hin.
Qed.

Lemma format_property_witness :
  fst (fst (@Totp.authn_totp_check_password Demo.libs (Demo.request 59) ∅
              "alice" "28708a"))
  = Totp.Verdict Totp.AUTH_DENIED.
Proof.
  refine (proj1 (@format_property Demo.libs (Demo.request 59) ∅
                   "alice" "28708a" _ _)).
  - reflexivity.
  - right. discriminate.
Defined.

(** ** The realm hash *)

Section RealmHash.
Import Word CStr Totp CheckSpec.
Context {L : Libs}.

Lemma candidate_now r cfg :
  candidate r cfg 0 = generate_totp_code (get_timestamp r) (key_bytes cfg).
Proof.
  unfold candidate, get_timestamp, u64, wrap.
  rewrite Z.add_0_r, Z.mod_mod by lia. reflexivity.
Qed.

(** The loader opens the record and writes to the log, nothing else. *)
Lemma loader_creates_nothing store conf user path :
  EvCreateFile path ∉ snd (get_user_totp_config store conf user).
Proof.
  unfold get_user_totp_config.
  destruct (tokenDir conf) as [dir|]; [|intros Hin; absent_event Hin].
  destruct (store _) as [lines|]; [|intros Hin; absent_event Hin].
  destruct (read_lines lines zero_config) as [res l]. simpl.
  intros Hin. apply elem_of_cons in Hin as [Hin|Hin]; [discriminate|].
  apply list_elem_of_fmap in Hin as (m & Hm & _). discriminate.
Qed.

End RealmHash.

(** C9.  The realm hash takes no presented secret.  When the record
    loads it answers UserFound with the hex encoding of the digest of
    "user:realm:code", where the code is the six-digit candidate of the
    current time step alone (offset 0, whatever the window of the record);
    it never tries to create a file in the state directory and leaves that
    directory as it is.  When the loader returns no record the realm hash
    answers UserNotFound, and the password check answers Denied. *)
Theorem realm_hash_property {L : Totp.Libs} (r : Totp.request_rec)
    (fs : gmap string (list Z)) (user realm password : string) :
  let loaded :=
    Totp.get_user_totp_config (Totp.token_files r) (Totp.per_dir_config r)
      user in
  (forall cfg ev,
      loaded = (Totp.Loaded cfg, ev) ->
      fst (Totp.authn_totp_get_realm_hash r user realm)
      = (Totp.Verdict Totp.AUTH_USER_FOUND,
         Some (Totp.hex_encode
                 (Totp.apr_md5
                    (CStr.bytes_of_string
                       (user +:+ ":" +:+ realm +:+ ":"
                        +:+ CStr.fmt_6_6u (CheckSpec.candidate r cfg 0))))
                 16)))
  /\ (forall path,
        Totp.EvCreateFile path
          ∉ snd (Totp.authn_totp_get_realm_hash r user realm))
  /\ Totp.serve fs (Totp.GetRealmHash r user realm) = fs
  /\ (forall ev,
        loaded = (Totp.LoadNull, ev) ->
        fst (Totp.authn_totp_get_realm_hash r user realm)
        = (Totp.Verdict Totp.AUTH_USER_NOT_FOUND, None)
        /\ fst (fst (Totp.authn_totp_check_password r fs user password))
           = Totp.Verdict Totp.AUTH_DENIED).
Proof.
  intros loaded. split; [|split; [|split]].
  - intros cfg ev Hload. unfold Totp.authn_totp_get_realm_hash.
    fold loaded. rewrite Hload, candidate_now. reflexivity.
  - intros path. unfold Totp.authn_totp_get_realm_hash.
    pose proof (loader_creates_nothing (Totp.token_files r)
                  (Totp.per_dir_config r) user path) as Hno.
    fold loaded in Hno |- *. destruct loaded as [[cfg| |] ev]; simpl in *;
      intros Hin; apply elem_of_cons in Hin as [Hin|Hin]; try discriminate;
      try (apply elem_of_app in Hin as [Hin|Hin]); try contradiction;
      absent_event Hin.
  - reflexivity.
  - intros ev Hload. split.
    + unfold Totp.authn_totp_get_realm_hash. fold loaded. rewrite Hload.
      reflexivity.
    + unfold Totp.authn_totp_check_password. fold loaded. rewrite Hload.
      destruct (CStr.first_bad CStr.apr_isalnum user); [reflexivity|].
      destruct (_ || _); [|reflexivity].
      destruct (CStr.first_bad CStr.apr_isdigit password); reflexivity.
Qed.

(** ** The credential loader *)

Section LoaderFacts.
Import Word CStr Totp LoaderSpec.
Context {L : Libs}.

Lemma scratch_lines_kept (kept : nat) (rest : list string) :
  fst (scratch_lines kept rest)
  = map scratch_value (firstn (10 - kept) (List.filter all_digits rest)).
Proof.
  revert kept. induction rest as [|line rest IH]; intros kept; simpl.
  - rewrite firstn_nil. reflexivity.
  - destruct (all_digits line); simpl.
    + destruct (Nat.ltb_spec kept 10) as [Hlt|Hge].
      * specialize (IH (S kept)). destruct (scratch_lines (S kept) rest).
        simpl in *. replace (10 - kept)%nat with (S (10 - S kept)) by lia.
        simpl. rewrite IH. reflexivity.
      * specialize (IH kept). destruct (scratch_lines kept rest).
        simpl in *. replace (10 - kept)%nat with 0%nat in * by lia.
        rewrite IH. reflexivity.
    + specialize (IH kept). destruct (scratch_lines kept rest). exact IH.
Qed.

Lemma all_digits_cons c rest :
  all_digits (String c rest) = apr_isdigit c && all_digits rest.
Proof. unfold all_digits. simpl. destruct (apr_isdigit c); reflexivity. Qed.

Lemma validate_digits_skipped f tmp token :
  skipped_of (snd (validate_digits f tmp token)) = []
  /\ omap warned_msg (snd (validate_digits f tmp token)) = [].
Proof.
  revert token. induction tmp as [|c rest IH]; intros token; simpl; [auto|].
  destruct (apr_isdigit c); [apply IH|].
  specialize (IH None). destruct (validate_digits f rest None). exact IH.
Qed.

Lemma validate_scratch_None line tmp :
  fst (validate_scratch line tmp None) = None.
Proof.
  induction tmp as [|c rest IH]; simpl; [reflexivity|].
  destruct (apr_isdigit c); [exact IH|].
  destruct (validate_scratch line rest None). exact IH.
Qed.

Lemma validate_scratch_result line tmp token :
  fst (validate_scratch line tmp (Some token))
  = (if all_digits tmp then Some token else None)
  /\ skipped_of (snd (validate_scratch line tmp (Some token))) = []
  /\ (all_digits tmp = true ->
      snd (validate_scratch line tmp (Some token)) = []).
Proof.
  assert (Hskip : forall tmp t, skipped_of (snd (validate_scratch line tmp t)) = []).
  { clear. induction tmp as [|c rest IH]; intros t; simpl; [reflexivity|].
    destruct (apr_isdigit c); [apply IH|].
    specialize (IH None). destruct (validate_scratch line rest None). exact IH. }
  split; [|split; [apply Hskip|]].
  - induction tmp as [|c rest IH]; simpl; [reflexivity|].
    rewrite all_digits_cons. destruct (apr_isdigit c); [exact IH|].
    pose proof (validate_scratch_None line rest) as Hn.
    destruct (validate_scratch line rest None). exact Hn.
  - induction tmp as [|c rest IH]; simpl; [reflexivity|].
    rewrite all_digits_cons. destruct (apr_isdigit c); [exact IH|discriminate].
Qed.

Lemma window_size_directive_keeps c line last c' l :
  window_size_directive c line last = (Continue c', l) ->
  same_codes c c' /\ omap skipped_msg l = [].
Proof.
  unfold window_size_directive.
  destruct (apr_strtok SEP last) as [[token rest]|]; [|discriminate].
  pose proof (validate_digits_skipped WindowSize token (Some token)) as [Hs _].
  destruct (validate_digits _ _ _) as [[t|] l0]; intros [= <- <-];
    simpl in *; unfold same_codes, skipped_of in *;
    rewrite ?omap_app, ?Hs; auto.
Qed.

Lemma rate_limit_directive_keeps c line last c' l :
  rate_limit_directive c line last = (Continue c', l) ->
  same_codes c c' /\ omap skipped_msg l = [].
Proof.
  unfold rate_limit_directive.
  destruct (apr_strtok SEP last) as [[token last1]|]; [|discriminate].
  pose proof (validate_digits_skipped RateLimitCount token (Some token))
    as [Hs1 _].
  destruct (validate_digits RateLimitCount _ _) as [[t|] l0];
    (destruct (apr_strtok SEP last1) as [[token2 rest]|]; [|discriminate]);
    pose proof (validate_digits_skipped RateLimitSeconds token2 (Some token2))
      as [Hs2 _];
    (destruct (validate_digits RateLimitSeconds _ _) as [[t2|] l2]);
    intros [= <- <-]; simpl in *; unfold same_codes, skipped_of in *;
    rewrite ?omap_app, ?Hs1, ?Hs2; auto.
Qed.

Lemma process_line_other : other_line process_line skipped_msg.
Proof.
  intros c line.
  destruct line as [|c0 rest]; simpl; [unfold same_codes; auto|].
  intros Hq. apply negb_false_iff in Hq. rewrite Hq.
  destruct rest as [|c1 body]; [reflexivity|].
  destruct (apr_strtok SEP body) as [[token last]|];
    [|unfold same_codes; auto].
  destruct (apr_strnatcmp_is0 token "DISALLOW_REUSE");
    [unfold same_codes; auto|].
  destruct (apr_strnatcmp_is0 token "WINDOW_SIZE").
  { destruct (window_size_directive c _ last) as [[c'| |] l] eqn:Hd.
    - eapply window_size_directive_keeps; eassumption.
    - unfold window_size_directive in Hd.
      destruct (apr_strtok SEP last) as [[? ?]|]; [|discriminate].
      destruct (validate_digits _ _ _) as [[?|] ?]; discriminate.
    - reflexivity. }
  destruct (apr_strnatcmp_is0 token "RATE_LIMIT"); [|unfold same_codes; auto].
  destruct (rate_limit_directive c _ last) as [[c'| |] l] eqn:Hd.
  - eapply rate_limit_directive_keeps; eassumption.
  - unfold rate_limit_directive in Hd.
    destruct (apr_strtok SEP last) as [[? last1]|]; [|discriminate].
    destruct (validate_digits RateLimitCount _ _) as [[?|] ?];
      (destruct (apr_strtok SEP last1) as [[? ?]|]; [|discriminate]);
      destruct (validate_digits RateLimitSeconds _ _) as [[?|] ?];
      discriminate.
  - reflexivity.
Qed.

Lemma process_line_secret :
  secret_line process_line (fun line => base32_decode line (strlen line)).
Proof.
  intros c line. destruct line as [|c0 rest]; simpl; [discriminate|].
  intros Hq Hkey. apply negb_true_iff in Hq. rewrite Hq, Hkey. reflexivity.
Qed.

Lemma process_line_scratch : scratch_line process_line skipped_msg.
Proof.
  intros c line key. destruct line as [|c0 rest]; [discriminate|].
  intros Hq Hkey. simpl in Hq. apply negb_true_iff in Hq.
  unfold process_line. rewrite Hq, Hkey.
  set (line := String c0 rest).
  pose proof (validate_scratch_result line line line) as (Hres & Hskip & _).
  destruct (validate_scratch line line (Some line)) as [tok l].
  simpl in Hres, Hskip. subst tok. unfold skipped_of in Hskip.
  destruct (all_digits line); simpl.
  - destruct (scratch_codes_count c <? 10).
    + exists l. auto.
    + exists (l ++ [LogScratchSkipped line]). split; [reflexivity|].
      rewrite omap_app, Hskip. reflexivity.
  - exists (l ++ [LogScratchSkipped line]). split; [reflexivity|].
    rewrite omap_app, Hskip. reflexivity.
Qed.

(** The same three facts for the loader of [utils.c]. *)
Lemma read_process_line_other : other_line Utils.read_process_line warned_msg.
Proof.
  intros c line.
  destruct line as [|c0 rest]; simpl; [unfold same_codes; auto|].
  intros Hq. apply negb_false_iff in Hq. rewrite Hq.
  destruct rest as [|c1 body]; [reflexivity|].
  destruct (apr_strtok SEP body) as [[token last]|];
    [|unfold same_codes; auto].
  destruct (apr_strnatcmp_is0 token "DISALLOW_REUSE");
    [unfold same_codes; auto|].
  destruct (apr_strnatcmp_is0 token "WINDOW_SIZE").
  { unfold Utils.read_window_size.
    destruct (apr_strtok SEP last) as [[tok ?]|]; [|reflexivity].
    destruct (Utils.is_digit_str tok); unfold same_codes; auto. }
  destruct (apr_strnatcmp_is0 token "RATE_LIMIT"); [|unfold same_codes; auto].
  unfold Utils.read_rate_limit.
  destruct (apr_strtok SEP last) as [[tok last1]|]; [|reflexivity].
  destruct (Utils.is_digit_str tok);
    (destruct (apr_strtok SEP last1) as [[tok2 ?]|]; [|reflexivity]);
    destruct (Utils.is_digit_str tok2); unfold same_codes; auto.
Qed.

Lemma read_process_line_secret :
  secret_line Utils.read_process_line apr_pdecode_base32.
Proof.
  intros c line. destruct line as [|c0 rest]; simpl; [discriminate|].
  intros Hq Hkey. apply negb_true_iff in Hq. rewrite Hq, Hkey. reflexivity.
Qed.

Lemma read_process_line_scratch : scratch_line Utils.read_process_line warned_msg.
Proof.
  intros c line key. destruct line as [|c0 rest]; [discriminate|].
  intros Hq Hkey. simpl in Hq. apply negb_true_iff in Hq.
  unfold Utils.read_process_line. rewrite Hq, Hkey.
  set (line := String c0 rest).
  unfold Utils.is_digit_str, all_digits.
  destruct (first_bad apr_isdigit line) as [err_char|]; simpl.
  - eexists. split; reflexivity.
  - destruct (scratch_codes_count c <? 10); eexists; split; reflexivity.
Qed.

Lemma kept_codes_push c v :
  well_formed c -> scratch_codes_count c < 10 ->
  well_formed (push_scratch_code c v)
  /\ kept_codes (push_scratch_code c v) = kept_codes c ++ [v].
Proof.
  intros [Hlen Hcount] Hlt. unfold well_formed, kept_codes, push_scratch_code.
  simpl. unfold u8, wrap. rewrite Z.mod_small by lia.
  rewrite length_insert. split; [split; [assumption | lia]|].
  replace (Z.to_nat (scratch_codes_count c + 1))
    with (S (Z.to_nat (scratch_codes_count c))) by lia.
  rewrite (take_S_r _ _ v) by (apply list_lookup_insert_eq; lia).
  rewrite take_insert_ge by lia. reflexivity.
Qed.

Lemma kept_codes_length c :
  well_formed c -> length (kept_codes c) = Z.to_nat (scratch_codes_count c).
Proof.
  intros [Hlen Hcount]. unfold kept_codes. rewrite length_firstn. lia.
Qed.

Lemma read_lines_loop lines c : read_lines lines c = read_loop process_line lines c.
Proof.
  revert c. induction lines as [|line rest IH]; intros c; simpl; [reflexivity|].
  destruct (process_line c line) as [[c'| |] l]; try reflexivity.
  rewrite IH. reflexivity.
Qed.

Lemma read_config_lines_loop lines c :
  Utils.read_config_lines lines c = read_loop Utils.read_process_line lines c.
Proof.
  revert c. induction lines as [|line rest IH]; intros c; simpl; [reflexivity|].
  destruct (Utils.read_process_line c line) as [[c'| |] l]; try reflexivity.
  rewrite IH. reflexivity.
Qed.

End LoaderFacts.

(** *** The loop over the lines, for a loader with the three facts *)

Section ReadLoop.
Import Word CStr Totp LoaderSpec.
Variable step : totp_user_config -> string -> step_result * list log_msg.
Variable decode : string -> option (list Z).
Variable warning : log_msg -> option string.
Hypothesis step_other : other_line step warning.
Hypothesis step_secret : secret_line step decode.
Hypothesis step_scratch : scratch_line step warning.

(** After the secret: the codes kept and the lines reported are those of
    the specification. *)
Lemma read_loop_scratch lines : forall c key res log,
  well_formed c -> shared_key c = Some key ->
  read_loop step lines c = (res, log) ->
  match res with
  | Loaded c' =>
      shared_key c' = Some key /\ well_formed c'
      /\ kept_codes c'
         = kept_codes c
           ++ fst (scratch_lines (length (kept_codes c)) (content_lines lines))
      /\ omap warning log
         = snd (scratch_lines (length (kept_codes c)) (content_lines lines))
  | LoadNull => False
  | LoadUndefined => exists line, line ∈ lines /\ is_directive line = true
  end.
Proof.
  induction lines as [|line rest IH]; intros c key res log Hwf Hkey.
  - simpl. intros [= <- <-]. rewrite app_nil_r. auto.
  - cbn [read_loop].
    change (content_lines (line :: rest))
      with (if is_content line then line :: content_lines rest
            else content_lines rest).
    destruct (is_content line) eqn:Hc.
    + destruct (step_scratch c line key Hc Hkey) as (l & -> & Hskip).
      set (c1 := if all_digits line && (scratch_codes_count c <? 10)
                 then push_scratch_code c (scratch_value line) else c) in *.
      destruct (read_loop step rest c1) as [res1 l1] eqn:Hrest.
      intros [= <- <-]. cbn [scratch_lines].
      assert (Hcond : (length (kept_codes c) <? 10)%nat
                      = (scratch_codes_count c <? 10)).
      { rewrite kept_codes_length by assumption. destruct Hwf as [_ Hcount].
        destruct (Z.ltb_spec (scratch_codes_count c) 10);
          destruct (Nat.ltb_spec (Z.to_nat (scratch_codes_count c)) 10);
          try reflexivity; lia. }
      rewrite Hcond.
      destruct (all_digits line && (scratch_codes_count c <? 10)) eqn:Hkeep.
      * apply andb_true_iff in Hkeep as [_ Hlt]. apply Z.ltb_lt in Hlt.
        destruct (kept_codes_push c (scratch_value line) Hwf Hlt)
          as [Hwf1 Hkept1].
        specialize (IH c1 key res1 l1 Hwf1 Hkey Hrest).
        destruct res1 as [c'| |]; [|assumption|].
        -- destruct IH as (Hk & Hw & Hcodes & Hs).
           unfold c1 in Hcodes, Hs. rewrite Hkept1 in Hcodes, Hs.
           rewrite length_app in Hcodes, Hs. simpl in Hcodes, Hs.
           replace (length (kept_codes c) + 1)%nat
             with (S (length (kept_codes c))) in Hcodes, Hs by lia.
           destruct (scratch_lines (S (length (kept_codes c)))
                       (content_lines rest)) as [codes skipped].
           simpl in *. rewrite <- app_assoc in Hcodes.
           rewrite omap_app, Hskip, Hs. auto.
        -- destruct IH as (x & Hx & Hd). exists x. split; [|assumption].
           apply elem_of_cons. auto.
      * specialize (IH c key res1 l1 Hwf Hkey Hrest).
        destruct res1 as [c'| |]; [|assumption|].
        -- destruct IH as (Hk & Hw & Hcodes & Hs).
           destruct (scratch_lines (length (kept_codes c))
                       (content_lines rest)) as [codes skipped].
           simpl in *. rewrite omap_app, Hskip, Hs. auto.
        -- destruct IH as (x & Hx & Hd). exists x. split; [|assumption].
           apply elem_of_cons. auto.
    + pose proof (step_other c line Hc) as Hother.
      destruct (step c line) as [[c1| |] l]; [|contradiction|].
      * destruct Hother as ((Hk1 & Hcodes1 & Hcount1) & Hskip).
        destruct (read_loop step rest c1) as [res1 l1] eqn:Hrest.
        intros [= <- <-].
        assert (Hwf1 : well_formed c1)
          by (unfold well_formed in *; rewrite Hcodes1, Hcount1; assumption).
        assert (Hkept : kept_codes c1 = kept_codes c)
          by (unfold kept_codes; rewrite Hcodes1, Hcount1; reflexivity).
        specialize (IH c1 key res1 l1 Hwf1 ltac:(congruence) Hrest).
        destruct res1 as [c'| |]; [|assumption|].
        -- rewrite Hkept in IH. destruct IH as (Hk & Hw & Hcodes & Hs).
           rewrite omap_app, Hskip, Hs. auto.
        -- destruct IH as (x & Hx & Hd). exists x. split; [|assumption].
           apply elem_of_cons. auto.
      * intros [= <- <-]. exists line. split; [apply elem_of_cons; auto|].
        assumption.
Qed.

(** The lines that the specification has skipped: every line after the
    secret that is not all digits, and every line of digits after the
    tenth. *)
Lemma scratch_lines_skipped (kept : nat) (rest : list string) (line : string) :
  (line ∈ rest /\ all_digits line = false)
  \/ line ∈ skipn (10 - kept) (List.filter all_digits rest) ->
  line ∈ snd (scratch_lines kept rest).
Proof.
  revert kept. induction rest as [|x rest IH]; intros kept.
  - simpl. rewrite skipn_nil. intros [[Hin _]|Hin]; apply elem_of_nil in Hin;
      contradiction.
  - cbn [scratch_lines List.filter]. intros H.
    destruct (all_digits x) eqn:Hx; simpl.
    + destruct (Nat.ltb_spec kept 10) as [Hlt|Hge].
      * specialize (IH (S kept)).
        destruct (scratch_lines (S kept) rest) as [codes skipped]. simpl in *.
        apply IH. destruct H as [[Hin Hnd]|Hin].
        -- left. apply elem_of_cons in Hin as [->|Hin]; [congruence|auto].
        -- right. replace (10 - kept)%nat with (S (10 - S kept)) in Hin by lia.
           exact Hin.
      * specialize (IH kept).
        destruct (scratch_lines kept rest) as [codes skipped]. simpl in *.
        destruct H as [[Hin Hnd]|Hin].
        -- apply elem_of_cons in Hin as [->|Hin]; [congruence|].
           apply elem_of_cons. right. apply IH. auto.
        -- replace (10 - kept)%nat with 0%nat in * by lia. simpl in Hin.
           apply elem_of_cons in Hin as [->|Hin]; apply elem_of_cons;
             [left; reflexivity | right; apply IH; right; exact Hin].
    + specialize (IH kept).
      destruct (scratch_lines kept rest) as [codes skipped]. simpl in *.
      destruct H as [[Hin Hnd]|Hin].
      * apply elem_of_cons in Hin as [->|Hin]; apply elem_of_cons;
          [left; reflexivity | right; apply IH; auto].
      * apply elem_of_cons. right. apply IH. auto.
Qed.

Lemma read_loop_record lines : forall c res log,
  well_formed c -> shared_key c = None -> scratch_codes_count c = 0 ->
  read_loop step lines c = (res, log) ->
  parses_record decode warning lines res log.
Proof.
  unfold parses_record.
  induction lines as [|line rest IH]; intros c res log Hwf Hkey Hcount.
  - simpl. intros [= <- <-]. simpl. unfold kept_codes. rewrite Hcount. auto.
  - cbn [read_loop].
    change (content_lines (line :: rest))
      with (if is_content line then line :: content_lines rest
            else content_lines rest).
    destruct (is_content line) eqn:Hc.
    + rewrite (step_secret c line Hc Hkey).
      destruct (decode line) as [key|] eqn:Hdec.
      * destruct (read_loop step rest (set_shared_key c key))
          as [res1 l1] eqn:Hrest.
        intros [= <- <-].
        pose proof (read_loop_scratch rest (set_shared_key c key) key res1 l1
                      Hwf eq_refl Hrest) as Hs.
        assert (Hkept : kept_codes (set_shared_key c key) = [])
          by (unfold kept_codes; simpl; rewrite Hcount; reflexivity).
        rewrite Hkept in Hs. simpl in Hs.
        destruct res1 as [c'| |]; simpl; [|contradiction|].
        -- destruct Hs as (Hk & _ & Hcodes & Hskip).
           unfold key_bytes. rewrite Hk.
           split; [reflexivity | split; [reflexivity | split]].
           ++ rewrite Hcodes, scratch_lines_kept. reflexivity.
           ++ intros x Hx. rewrite Hskip. apply scratch_lines_skipped.
              exact Hx.
        -- destruct Hs as (x & Hx & Hd). exists x. split; [|assumption].
           apply elem_of_cons. auto.
      * intros [= <- <-]. simpl. eauto.
    + pose proof (step_other c line Hc) as Hother.
      destruct (step c line) as [[c1| |] l]; [|contradiction|].
      * destruct Hother as ((Hk1 & Hcodes1 & Hcount1) & Hskip).
        destruct (read_loop step rest c1) as [res1 l1] eqn:Hrest.
        intros [= <- <-].
        assert (Hwf1 : well_formed c1)
          by (unfold well_formed in *; rewrite Hcodes1, Hcount1; assumption).
        specialize (IH c1 res1 l1 Hwf1 ltac:(congruence) ltac:(congruence)
                      Hrest).
        destruct res1 as [c'| |]; [|assumption|].
        -- destruct (content_lines rest) as [|first rest']; [assumption|].
           destruct IH as (H1 & H2 & H3 & H4).
           repeat split; try assumption.
           intros x Hx. rewrite omap_app, Hskip. apply H4, Hx.
        -- destruct IH as (x & Hx & Hd). exists x. split; [|assumption].
           apply elem_of_cons. auto.
      * intros [= <- <-]. exists line. split; [apply elem_of_cons; auto|].
        assumption.
Qed.

End ReadLoop.

(** C8.  For either loader ([get_user_totp_config] of the module and
    [totp_read_user_config] of [utils.c]): the first line of the record
    that is neither blank nor a directive is decoded as the secret, and
    when it does not decode the loader returns no record.  Of the later
    such lines, those of digits are kept as scratch codes, in the order of
    the record, up to ten; every other one, and every line of digits after
    the tenth, has its warning in the log, and none of them makes the load
    fail: the loader returns NULL only for a secret that does not decode,
    and runs into undefined behaviour only on a directive. *)
Theorem secret_and_scratch_codes {L : Totp.Libs} (store : Totp.token_store)
    (conf : Totp.totp_auth_config_rec) (user dir : string)
    (lines : list string) :
  Totp.tokenDir conf = Some dir ->
  store (dir +:+ "/" +:+ user) = Some lines ->
  (exists res log,
      Totp.get_user_totp_config store conf user
      = (res, Totp.EvOpenConfig (dir +:+ "/" +:+ user) :: map Totp.EvLog log)
      /\ LoaderSpec.parses_record
           (fun line => Totp.base32_decode line (CStr.strlen line))
           LoaderSpec.skipped_msg lines res log)
  /\ (exists res log,
        Utils.totp_read_user_config store user dir
        = (res, Totp.EvOpenConfig (dir +:+ "/" +:+ user) :: map Totp.EvLog log)
        /\ LoaderSpec.parses_record Totp.apr_pdecode_base32
             LoaderSpec.warned_msg lines res log).
Proof.
  intros Hdir Hstore. split.
  - unfold Totp.get_user_totp_config. rewrite Hdir, Hstore.
    destruct (Totp.read_lines lines Totp.zero_config) as [res log] eqn:Hread.
    exists res, log. split; [reflexivity|].
    rewrite read_lines_loop in Hread.
    eapply read_loop_record; [apply process_line_other
      | apply process_line_secret | apply process_line_scratch
      | | | | exact Hread];
      [split; [reflexivity | simpl; lia] | reflexivity | reflexivity].
  - unfold Utils.totp_read_user_config. rewrite Hstore.
    destruct (Utils.read_config_lines lines Totp.zero_config)
      as [res log] eqn:Hread.
    exists res, log. split; [reflexivity|].
    rewrite read_config_lines_loop in Hread.
    eapply read_loop_record; [apply read_process_line_other
      | apply read_process_line_secret | apply read_process_line_scratch
      | | | | exact Hread];
      [split; [reflexivity | simpl; lia] | reflexivity | reflexivity].
Qed.

Lemma secret_and_scratch_codes_witness :
  exists res log,
    @Totp.get_user_totp_config Demo.libs Demo.store Demo.conf "alice"
    = (res, Totp.EvOpenConfig "/tokens/alice" :: map Totp.EvLog log)
    /\ LoaderSpec.parses_record
         (fun line => @Totp.base32_decode Demo.libs line (CStr.strlen line))
         LoaderSpec.skipped_msg Demo.alice_record res log.
Proof.
  exact (proj1 (@secret_and_scratch_codes Demo.libs Demo.store Demo.conf
                  "alice" "/tokens" Demo.alice_record eq_refl eq_refl)).
Defined.

(** ** Clamping of the policy directives *)

Section Clamping.
Import Word CStr Totp LoaderSpec.
Context {L : Libs}.

Lemma digits_value_ge acc s : 0 <= acc -> acc <= digits_value acc s.
Proof.
  revert acc. induction s as [|c rest IH]; intros acc Hacc; simpl; [lia|].
  destruct (apr_isdigit c) eqn:Hc; [|lia].
  unfold apr_isdigit in Hc. apply andb_true_iff in Hc as [H1 H2].
  apply Z.leb_le in H1, H2.
  specialize (IH (10 * acc + (code c - 48))). lia.
Qed.

Lemma apr_atoi64_digits v :
  all_digits v = true -> apr_atoi64 v = Z.min (decimal v) INT64_MAX.
Proof.
  destruct v as [|c rest]; [reflexivity|].
  rewrite all_digits_cons. intros H. apply andb_true_iff in H as [Hc _].
  pose proof Hc as Hd. unfold apr_isdigit in Hd.
  apply andb_true_iff in Hd as [H1 H2]. apply Z.leb_le in H1, H2.
  unfold apr_atoi64. cbn [skip_while].
  assert (Hsp : apr_isspace c = false).
  { unfold apr_isspace. apply orb_false_iff. split.
    - apply Z.eqb_neq. lia.
    - apply andb_false_iff. right. apply Z.leb_gt. lia. }
  rewrite Hsp.
  destruct (Z.eqb_spec (code c) 45); [lia|].
  destruct (Z.eqb_spec (code c) 43); [lia|].
  reflexivity.
Qed.

(** The macros on a saturated value are the clamp of the number. *)
Lemma clamp_macros lo hi d :
  0 <= lo <= hi -> hi < INT64_MAX ->
  c_max lo (c_min (Z.min d INT64_MAX) hi) = Z.max lo (Z.min d hi).
Proof.
  intros Hlo Hhi. unfold c_max, c_min.
  destruct (Z.ltb_spec (Z.min d INT64_MAX) hi);
    rewrite Z.gtb_ltb; [destruct (Z.ltb_spec (Z.min d INT64_MAX) lo)
                       | destruct (Z.ltb_spec hi lo)]; lia.
Qed.

Lemma validate_digits_result f tmp token :
  exists l,
    validate_digits f tmp (Some token)
    = (if all_digits tmp then Some token else None, l)
    /\ (all_digits tmp = true -> l = [])
    /\ (all_digits tmp = false -> l <> []).
Proof.
  assert (Hnone : forall tmp, fst (validate_digits f tmp None) = None).
  { clear. induction tmp as [|c rest IH]; simpl; [reflexivity|].
    destruct (apr_isdigit c); [exact IH|].
    destruct (validate_digits f rest None). exact IH. }
  induction tmp as [|c rest (l & IH & IHt & IHf)]; simpl.
  - exists []. split; [reflexivity | split; [reflexivity | discriminate]].
  - rewrite all_digits_cons. destruct (apr_isdigit c); simpl.
    + exists l. auto.
    + specialize (Hnone rest).
      destruct (validate_digits f rest None) as [t l']. simpl in *. subst t.
      eexists. split; [reflexivity | split; discriminate].
Qed.

(** [WINDOW_SIZE] with a value of digits: the value clamped to [[0, 32]]. *)
Lemma window_size_clamped c line last v rest :
  apr_strtok SEP last = Some (v, rest) -> all_digits v = true ->
  window_size_directive c line last
  = (Continue (set_window_size c (Z.max 0 (Z.min (decimal v) 32))), []).
Proof.
  intros Htok Hv. unfold window_size_directive. rewrite Htok.
  destruct (validate_digits_result WindowSize v v) as (l & -> & Hl & _).
  rewrite Hv, (Hl Hv).
  rewrite (apr_atoi64_digits v Hv), clamp_macros by (unfold INT64_MAX; lia).
  unfold u8, wrap. rewrite Z.mod_small by lia. reflexivity.
Qed.

(** [WINDOW_SIZE] with another value: a warning, and the record as it was. *)
Lemma window_size_invalid c line last v rest :
  apr_strtok SEP last = Some (v, rest) -> all_digits v = false ->
  exists l,
    l <> []
    /\ window_size_directive c line last
       = (Continue c, l ++ [LogMissingValue WINDOW_SIZE line]).
Proof.
  intros Htok Hv. unfold window_size_directive. rewrite Htok.
  destruct (validate_digits_result WindowSize v v) as (l & -> & _ & Hne).
  rewrite Hv. exists l. split; [exact (Hne Hv) | reflexivity].
Qed.

(** [RATE_LIMIT] with two values of digits: the count clamped to
    [[0, 5]], the seconds to [[30, 300]]. *)
Lemma rate_limit_clamped c line last n last1 s rest :
  apr_strtok SEP last = Some (n, last1) ->
  apr_strtok SEP last1 = Some (s, rest) ->
  all_digits n = true -> all_digits s = true ->
  rate_limit_directive c line last
  = (Continue (set_rate_limit_seconds
                 (set_rate_limit_count c (Z.max 0 (Z.min (decimal n) 5)))
                 (Z.max 30 (Z.min (decimal s) 300))), []).
Proof.
  intros Htok Htok1 Hn Hs. unfold rate_limit_directive. rewrite Htok.
  destruct (validate_digits_result RateLimitCount n n) as (l1 & -> & Hl1 & _).
  rewrite Hn, (Hl1 Hn), Htok1.
  destruct (validate_digits_result RateLimitSeconds s s) as (l2 & -> & Hl2 & _).
  rewrite Hs, (Hl2 Hs).
  rewrite (apr_atoi64_digits n Hn), (apr_atoi64_digits s Hs).
  rewrite !clamp_macros by (unfold INT64_MAX; lia). reflexivity.
Qed.

(** [RATE_LIMIT] with seconds that are not of digits: the count is 0. *)
Lemma rate_limit_seconds_invalid c line last n last1 s rest :
  apr_strtok SEP last = Some (n, last1) ->
  apr_strtok SEP last1 = Some (s, rest) ->
  all_digits s = false ->
  exists c' l,
    rate_limit_directive c line last = (Continue c', l)
    /\ rate_limit_count c' = 0
    /\ rate_limit_seconds c' = rate_limit_seconds c
    /\ In (LogMissingValue RATE_LIMIT line) l.
Proof.
  intros Htok Htok1 Hs. unfold rate_limit_directive. rewrite Htok.
  destruct (validate_digits RateLimitCount n (Some n)) as [[t|] l0];
    rewrite Htok1;
    destruct (validate_digits_result RateLimitSeconds s s) as (l2 & -> & _);
    rewrite Hs; do 2 eexists; (split; [reflexivity|]);
    repeat split; rewrite ?in_app_iff; simpl; auto.
Qed.

(** The loader of [utils.c] on [RATE_LIMIT] with two values of digits:
    the seconds are clamped to [[0, 300]]. *)
Lemma read_rate_limit_clamped c last n last1 s rest :
  apr_strtok SEP last = Some (n, last1) ->
  apr_strtok SEP last1 = Some (s, rest) ->
  all_digits n = true -> all_digits s = true ->
  Utils.read_rate_limit c last
  = (Continue (set_rate_limit_seconds
                 (set_rate_limit_count c (Z.max 0 (Z.min (decimal n) 5)))
                 (Z.max 0 (Z.min (decimal s) 300))), []).
Proof.
  intros Htok Htok1 Hn Hs. unfold Utils.read_rate_limit, Utils.is_digit_str.
  assert (En : first_bad apr_isdigit n = None)
    by (unfold all_digits in Hn; destruct (first_bad apr_isdigit n);
        [discriminate | reflexivity]).
  assert (Es : first_bad apr_isdigit s = None)
    by (unfold all_digits in Hs; destruct (first_bad apr_isdigit s);
        [discriminate | reflexivity]).
  rewrite Htok, En, Htok1, Es.
  rewrite (apr_atoi64_digits n Hn), (apr_atoi64_digits s Hs).
  rewrite !clamp_macros by (unfold INT64_MAX; lia). reflexivity.
Qed.

End Clamping.

(** C7.  The two loaders on the record whose only line is the directive
    [RATE_LIMIT 3 10], for any library functions: [get_user_totp_config]
    clamps the seconds to 30, the lower end of [[30, 300]], while
    [totp_read_user_config] of [utils.c] keeps 10, because it clamps the
    seconds with [max(0, ...)] where the module has [max(30, ...)].  Both
    clamp the count to 3 within [[0, 5]]. *)
Theorem rate_limit_seconds_below_30 {L : Totp.Libs} :
  let store := Demo.store_with [Demo.directive "RATE_LIMIT 3 10"] in
  (exists c ev,
      Totp.get_user_totp_config store Demo.conf "alice" = (Totp.Loaded c, ev)
      /\ Totp.rate_limit_count c = 3 /\ Totp.rate_limit_seconds c = 30)
  /\ (exists c ev,
        Utils.totp_read_user_config store "alice" "/tokens"
          = (Totp.Loaded c, ev)
        /\ Totp.rate_limit_count c = 3 /\ Totp.rate_limit_seconds c = 10
        /\ ~ 30 <= Totp.rate_limit_seconds c <= 300).
Proof.
  split.
  - do 2 eexists. split; [vm_compute; reflexivity|]. split; reflexivity.
  - do 2 eexists. split; [vm_compute; reflexivity|].
    split; [reflexivity | split; [reflexivity | simpl; lia]].
Qed.
(** ** The ledger transaction *)

Lemma append_neq (s t : string) : t <> ""%string -> s +:+ t <> s.
Proof.
  intros Ht. induction s as [|a s IH]; intros H.
  - change ("" +:+ t)%string with t in H. contradiction.
  - change (String a s +:+ t) with (String a (s +:+ t)) in H.
    injection H as H. contradiction.
Qed.

Section LedgerFacts.
Import Word Utils LedgerSpec.
Variable cb_data : Type.
Variable cb_check : list Z -> option (list Z) -> cb_data -> bool * cb_data.
Variable io : ledger_io.
Variable entry : list Z.
Variable entry_size : positive.

Local Abbreviation size := (Pos.to_nat entry_size).
Local Abbreviation scan := (scan_target cb_data cb_check io entry entry_size).

Lemma tmp_filepath_fresh filepath :
  tmp_filepath_of entry filepath <> filepath.
Proof. unfold tmp_filepath_of. apply append_neq. discriminate. Qed.

Lemma scan_target_step file_data entry_pos acc tmp :
  scan file_data entry_pos acc tmp =
  if decide (entry_pos < Z.of_nat (length file_data)) then
    let here := skipn (Z.to_nat entry_pos) file_data in
    if entry_time_of entry >=? entry_time_of here then
      match cb_check entry (Some (firstn size here)) acc with
      | (true, acc') =>
          if write_error io (length tmp) then (false, acc', tmp)
          else scan file_data (entry_pos + Z.pos entry_size) acc'
                 (tmp ++ firstn size here)
      | (false, acc') => scan file_data (entry_pos + Z.pos entry_size) acc' tmp
      end
    else scan file_data (entry_pos + Z.pos entry_size) acc tmp
  else (true, acc, tmp).
Proof.
  rewrite scan_target_equation_1.
  destruct (decide (entry_pos < Z.of_nat (length file_data))); reflexivity.
Qed.

(** A scan that ends without a failed write has copied the records that
    the specification retains. *)
Lemma scan_target_records (records : list (list Z)) :
  (8 <= size)%nat ->
  Forall (fun record => length record = size) records ->
  forall pre acc tmp acc' tmp',
    scan (pre ++ concat records) (Z.of_nat (length pre)) acc tmp
      = (true, acc', tmp') ->
    acc' = snd (retain cb_data cb_check entry records acc)
    /\ tmp' = tmp ++ concat (fst (retain cb_data cb_check entry records acc)).
Proof.
  intros Hsize Hall. induction Hall as [|record rest Hlen Hrest IH];
    intros pre acc tmp acc' tmp'; rewrite scan_target_step.
  - simpl. rewrite app_nil_r.
    destruct (decide _); [lia|]. intros [= <- <-].
    rewrite app_nil_r. auto.
  - destruct (decide _) as [_|Hge];
      [|exfalso; apply Hge; rewrite length_app; simpl; rewrite length_app; lia].
    cbv zeta. rewrite Nat2Z.id, drop_app_length. cbn [concat retain].
    assert (Htime : entry_time_of (record ++ concat rest) = entry_time_of record).
    { unfold entry_time_of. rewrite take_app_le by lia. reflexivity. }
    rewrite Htime, Z.geb_leb, (take_app_length' record) by (symmetry; exact Hlen).
    assert (Hnext : forall acc1 tmp1,
      scan (pre ++ record ++ concat rest)
        (Z.of_nat (length pre) + Z.pos entry_size) acc1 tmp1
      = scan ((pre ++ record) ++ concat rest)
          (Z.of_nat (length (pre ++ record))) acc1 tmp1).
    { intros acc1 tmp1. rewrite <- app_assoc, length_app, Hlen. f_equal. lia. }
    destruct (entry_time_of record <=? entry_time_of entry).
    + destruct (cb_check entry (Some record) acc) as [[] acc1].
      * destruct (write_error io (length tmp)); [discriminate|].
        rewrite Hnext. intros H. apply IH in H as [-> ->].
        destruct (retain cb_data cb_check entry rest acc1). simpl.
        rewrite <- app_assoc. auto.
      * rewrite Hnext. intros H. apply IH in H as [-> ->].
        destruct (retain cb_data cb_check entry rest acc1). auto.
    + rewrite Hnext. intros H. apply IH in H as [-> ->]. auto.
Qed.

(** What is retained is part of what was there, in the same order, and
    holds no record dated after the new entry. *)
Lemma retain_sublist records acc :
  fst (retain cb_data cb_check entry records acc) `sublist_of` records
  /\ Forall (fun record => entry_time_of record <= entry_time_of entry)
       (fst (retain cb_data cb_check entry records acc)).
Proof.
  revert acc. induction records as [|record rest IH]; intros acc; simpl.
  - split; constructor.
  - destruct (Z.leb_spec (entry_time_of record) (entry_time_of entry)).
    + destruct (cb_check entry (Some record) acc) as [keep acc1].
      specialize (IH acc1).
      destruct (retain cb_data cb_check entry rest acc1) as [kept acc2].
      simpl in *. destruct IH as [Hsub Hall].
      destruct keep; split; auto; constructor; assumption.
    + specialize (IH acc). destruct IH as [Hsub Hall].
      split; [constructor|]; assumption.
Qed.

End LedgerFacts.

(** C6.  After a completed transaction on a ledger of whole records (each
    of the size of the entry, which is at least the 8 bytes of the time
    stamp), the ledger file holds the records that were there, are not
    dated after the new entry and were kept by the predicate, byte for
    byte and in their order, followed by the new entry if the predicate
    admitted it, and by nothing else; what was retained is the same
    whether the new entry was admitted or not; the accumulator is the
    one the predicate built on the way; the temporary file is gone, and no
    other file was touched. *)
Theorem ledger_retention (cb_data : Type)
    (cb_check : list Z -> option (list Z) -> cb_data -> bool * cb_data)
    (io : Utils.ledger_io) (entry : list Z) (entry_size : positive)
    (fs fs' : gmap string (list Z)) (filepath : string) (acc acc' : cb_data)
    (records : list (list Z)) :
  (8 <= Pos.to_nat entry_size)%nat ->
  length entry = Pos.to_nat entry_size ->
  Forall (fun record => length record = Pos.to_nat entry_size) records ->
  default [] (fs !! filepath) = concat records ->
  Utils.totp_check_n_update_file_helper cb_data cb_check io entry entry_size
    fs filepath acc = (Utils.APR_SUCCESS, acc', fs') ->
  let kept := fst (LedgerSpec.retain cb_data cb_check entry records acc) in
  let acc1 := snd (LedgerSpec.retain cb_data cb_check entry records acc) in
  let accepted := fst (cb_check entry None acc1) in
  fs' !! filepath = Some (concat kept ++ (if accepted then entry else []))
  /\ (fs' !! filepath, acc')
     = (Some (fst (LedgerSpec.compacted cb_data cb_check entry records acc)),
        snd (LedgerSpec.compacted cb_data cb_check entry records acc))
  /\ kept `sublist_of` records
  /\ Forall (fun record =>
               Utils.entry_time_of record <= Utils.entry_time_of entry) kept
  /\ fs' !! Utils.tmp_filepath_of entry filepath = None
  /\ (forall path,
        path <> filepath -> path <> Utils.tmp_filepath_of entry filepath ->
        fs' !! path = fs !! path).
Proof.
  intros Hsize Hentry Hall Hfile Hrun kept acc1 accepted.
  pose proof (tmp_filepath_fresh entry filepath) as Hfresh.
  pose proof (retain_sublist cb_data cb_check entry records acc) as [Hsub Htime].
  unfold Utils.totp_check_n_update_file_helper in Hrun.
  destruct (_ || _) eqn:Hcreate; [discriminate|].
  apply orb_false_iff in Hcreate as [_ Htmp].
  apply bool_decide_eq_false in Htmp.
  assert (Hnone : fs !! Utils.tmp_filepath_of entry filepath = None)
    by (apply eq_None_not_Some; exact Htmp).
  destruct (Utils.open_error io); [discriminate|].
  rewrite lookup_insert_ne in Hrun by exact Hfresh.
  assert (Hscan : exists tmp,
            (tmp = concat kept /\ acc1 = acc1)
            /\ match cb_check entry None acc1 with
               | (true, acc2) =>
                   if Utils.write_error io (length tmp)
                   then (Utils.APR_FAILURE Utils.WriteTmp, acc2,
                         <[Utils.tmp_filepath_of entry filepath := tmp]>
                           (<[Utils.tmp_filepath_of entry filepath := []]> fs))
                   else if Utils.rename_error io
                   then (Utils.APR_FAILURE Utils.Rename, acc2,
                         <[Utils.tmp_filepath_of entry filepath :=
                             tmp ++ firstn (Pos.to_nat entry_size) entry]>
                           (<[Utils.tmp_filepath_of entry filepath := []]> fs))
                   else (Utils.APR_SUCCESS, acc2,
                         <[filepath :=
                             tmp ++ firstn (Pos.to_nat entry_size) entry]>
                           (delete (Utils.tmp_filepath_of entry filepath)
                              (<[Utils.tmp_filepath_of entry filepath := []]>
                                 fs)))
               | (false, acc2) =>
                   if Utils.rename_error io
                   then (Utils.APR_FAILURE Utils.Rename, acc2,
                         <[Utils.tmp_filepath_of entry filepath := tmp]>
                           (<[Utils.tmp_filepath_of entry filepath := []]> fs))
                   else (Utils.APR_SUCCESS, acc2,
                         <[filepath := tmp]>
                           (delete (Utils.tmp_filepath_of entry filepath)
                              (<[Utils.tmp_filepath_of entry filepath := []]>
                                 fs)))
               end = (Utils.APR_SUCCESS, acc', fs')).
  { destruct (fs !! filepath) as [file_data|] eqn:Hfs; simpl in Hfile.
    - destruct (Utils.finfo_error io); [discriminate|].
      destruct (Utils.mmap_error io); [discriminate|].
      destruct (Utils.scan_target _ _ _ _ _ _ _ _ _) as [[ok acc0] tmp] eqn:Hs.
      destruct ok; [|discriminate].
      rewrite Hfile in Hs.
      apply (scan_target_records cb_data cb_check io entry entry_size records
               Hsize Hall []) in Hs as [-> ->].
      exists (concat kept). split; [auto|]. exact Hrun.
    - destruct records as [|record rest].
      + exists []. split; [auto|]. exact Hrun.
      + exfalso. inversion Hall as [|? ? Hlen _]; subst. simpl in Hfile.
        destruct record; [simpl in Hlen; lia | discriminate]. }
  destruct Hscan as (tmp & [-> _] & Hend).
  unfold LedgerSpec.compacted. fold kept acc1 accepted.
  destruct (LedgerSpec.retain cb_data cb_check entry records acc)
    as [kept0 acc0] eqn:Hretain.
  simpl in kept, acc1. subst kept acc1.
  unfold accepted in *. clear accepted.
  rewrite (firstn_all2 entry) in Hend by lia.
  destruct (cb_check entry None acc0) as [[] acc2]; simpl.
  - destruct (Utils.write_error io _); [discriminate|].
    destruct (Utils.rename_error io); [discriminate|].
    injection Hend as <- <-.
    rewrite lookup_insert_eq, lookup_insert_ne by congruence.
    rewrite lookup_delete_eq. repeat split; auto.
    intros path H1 H2.
    rewrite lookup_insert_ne, lookup_delete_ne, lookup_insert_ne by congruence.
    reflexivity.
  - destruct (Utils.rename_error io); [discriminate|].
    injection Hend as <- <-.
    rewrite lookup_insert_eq, lookup_insert_ne by congruence.
    rewrite lookup_delete_eq, app_nil_r. repeat split; auto.
    intros path H1 H2.
    rewrite lookup_insert_ne, lookup_delete_ne, lookup_insert_ne by congruence.
    reflexivity.
Qed.

Lemma ledger_retention_witness :
  snd (Utils.totp_check_n_update_file_helper Z Demo.count_recent
         Demo.no_errors (Demo.stamp 120) 8 Demo.ledger "/state/alice" 0)
    !! "/state/alice"%string
  = Some (Demo.stamp 100 ++ Demo.stamp 120).
Proof.
  pose proof (ledger_retention Z Demo.count_recent Demo.no_errors
                (Demo.stamp 120) 8 Demo.ledger
                (snd (Utils.totp_check_n_update_file_helper Z
                        Demo.count_recent Demo.no_errors (Demo.stamp 120) 8
                        Demo.ledger "/state/alice" 0))
                "/state/alice" 0 1
                [Demo.stamp 10; Demo.stamp 100; Demo.stamp 500]) as H.
  destruct H as (H & _).
  - vm_compute. lia.
  - reflexivity.
  - repeat constructor.
  - vm_compute. reflexivity.
  - vm_compute. reflexivity.
  - vm_compute in H |- *. exact H.
Defined.

(** A transaction that the system does not refuse completes. *)
Section LedgerCompletes.
Import Word Utils.
Variable cb_data : Type.
Variable cb_check : list Z -> option (list Z) -> cb_data -> bool * cb_data.
Variable entry : list Z.
Variable entry_size : positive.

Lemma scan_target_completes file_data :
  forall (n : nat) entry_pos acc tmp,
    n = Z.to_nat (Z.of_nat (length file_data) - entry_pos) ->
    fst (fst (scan_target cb_data cb_check Demo.no_errors entry entry_size
                file_data entry_pos acc tmp)) = true.
Proof.
  induction n as [n IH] using lt_wf_ind. intros entry_pos acc tmp Hn.
  rewrite scan_target_step.
  destruct (decide _) as [Hlt|]; [|reflexivity]. cbv zeta.
  destruct (_ >=? _); [destruct (cb_check _ _ _) as [[] acc1]; simpl|];
    eapply IH; try reflexivity; lia.
Qed.

Lemma ledger_transaction_completes (fs : gmap string (list Z))
    (filepath : string) (acc : cb_data) :
  fs !! tmp_filepath_of entry filepath = None ->
  fst (fst (totp_check_n_update_file_helper cb_data cb_check Demo.no_errors
              entry entry_size fs filepath acc)) = APR_SUCCESS.
Proof.
  intros Hfree. unfold totp_check_n_update_file_helper.
  rewrite Hfree. simpl.
  destruct (_ !! filepath) as [file_data|].
  - pose proof (scan_target_completes file_data _ 0 acc [] eq_refl) as Hs.
    destruct (scan_target _ _ _ _ _ _ _ _ _) as [[ok acc1] tmp].
    simpl in Hs. subst ok.
    destruct (cb_check entry None acc1) as [[] acc2]; reflexivity.
  - destruct (cb_check entry None acc) as [[] acc2]; reflexivity.
Qed.

End LedgerCompletes.

(** * Further properties of the code *)

(** ** Time steps *)

(** X1.  For a time of day that is not before the epoch, the time step of
    a request is the number of whole 30-second intervals since the epoch:
    the step [T] is the one with [30 T <= seconds < 30 (T + 1)], and
    another request has the same step exactly when its time lies in the
    same interval. *)
Theorem get_timestamp_interval (r : Totp.request_rec) :
  0 <= Totp.apr_time_now r < 2 ^ 63 ->
  Totp.get_timestamp r = Totp.apr_time_now r / 30000000
  /\ 30000000 * Totp.get_timestamp r <= Totp.apr_time_now r
     < 30000000 * (Totp.get_timestamp r + 1)
  /\ forall r',
       0 <= Totp.apr_time_now r' < 2 ^ 63 ->
       (Totp.get_timestamp r' = Totp.get_timestamp r
        <-> 30000000 * Totp.get_timestamp r <= Totp.apr_time_now r'
            < 30000000 * (Totp.get_timestamp r + 1)).
Proof.
  intros Hnow.
  assert (Hstep : forall now, 0 <= now < 2 ^ 63 ->
            Word.u64 (Z.quot (Z.quot now 1000000) 30) = now / 30000000).
  { intros now Hn. rewrite (Z.quot_div_nonneg now 1000000) by lia.
    rewrite Z.quot_div_nonneg; [| apply Z.div_pos; lia | lia].
    rewrite Z.div_div by lia. change (1000000 * 30) with 30000000.
    unfold Word.u64, Word.wrap. apply Z.mod_small.
    split; [apply Z.div_pos; lia|].
    apply Z.div_lt_upper_bound; lia. }
  assert (Hdiv : forall now, 30000000 * (now / 30000000) <= now
                             < 30000000 * (now / 30000000 + 1)).
  { intros now. pose proof (Z.mul_div_le now 30000000 ltac:(lia)).
    pose proof (Z.mul_succ_div_gt now 30000000 ltac:(lia)). lia. }
  unfold Totp.get_timestamp. rewrite (Hstep _ Hnow).
  split; [reflexivity|]. split; [apply Hdiv|].
  intros r' Hnow'. rewrite (Hstep _ Hnow'). split.
  - intros <-. apply Hdiv.
  - intros Hin. symmetry.
    apply Z.div_unique with
      (r := Totp.apr_time_now r'
            - 30000000 * (Totp.apr_time_now r / 30000000)); lia.
Qed.

Lemma get_timestamp_interval_witness :
  Totp.get_timestamp (Demo.request 59) = 59000000 / 30000000.
Proof.
  refine (proj1 (get_timestamp_interval (Demo.request 59) _)).
  simpl. lia.
Defined.

(** ** Hexadecimal output *)

Section HexFacts.
Import Word CStr Totp HexSpec.

Lemma hex_value_digit (n : Z) :
  0 <= n < 16 -> hex_value (hex_digit n) = Some n.
Proof.
  intros Hn. replace n with (Z.of_nat (Z.to_nat n)) by lia.
  assert (Hm : (Z.to_nat n < 16)%nat) by lia.
  revert Hm. generalize (Z.to_nat n). intros m Hm.
  do 16 (destruct m as [|m]; [reflexivity|]). lia.
Qed.

Lemma hex_nibbles (d : Z) :
  is_byte d ->
  0 <= Z.shiftr d 4 < 16 /\ 0 <= Z.land d 0xF < 16
  /\ 16 * Z.shiftr d 4 + Z.land d 0xF = d.
Proof.
  intros [H0 H1]. rewrite Z.shiftr_div_pow2 by lia.
  change (Z.land d 0xF) with (Z.land d (Z.ones 4)).
  rewrite Z.land_ones by lia. change (2 ^ 4) with 16.
  pose proof (Z.div_mod d 16 ltac:(lia)).
  pose proof (Z.mod_pos_bound d 16 ltac:(lia)).
  assert (0 <= d / 16) by (apply Z.div_pos; lia).
  assert (d / 16 < 16) by (apply Z.div_lt_upper_bound; lia).
  lia.
Qed.

End HexFacts.

(** X2.  [hex_encode] writes two characters for each of the [len] bytes
    it is given, and reading the characters back as hexadecimal, most
    significant digit first, returns those bytes. *)
Theorem hex_encode_round_trip (data : list Z) (len : nat) :
  Forall Word.is_byte data -> (len <= length data)%nat ->
  String.length (Totp.hex_encode data len) = (2 * len)%nat
  /\ HexSpec.hex_decode (Totp.hex_encode data len) = Some (firstn len data).
Proof.
  intros Hbytes. revert len.
  induction Hbytes as [|d rest Hd Hrest IH]; intros len Hlen.
  - destruct len; [split; reflexivity | simpl in Hlen; lia].
  - destruct len as [|n]; [split; reflexivity|].
    simpl in Hlen. destruct (IH n ltac:(lia)) as [IHlen IHdec].
    destruct (hex_nibbles d Hd) as (Hhi & Hlo & Hsum).
    cbn [Totp.hex_encode HexSpec.hex_decode String.length firstn].
    rewrite (hex_value_digit _ Hhi), (hex_value_digit _ Hlo), IHdec, IHlen.
    split; [lia | rewrite Hsum; reflexivity].
Qed.

Lemma hex_encode_round_trip_witness :
  HexSpec.hex_decode (Totp.hex_encode [0; 171; 255] 3) = Some [0; 171; 255].
Proof.
  refine (proj2 (hex_encode_round_trip [0; 171; 255] 3 _ _)).
  - repeat constructor; unfold Word.is_byte; lia.
  - simpl. lia.
Defined.

(** ** Requests that find no record, no user name, no state directory *)

(** X3.  When the token directory is not configured, as in the record
    that [create_authn_totp_config] makes, or when the file of the user
    cannot be opened, the password check answers Denied and the realm
    hash answers UserNotFound without a hash; neither creates a file, and
    the password check leaves the state directory as it is. *)
Theorem no_record_no_access {L : Totp.Libs} (r : Totp.request_rec)
    (fs : gmap string (list Z)) (user password realm : string) :
  Totp.per_dir_config r = Host.create_authn_totp_config
  \/ (exists dir,
        Totp.tokenDir (Totp.per_dir_config r) = Some dir
        /\ Totp.token_files r (dir +:+ "/" +:+ user) = None) ->
  fst (Totp.authn_totp_check_password r fs user password)
    = (Totp.Verdict Totp.AUTH_DENIED, fs)
  /\ fst (Totp.authn_totp_get_realm_hash r user realm)
     = (Totp.Verdict Totp.AUTH_USER_NOT_FOUND, None)
  /\ (forall path,
        (Totp.EvCreateFile path
           ∉ snd (Totp.authn_totp_check_password r fs user password))
        /\ (Totp.EvCreateFile path
              ∉ snd (Totp.authn_totp_get_realm_hash r user realm))).
Proof.
  intros Hno.
  assert (Hload : exists ev,
            Totp.get_user_totp_config (Totp.token_files r)
              (Totp.per_dir_config r) user = (Totp.LoadNull, ev)
            /\ forall path, Totp.EvCreateFile path ∉ ev).
  { unfold Totp.get_user_totp_config.
    destruct Hno as [->|(dir & -> & ->)]; simpl; eexists;
      (split; [reflexivity|]); intros path Hin; absent_event Hin. }
  destruct Hload as (ev & Hload & Hev).
  unfold Totp.authn_totp_check_password, Totp.authn_totp_get_realm_hash.
  rewrite Hload. split; [|split; [reflexivity|]].
  - destruct (CStr.first_bad CStr.apr_isalnum user); [reflexivity|].
    destruct (_ || _); [|reflexivity].
    destruct (CStr.first_bad CStr.apr_isdigit password); reflexivity.
  - intros path. split.
    + destruct (CStr.first_bad CStr.apr_isalnum user);
        [intros Hin; absent_event Hin|].
      destruct (_ || _); [|intros Hin; absent_event Hin].
      destruct (CStr.first_bad CStr.apr_isdigit password);
        [intros Hin; absent_event Hin|].
      intros Hin. apply elem_of_cons in Hin as [Hin|Hin]; [discriminate|].
      apply elem_of_app in Hin as [Hin|Hin]; [exact (Hev path Hin)|].
      absent_event Hin.
    + intros Hin. apply elem_of_cons in Hin as [Hin|Hin]; [discriminate|].
      apply elem_of_app in Hin as [Hin|Hin]; [exact (Hev path Hin)|].
      absent_event Hin.
Qed.

Lemma no_record_no_access_witness :
  fst (@Totp.authn_totp_check_password Demo.libs (Demo.request 59) ∅
         "bob" "287082")
  = (Totp.Verdict Totp.AUTH_DENIED, ∅).
Proof.
  refine (proj1 (@no_record_no_access Demo.libs (Demo.request 59) ∅
                   "bob" "287082" "realm" _)).
  right. exists "/tokens"%string. split; reflexivity.
Defined.

(** X4.  A user name with a character that is neither a letter nor a
    digit is Denied by the password check before any file is looked at:
    the events are the two log lines, whatever the password and the
    stores hold.  The realm hash makes no such check: with a token
    directory configured it opens the file named after the user name as
    given. *)
Theorem user_name_validation {L : Totp.Libs} (r : Totp.request_rec)
    (fs : gmap string (list Z)) (user password realm : string) (c : ascii) :
  CStr.first_bad CStr.apr_isalnum user = Some c ->
  Totp.authn_totp_check_password r fs user password
  = (Totp.Verdict Totp.AUTH_DENIED, fs,
     [Totp.EvLog (Totp.LogBasicAuth (Totp.get_timestamp r) user password);
      Totp.EvLog (Totp.LogUserInvalid user c)])
  /\ (forall dir,
        Totp.tokenDir (Totp.per_dir_config r) = Some dir ->
        Totp.EvOpenConfig (dir +:+ "/" +:+ user)
          ∈ snd (Totp.authn_totp_get_realm_hash r user realm)).
Proof.
  intros Hbad. split.
  - unfold Totp.authn_totp_check_password. rewrite Hbad. reflexivity.
  - intros dir Hdir. unfold Totp.authn_totp_get_realm_hash.
    assert (Hopen : Totp.EvOpenConfig (dir +:+ "/" +:+ user)
                      ∈ snd (Totp.get_user_totp_config (Totp.token_files r)
                               (Totp.per_dir_config r) user)).
    { unfold Totp.get_user_totp_config. rewrite Hdir.
      destruct (Totp.token_files r _) as [lines|];
        [|apply elem_of_cons; left; reflexivity].
      destruct (Totp.read_lines lines Totp.zero_config).
      apply elem_of_cons. left. reflexivity. }
    destruct (Totp.get_user_totp_config _ _ _) as [[cfg| |] ev]; simpl in *;
      apply elem_of_cons; right; rewrite ?elem_of_app; auto.
Qed.

Lemma user_name_validation_witness :
  Totp.EvOpenConfig "/tokens/../etc/passwd"
    ∈ snd (@Totp.authn_totp_get_realm_hash Demo.libs (Demo.request 59)
             "../etc/passwd" "realm").
Proof.
  refine (proj2 (@user_name_validation Demo.libs (Demo.request 59) ∅
                   "../etc/passwd" "287082" "realm" "."%char _)
            "/tokens"%string _); reflexivity.
Defined.

(** ** What an attempt does to the state directory *)

Section StateFacts.
Import Word CStr Totp CheckSpec.
Context {L : Libs}.

Lemma app_cons (a : ascii) (t x : string) :
  String a t +:+ x = String a (t +:+ x).
Proof. reflexivity. Qed.

(** A user name of letters and digits ends where the marker name has
    its dash. *)
Lemma user_prefix_inj (u u' x x' : string) :
  first_bad apr_isalnum u = None -> first_bad apr_isalnum u' = None ->
  u +:+ String "-" x = u' +:+ String "-" x' -> u = u' /\ x = x'.
Proof.
  revert u'. induction u as [|a t IH]; intros u' Hu Hu' H.
  - destruct u' as [|a' t'].
    + change (String "-" x = String "-" x') in H. injection H as ->. auto.
    + rewrite app_cons in H. change (String "-" x = String a' (t' +:+ String "-" x')) in H.
      injection H as <- _. simpl in Hu'. discriminate.
  - destruct u' as [|a' t'].
    + rewrite app_cons in H.
      change (String a (t +:+ String "-" x) = String "-" x') in H.
      injection H as -> _. simpl in Hu. discriminate.
    + rewrite !app_cons in H. injection H as -> H.
      simpl in Hu, Hu'. destruct (apr_isalnum a'); [|discriminate].
      destruct (IH t' Hu Hu' H) as [-> ->]. auto.
Qed.

(** The marker of a user and a password is the marker of no other. *)
Lemma code_filepath_inj (dir u p u' p' : string) :
  first_bad apr_isalnum u = None -> first_bad apr_isalnum u' = None ->
  code_filepath dir u p = code_filepath dir u' p' -> u = u' /\ p = p'.
Proof.
  intros Hu Hu' H. unfold code_filepath in H.
  apply (inj (String.app dir)) in H. apply (inj (String.app "/")) in H.
  change ("-c" +:+ p)%string with (String "-" (String "c" p)) in H.
  change ("-c" +:+ p')%string with (String "-" (String "c" p')) in H.
  apply user_prefix_inj in H as [-> H]; try assumption.
  injection H as ->. auto.
Qed.

(** Whether the marker can be created depends on the state directory
    at the marker's own path only. *)
Lemma mark_code_invalid_local r fs1 fs2 user password :
  (forall dir, stateDir (per_dir_config r) = Some dir ->
     fs1 !! code_filepath dir user password
     = fs2 !! code_filepath dir user password) ->
  fst (fst (mark_code_invalid r (per_dir_config r) fs1 user password))
  = fst (fst (mark_code_invalid r (per_dir_config r) fs2 user password)).
Proof.
  intros Hsame. unfold mark_code_invalid, create_exclusive.
  destruct (stateDir (per_dir_config r)) as [dir|]; [|reflexivity].
  rewrite (Hsame dir eq_refl). destruct (create_error r _); [reflexivity|].
  destruct (fs2 !! _); reflexivity.
Qed.

Lemma leave_local r fs1 fs2 user password g1 g2 tr1 tr2 :
  fst (fst (mark_code_invalid r (per_dir_config r) fs1 user password))
  = fst (fst (mark_code_invalid r (per_dir_config r) fs2 user password)) ->
  fst (fst (leave r fs1 user password g1 tr1))
  = fst (fst (leave r fs2 user password g2 tr2)).
Proof.
  unfold leave.
  destruct (mark_code_invalid r _ fs1 _ _) as [[[] ?] ?];
    destruct (mark_code_invalid r _ fs2 _ _) as [[[] ?] ?]; simpl;
    intros H; try discriminate; reflexivity.
Qed.

Lemma check_password_local r fs1 fs2 user password :
  (forall dir, stateDir (per_dir_config r) = Some dir ->
     fs1 !! code_filepath dir user password
     = fs2 !! code_filepath dir user password) ->
  fst (fst (authn_totp_check_password r fs1 user password))
  = fst (fst (authn_totp_check_password r fs2 user password)).
Proof.
  intros Hsame. apply mark_code_invalid_local in Hsame.
  unfold authn_totp_check_password.
  destruct (first_bad apr_isalnum user); [reflexivity|].
  destruct (_ || _); [|reflexivity].
  destruct (first_bad apr_isdigit password); [reflexivity|].
  destruct (get_user_totp_config _ _ _) as [[cfg| |] ev]; try reflexivity.
  destruct (_ =? 6).
  - rewrite !totp_loop. destruct (first_hit _ _ _) as [z|]; [|reflexivity].
    pose proof (leave_local r fs1 fs2 user password
                  (LogGranted user (u32 (apr_atoi64 password)))
                  (LogGranted user (u32 (apr_atoi64 password)))
                  ((EvLog (LogBasicAuth (get_timestamp r) user password)
                      :: ev ++ [EvLog (LogSecretKey (shared_key cfg))])
                   ++ map (validating (get_timestamp r)
                             (u32 (apr_atoi64 password)) (candidate r cfg))
                        (seqZ (- window_size cfg) (z + window_size cfg + 1)))
                  ((EvLog (LogBasicAuth (get_timestamp r) user password)
                      :: ev ++ [EvLog (LogSecretKey (shared_key cfg))])
                   ++ map (validating (get_timestamp r)
                             (u32 (apr_atoi64 password)) (candidate r cfg))
                        (seqZ (- window_size cfg) (z + window_size cfg + 1)))
                  Hsame) as Hl.
    simpl in Hl |- *.
    destruct (leave r fs1 _ _ _ _) as [[[] ?] ?];
      destruct (leave r fs2 _ _ _ _) as [[[] ?] ?]; simpl in *;
      congruence.
  - rewrite !scratch_loop. destruct (first_hit _ _ _) as [z|]; [|reflexivity].
    pose proof (leave_local r fs1 fs2 user password
                  (LogGrantedScratch user (u32 (apr_atoi64 password)))
                  (LogGrantedScratch user (u32 (apr_atoi64 password)))
                  ((EvLog (LogBasicAuth (get_timestamp r) user password)
                      :: ev ++ [EvLog (LogSecretKey (shared_key cfg))])
                   ++ map (validating_scratch (u32 (apr_atoi64 password))
                             (scratch_codes cfg)) (seqZ 0 (z + 1)))
                  ((EvLog (LogBasicAuth (get_timestamp r) user password)
                      :: ev ++ [EvLog (LogSecretKey (shared_key cfg))])
                   ++ map (validating_scratch (u32 (apr_atoi64 password))
                             (scratch_codes cfg)) (seqZ 0 (z + 1)))
                  Hsame) as Hl.
    simpl in Hl |- *.
    destruct (leave r fs1 _ _ _ _) as [[[] ?] ?];
      destruct (leave r fs2 _ _ _ _) as [[[] ?] ?]; simpl in *;
      congruence.
Qed.

End StateFacts.

(** X5.  What the password check does to the state directory, for every
    request: the answer is Granted or Denied (or the loader has run into
    undefined behaviour); unless the answer is Granted the directory is
    left as it is; a Granted attempt has found the state directory
    configured and the marker of its user and password absent, and leaves
    that one file, empty, in addition.  Without a state directory no
    attempt is Granted. *)
Theorem password_check_effect {L : Totp.Libs} (r : Totp.request_rec)
    (fs : gmap string (list Z)) (user password : string) :
  let result := Totp.authn_totp_check_password r fs user password in
  (fst (fst result) = Totp.Verdict Totp.AUTH_GRANTED
   \/ fst (fst result) = Totp.Verdict Totp.AUTH_DENIED
   \/ fst (fst result) = Totp.Undef)
  /\ (fst (fst result) <> Totp.Verdict Totp.AUTH_GRANTED ->
      snd (fst result) = fs)
  /\ (fst (fst result) = Totp.Verdict Totp.AUTH_GRANTED ->
      exists dir,
        Totp.stateDir (Totp.per_dir_config r) = Some dir
        /\ fs !! Totp.code_filepath dir user password = None
        /\ snd (fst result)
           = <[Totp.code_filepath dir user password := []]> fs)
  /\ (Totp.stateDir (Totp.per_dir_config r) = None ->
      fst (fst result) <> Totp.Verdict Totp.AUTH_GRANTED).
Proof.
  intros result. subst result.
  destruct (Totp.authn_totp_check_password r fs user password)
    as [[o fs'] tr] eqn:H. simpl.
  pose proof (check_password_shape r fs user password o fs' tr H) as Hshape.
  split; [|split; [|split]].
  - destruct Hshape as [[_ [->|[-> _]]]|[-> _]]; auto.
  - intros Hne. destruct Hshape as [[-> _]|[-> _]]; [reflexivity|].
    contradiction.
  - intros ->. eapply granted_leaves_marker. exact H.
  - intros Hdir ->. apply granted_leaves_marker in H as (dir & Hdir' & _).
    congruence.
Qed.

(** X6.  Markers do not collide: for user names of letters and digits,
    the marker file of one user and password is the marker of no other
    pair.  So an attempt of one user, whatever its outcome, does not
    change the answer to another user or to another password of the same
    user (one state directory). *)
Theorem markers_do_not_interfere {L : Totp.Libs} (r r' : Totp.request_rec)
    (fs : gmap string (list Z)) (user password user' password' : string) :
  CStr.first_bad CStr.apr_isalnum user = None ->
  CStr.first_bad CStr.apr_isalnum user' = None ->
  (user, password) <> (user', password') ->
  Totp.stateDir (Totp.per_dir_config r')
    = Totp.stateDir (Totp.per_dir_config r) ->
  (forall dir,
      Totp.code_filepath dir user password
      <> Totp.code_filepath dir user' password')
  /\ fst (fst (Totp.authn_totp_check_password r
                 (snd (fst (Totp.authn_totp_check_password r' fs
                              user' password')))
                 user password))
     = fst (fst (Totp.authn_totp_check_password r fs user password)).
Proof.
  intros Hu Hu' Hne Hdir.
  assert (Hpaths : forall dir,
            Totp.code_filepath dir user password
            <> Totp.code_filepath dir user' password').
  { intros dir Heq. apply Hne.
    apply code_filepath_inj in Heq as [-> ->]; auto. }
  split; [exact Hpaths|].
  apply check_password_local. intros dir Hd.
  destruct (Totp.authn_totp_check_password r' fs user' password')
    as [[o fs'] tr] eqn:H. simpl.
  apply check_password_shape in H as [[-> _]|[_ [e He]]]; [reflexivity|].
  apply mark_code_invalid_true in He as (dir' & Hd' & _ & ->).
  assert (dir' = dir) by congruence. subst dir'.
  rewrite lookup_insert_ne; [reflexivity|]. intros Heq.
  exact (Hpaths dir (eq_sym Heq)).
Qed.

Lemma markers_do_not_interfere_witness :
  fst (fst (@Totp.authn_totp_check_password Demo.libs (Demo.request 59)
              (snd (fst (@Totp.authn_totp_check_password Demo.libs
                           (Demo.request 59) ∅ "alice" "11112222")))
              "alice" "287082"))
  = fst (fst (@Totp.authn_totp_check_password Demo.libs (Demo.request 59) ∅
                "alice" "287082")).
Proof.
  refine (proj2 (@markers_do_not_interfere Demo.libs (Demo.request 59)
                   (Demo.request 59) ∅ "alice" "287082" "alice" "11112222"
                   _ _ _ _)).
  - reflexivity.
  - reflexivity.
  - discriminate.
  - reflexivity.
Defined.

(** X7.  The two kinds of password do not meet.  An attempt with eight
    digits depends on the record through its scratch codes only and not
    on the time: at any other time and with any other secret and window
    the answer and the state directory are the same.  An attempt with six
    digits does not depend on the scratch codes. *)
Theorem paths_are_separate {L : Totp.Libs} (r : Totp.request_rec)
    (now' : Z) (store' : string -> option (list string))
    (fs : gmap string (list Z)) (user password : string)
    (cfg cfg' : Totp.totp_user_config) (ev ev' : list Totp.event) :
  CStr.first_bad CStr.apr_isalnum user = None ->
  CStr.first_bad CStr.apr_isdigit password = None ->
  Totp.get_user_totp_config (Totp.token_files r) (Totp.per_dir_config r) user
    = (Totp.Loaded cfg, ev) ->
  Totp.get_user_totp_config store' (Totp.per_dir_config r) user
    = (Totp.Loaded cfg', ev') ->
  (String.length password = 8%nat ->
   Totp.scratch_codes cfg' = Totp.scratch_codes cfg ->
   Totp.scratch_codes_count cfg' = Totp.scratch_codes_count cfg ->
   fst (Totp.authn_totp_check_password (Host.elsewhen r now' store') fs
          user password)
   = fst (Totp.authn_totp_check_password r fs user password))
  /\ (String.length password = 6%nat ->
      now' = Totp.apr_time_now r ->
      Totp.shared_key cfg' = Totp.shared_key cfg ->
      Totp.window_size cfg' = Totp.window_size cfg ->
      fst (Totp.authn_totp_check_password (Host.elsewhen r now' store') fs
             user password)
      = fst (Totp.authn_totp_check_password r fs user password)).
Proof.
  intros Huser Hdigits Hload Hload'.
  assert (Hadm : forall g g' tr tr',
    fst (CheckSpec.admission (Host.elsewhen r now' store') fs user password
           g tr)
    = fst (CheckSpec.admission r fs user password g' tr')).
  { intros. unfold CheckSpec.admission.
    change (Totp.mark_code_invalid (Host.elsewhen r now' store')
              (Totp.per_dir_config (Host.elsewhen r now' store')))
      with (Totp.mark_code_invalid r (Totp.per_dir_config r)).
    destruct (Totp.mark_code_invalid r _ fs user password) as [[[] ?] ?];
      reflexivity. }
  split.
  - intros Hlen Hcodes Hcount.
    rewrite (check_password_scratch (Host.elsewhen r now' store') fs user
               password cfg' ev' Huser (password_len_8 _ Hlen) Hdigits Hload').
    rewrite (check_password_scratch r fs user password cfg ev Huser
               (password_len_8 _ Hlen) Hdigits Hload).
    rewrite Hcodes, Hcount.
    destruct (first_hit _ _ _) as [i|]; [apply Hadm | reflexivity].
  - intros Hlen -> Hkey Hwin.
    rewrite (check_password_totp (Host.elsewhen r _ store') fs user
               password cfg' ev' Huser (password_len_6 _ Hlen) Hdigits Hload').
    rewrite (check_password_totp r fs user password cfg ev Huser
               (password_len_6 _ Hlen) Hdigits Hload).
    rewrite Hwin.
    rewrite (first_hit_ext
               (fun k => CheckSpec.candidate (Host.elsewhen r _ store') cfg' k
                         =? Word.u32 (CStr.apr_atoi64 password))
               (fun k => CheckSpec.candidate r cfg k
                         =? Word.u32 (CStr.apr_atoi64 password)))
      by (intros k; unfold CheckSpec.candidate, Totp.key_bytes;
          rewrite Hkey; reflexivity).
    destruct (first_hit _ _ _) as [k|]; [apply Hadm | reflexivity].
Qed.

Lemma paths_are_separate_witness :
  fst (@Totp.authn_totp_check_password Demo.libs
         (Host.elsewhen (Demo.request 59) 987654321000000 Demo.plain_store)
         ∅ "alice" "11112222")
  = fst (@Totp.authn_totp_check_password Demo.libs (Demo.request 59) ∅
           "alice" "11112222").
Proof.
  refine (proj1 (@paths_are_separate Demo.libs (Demo.request 59)
                   987654321000000 Demo.plain_store ∅ "alice" "11112222"
                   Demo.alice_config (Demo.config_of Demo.plain_store)
                   Demo.alice_events (Demo.events_of Demo.plain_store)
                   _ _ _ _) _ _ _).
  all: try reflexivity.
  all: vm_compute; reflexivity.
Defined.

(** X8.  A scratch code of the record is good once, at any time: an
    attempt with eight digits whose number is among the scratch codes in
    use is Granted when its marker can be created, whatever the time and
    the window, and leaves the marker; any later attempt with the same
    user and password is Denied (same state directory, the loader
    returning). *)
Theorem scratch_code_once {L : Totp.Libs} (r r2 : Totp.request_rec)
    (fs : gmap string (list Z)) (user password dir : string)
    (cfg : Totp.totp_user_config) (ev : list Totp.event) (i : Z)
    (between : list Totp.call) :
  CStr.first_bad CStr.apr_isalnum user = None ->
  String.length password = 8%nat ->
  CStr.first_bad CStr.apr_isdigit password = None ->
  Totp.get_user_totp_config (Totp.token_files r) (Totp.per_dir_config r) user
    = (Totp.Loaded cfg, ev) ->
  0 <= i < Totp.scratch_codes_count cfg ->
  nth (Z.to_nat i) (Totp.scratch_codes cfg) 0
    = Word.u32 (CStr.apr_atoi64 password) ->
  Totp.stateDir (Totp.per_dir_config r) = Some dir ->
  Totp.create_error r (Totp.code_filepath dir user password) = false ->
  fs !! Totp.code_filepath dir user password = None ->
  fst (Totp.authn_totp_check_password r fs user password)
    = (Totp.Verdict Totp.AUTH_GRANTED,
       <[Totp.code_filepath dir user password := []]> fs)
  /\ (Totp.stateDir (Totp.per_dir_config r2) = Some dir ->
      fst (Totp.get_user_totp_config (Totp.token_files r2)
             (Totp.per_dir_config r2) user) <> Totp.LoadUndefined ->
      fst (fst (Totp.authn_totp_check_password r2
                  (Totp.serve_all
                     (<[Totp.code_filepath dir user password := []]> fs)
                     between)
                  user password))
      = Totp.Verdict Totp.AUTH_DENIED).
Proof.
  intros Huser Hlen Hdigits Hload Hi Hcode Hdir Herr Hfree. split.
  - rewrite (check_password_scratch r fs user password cfg ev Huser
               (password_len_8 _ Hlen) Hdigits Hload).
    destruct (first_hit_exists
                (fun j => nth (Z.to_nat j) (Totp.scratch_codes cfg) 0
                          =? Word.u32 (CStr.apr_atoi64 password))
                0 (Z.to_nat (Totp.scratch_codes_count cfg)) i)
      as (i0 & -> & _); [lia | apply Z.eqb_eq, Hcode |].
    unfold CheckSpec.admission.
    rewrite (mark_code_invalid_free _ _ _ _ _ Hdir Herr Hfree). reflexivity.
  - intros Hdir2 Hdef.
    apply (marker_blocks r2 _ user password dir Hdir2); [|exact Hdef].
    apply serve_all_keeps. rewrite lookup_insert_eq. eauto.
Qed.

Lemma scratch_code_once_witness :
  fst (@Totp.authn_totp_check_password Demo.libs (Demo.request 123456) ∅
         "alice" "33334444")
  = (Totp.Verdict Totp.AUTH_GRANTED,
     <["/state/alice-c33334444"%string := []]> ∅).
Proof.
  refine (proj1 (@scratch_code_once Demo.libs (Demo.request 123456)
                   (Demo.request 123457) ∅ "alice" "33334444" "/state"
                   Demo.alice_config Demo.alice_events 1 [] _ _ _ _ _ _ _ _ _)).
  all: try (vm_compute; reflexivity).
  vm_compute. split; [discriminate | reflexivity].
Defined.

(** ** Records as the loaders leave them *)

Section RecordFacts.
Import Word CStr Totp LoaderSpec RecordSpec.
Context {L : Libs}.

Lemma macros_bounds lo hi x :
  lo <= hi -> lo <= c_max lo (c_min x hi) <= hi.
Proof.
  intros Hle. unfold c_max, c_min. rewrite Z.gtb_ltb.
  destruct (Z.ltb_spec x hi); [destruct (Z.ltb_spec x lo)
                              | destruct (Z.ltb_spec hi lo)]; lia.
Qed.

Lemma u8_small x : 0 <= x <= 32 -> u8 x = x.
Proof. intros H. unfold u8, wrap. apply Z.mod_small. lia. Qed.

(** The loop of a loader keeps what each of its turns keeps. *)
Lemma read_loop_invariant
    (step : totp_user_config -> string -> step_result * list log_msg)
    (P : totp_user_config -> Prop) :
  (forall c line c' l, P c -> step c line = (Continue c', l) -> P c') ->
  forall lines c c' log,
    P c -> read_loop step lines c = (Loaded c', log) -> P c'.
Proof.
  intros Hstep lines. induction lines as [|line rest IH]; intros c c' log Hc.
  - simpl. intros [= <- _]. exact Hc.
  - simpl. destruct (step c line) as [[c1| |] l] eqn:Hs; try discriminate.
    destruct (read_loop step rest c1) as [r1 l1] eqn:Hr.
    intros [= -> _]. eapply IH; [|exact Hr]. eapply Hstep; eassumption.
Qed.

Ltac range_kept :=
  intros [= <- _]; unfold policy_in_range, well_formed in *;
  cbn [window_size rate_limit_count rate_limit_seconds scratch_codes
       scratch_codes_count set_disallow_reuse set_shared_key set_window_size
       set_rate_limit_count set_rate_limit_seconds];
  lia.

Ltac range_bound lo hi :=
  match goal with
  | |- context [c_max lo (c_min ?x hi)] =>
      generalize (macros_bounds lo hi x ltac:(lia));
      generalize (c_max lo (c_min x hi)); intros ? ?
  end.

Lemma process_line_range c line c' l :
  policy_in_range 30 c -> process_line c line = (Continue c', l) ->
  policy_in_range 30 c'.
Proof.
  intros Hinv. unfold process_line.
  destruct line as [|c0 rest]; [range_kept|].
  destruct (Ascii.eqb c0 QUOTE).
  - destruct rest as [|c1 body]; [discriminate|].
    destruct (apr_strtok SEP body) as [[token last]|]; [|range_kept].
    destruct (apr_strnatcmp_is0 token "DISALLOW_REUSE"); [range_kept|].
    destruct (apr_strnatcmp_is0 token "WINDOW_SIZE").
    { unfold window_size_directive.
      destruct (apr_strtok SEP last) as [[v ?]|]; [|discriminate].
      destruct (validate_digits _ _ _) as [[t|] lg]; [|range_kept].
      rewrite u8_small by (apply macros_bounds; lia).
      range_bound 0 32. range_kept. }
    destruct (apr_strnatcmp_is0 token "RATE_LIMIT"); [|range_kept].
    unfold rate_limit_directive.
    destruct (apr_strtok SEP last) as [[v last1]|]; [|discriminate].
    destruct (validate_digits RateLimitCount _ _) as [[t|] lg];
      (destruct (apr_strtok SEP last1) as [[v2 ?]|]; [|discriminate]);
      destruct (validate_digits RateLimitSeconds _ _) as [[t2|] lg2];
      try range_bound 0 5; try range_bound 30 300; range_kept.
  - destruct (shared_key c) eqn:Hkey.
    + destruct (validate_scratch _ _ _) as [[t|] lg]; [|range_kept].
      destruct (Z.ltb_spec (scratch_codes_count c) 10); [|range_kept].
      intros [= <- _]. destruct Hinv as (Hw & Hc & Hs & Hwf).
      destruct (kept_codes_push c (u32 (apr_atoi64 t)) Hwf ltac:(lia))
        as [Hwf' _].
      exact (conj Hw (conj Hc (conj Hs Hwf'))).
    + destruct (base32_decode _ _); range_kept.
Qed.

Lemma read_process_line_range c line c' l :
  policy_in_range 0 c -> Utils.read_process_line c line = (Continue c', l) ->
  policy_in_range 0 c'.
Proof.
  intros Hinv. unfold Utils.read_process_line.
  destruct line as [|c0 rest]; [range_kept|].
  destruct (Ascii.eqb c0 QUOTE).
  - destruct rest as [|c1 body]; [discriminate|].
    destruct (apr_strtok SEP body) as [[token last]|]; [|range_kept].
    destruct (apr_strnatcmp_is0 token "DISALLOW_REUSE"); [range_kept|].
    destruct (apr_strnatcmp_is0 token "WINDOW_SIZE").
    { unfold Utils.read_window_size.
      destruct (apr_strtok SEP last) as [[v ?]|]; [|discriminate].
      destruct (Utils.is_digit_str v); [range_kept|].
      rewrite u8_small by (apply macros_bounds; lia).
      range_bound 0 32. range_kept. }
    destruct (apr_strnatcmp_is0 token "RATE_LIMIT"); [|range_kept].
    unfold Utils.read_rate_limit.
    destruct (apr_strtok SEP last) as [[v last1]|]; [|discriminate].
    destruct (Utils.is_digit_str v);
      (destruct (apr_strtok SEP last1) as [[v2 ?]|]; [|discriminate]);
      destruct (Utils.is_digit_str v2);
      try range_bound 0 5; try range_bound 0 300; range_kept.
  - destruct (shared_key c) eqn:Hkey.
    + destruct (Utils.is_digit_str _); [range_kept|].
      destruct (Z.ltb_spec (scratch_codes_count c) 10); [|range_kept].
      intros [= <- _]. destruct Hinv as (Hw & Hc & Hs & Hwf).
      destruct (kept_codes_push c (u32 (apr_atoi64 (String c0 rest))) Hwf
                  ltac:(lia)) as [Hwf' _].
      exact (conj Hw (conj Hc (conj Hs Hwf'))).
    + destruct (apr_pdecode_base32 _); range_kept.
Qed.

Lemma zero_config_in_range low : policy_in_range low zero_config.
Proof.
  unfold policy_in_range, well_formed. simpl. repeat split; auto; lia.
Qed.

End RecordFacts.

(** X9.  Every record that [get_user_totp_config] returns is within the
    bounds of the policy, whatever the file holds: the window is between 0
    and 32, the rate-limit count between 0 and 5, the rate-limit seconds
    are 0 (no directive has set them) or between 30 and 300, and between 0
    and 10 of the ten scratch entries are in use. *)
Theorem loaded_record_in_range {L : Totp.Libs} (store : Totp.token_store)
    (conf : Totp.totp_auth_config_rec) (user : string)
    (c : Totp.totp_user_config) (ev : list Totp.event) :
  Totp.get_user_totp_config store conf user = (Totp.Loaded c, ev) ->
  0 <= Totp.window_size c <= 32
  /\ 0 <= Totp.rate_limit_count c <= 5
  /\ (Totp.rate_limit_seconds c = 0
      \/ 30 <= Totp.rate_limit_seconds c <= 300)
  /\ length (Totp.scratch_codes c) = 10%nat
  /\ 0 <= Totp.scratch_codes_count c <= 10.
Proof.
  unfold Totp.get_user_totp_config.
  destruct (Totp.tokenDir conf) as [dir|]; [|discriminate].
  destruct (store _) as [lines|]; [|discriminate].
  destruct (Totp.read_lines lines Totp.zero_config) as [res log] eqn:Hread.
  intros [= -> _]. rewrite read_lines_loop in Hread.
  pose proof (read_loop_invariant Totp.process_line
                (RecordSpec.policy_in_range 30) process_line_range
                lines _ _ _ (zero_config_in_range 30) Hread)
    as (Hw & Hc & Hs & Hlen & Hcount).
  auto.
Qed.

Lemma loaded_record_in_range_witness :
  0 <= Totp.window_size Demo.alice_config <= 32.
Proof.
  refine (proj1 (@loaded_record_in_range Demo.libs Demo.store Demo.conf
                   "alice" Demo.alice_config Demo.alice_events _)).
  vm_compute. reflexivity.
Defined.

(** X10.  Every record that [totp_read_user_config] returns has its
    window between 0 and 32, its rate-limit count between 0 and 5, its
    rate-limit seconds between 0 and 300, and between 0 and 10 of the ten
    scratch entries in use. *)
Theorem read_record_in_range {L : Totp.Libs} (store : Totp.token_store)
    (user token_dir : string) (c : Totp.totp_user_config)
    (ev : list Totp.event) :
  Utils.totp_read_user_config store user token_dir = (Totp.Loaded c, ev) ->
  0 <= Totp.window_size c <= 32
  /\ 0 <= Totp.rate_limit_count c <= 5
  /\ 0 <= Totp.rate_limit_seconds c <= 300
  /\ length (Totp.scratch_codes c) = 10%nat
  /\ 0 <= Totp.scratch_codes_count c <= 10.
Proof.
  unfold Utils.totp_read_user_config.
  destruct (store _) as [lines|]; [|discriminate].
  destruct (Utils.read_config_lines lines Totp.zero_config)
    as [res log] eqn:Hread.
  intros [= -> _]. rewrite read_config_lines_loop in Hread.
  pose proof (read_loop_invariant Utils.read_process_line
                (RecordSpec.policy_in_range 0) read_process_line_range
                lines _ _ _ (zero_config_in_range 0) Hread)
    as (Hw & Hc & Hs & Hlen & Hcount).
  repeat split; try assumption; lia.
Qed.

Lemma read_record_in_range_witness :
  0 <= Totp.rate_limit_seconds
         (match fst (@Utils.totp_read_user_config Demo.libs Demo.store
                       "alice" "/tokens") with
          | Totp.Loaded c => c
          | _ => Totp.zero_config
          end) <= 300.
Proof.
  refine (proj1 (proj2 (proj2
    (@read_record_in_range Demo.libs Demo.store "alice" "/tokens" _
       (snd (@Utils.totp_read_user_config Demo.libs Demo.store
               "alice" "/tokens")) _)))).
  vm_compute. reflexivity.
Defined.

(** ** Lines that a loader passes over, and the two loaders side by side *)

Section LineFacts.
Import Word CStr Totp LoaderSpec RecordSpec.
Context {L : Libs}.

Lemma read_loop_skip
    (step : totp_user_config -> string -> step_result * list log_msg)
    (line : string) :
  (forall c, fst (step c line) = Continue c) ->
  forall before after c,
    fst (read_loop step (before ++ line :: after) c)
    = fst (read_loop step (before ++ after) c).
Proof.
  intros Hskip before after. induction before as [|b rest IH]; intros c.
  - cbn [app read_loop]. specialize (Hskip c).
    destruct (step c line) as [r l]. simpl in Hskip. subst r.
    destruct (read_loop step after c). reflexivity.
  - cbn [app read_loop]. destruct (step c b) as [[c1| |] l]; try reflexivity.
    specialize (IH c1).
    destruct (read_loop step (rest ++ line :: after) c1),
             (read_loop step (rest ++ after) c1).
    exact IH.
Qed.

Lemma process_line_inert c line :
  inert line = true -> fst (process_line c line) = Continue c.
Proof.
  destruct line as [|c0 [|c1 body]]; [reflexivity|discriminate|].
  cbn [inert process_line]. intros H. apply andb_true_iff in H as [-> H].
  destruct (apr_strtok SEP body) as [[token last]|]; [|reflexivity].
  apply andb_true_iff in H as [H H3]. apply andb_true_iff in H as [H1 H2].
  apply negb_true_iff in H1, H2, H3. rewrite H1, H2, H3. reflexivity.
Qed.

Lemma read_process_line_inert c line :
  inert line = true -> fst (Utils.read_process_line c line) = Continue c.
Proof.
  destruct line as [|c0 [|c1 body]]; [reflexivity|discriminate|].
  cbn [inert Utils.read_process_line]. intros H.
  apply andb_true_iff in H as [-> H].
  destruct (apr_strtok SEP body) as [[token last]|]; [|reflexivity].
  apply andb_true_iff in H as [H H3]. apply andb_true_iff in H as [H1 H2].
  apply negb_true_iff in H1, H2, H3. rewrite H1, H2, H3. reflexivity.
Qed.

(** The flag of a record after one turn of a loop. *)
Lemma process_line_flag c line c' l :
  process_line c line = (Continue c', l) ->
  disallow_reuse c' = disallow_reuse c || disallows_reuse line.
Proof.
  unfold process_line, disallows_reuse, directive_token.
  destruct line as [|c0 rest];
    [intros [= <- _]; symmetry; apply orb_false_r|].
  destruct (Ascii.eqb c0 QUOTE).
  - destruct rest as [|c1 body]; [discriminate|].
    destruct (apr_strtok SEP body) as [[token last]|];
      [|intros [= <- _]; symmetry; apply orb_false_r].
    destruct (apr_strnatcmp_is0 token "DISALLOW_REUSE");
      [intros [= <- _]; symmetry; apply orb_true_r|].
    rewrite orb_false_r.
    destruct (apr_strnatcmp_is0 token "WINDOW_SIZE").
    { unfold window_size_directive.
      destruct (apr_strtok SEP last) as [[v ?]|]; [|discriminate].
      destruct (validate_digits _ _ _) as [[t|] lg]; intros [= <- _];
        reflexivity. }
    destruct (apr_strnatcmp_is0 token "RATE_LIMIT");
      [|intros [= <- _]; reflexivity].
    unfold rate_limit_directive.
    destruct (apr_strtok SEP last) as [[v last1]|]; [|discriminate].
    destruct (validate_digits RateLimitCount _ _) as [[t|] lg];
      (destruct (apr_strtok SEP last1) as [[v2 ?]|]; [|discriminate]);
      destruct (validate_digits RateLimitSeconds _ _) as [[t2|] lg2];
      intros [= <- _]; reflexivity.
  - destruct rest as [|c1 body]; rewrite orb_false_r;
      (destruct (shared_key c);
       [ destruct (validate_scratch _ _ _) as [[t|] lg];
         [destruct (scratch_codes_count c <? 10)|];
         intros [= <- _]; reflexivity
       | destruct (base32_decode _ _); intros [= <- _]; reflexivity ]).
Qed.

Lemma read_process_line_flag c line c' l :
  Utils.read_process_line c line = (Continue c', l) ->
  disallow_reuse c' = disallow_reuse c || disallows_reuse line.
Proof.
  unfold Utils.read_process_line, disallows_reuse, directive_token.
  destruct line as [|c0 rest];
    [intros [= <- _]; symmetry; apply orb_false_r|].
  destruct (Ascii.eqb c0 QUOTE).
  - destruct rest as [|c1 body]; [discriminate|].
    destruct (apr_strtok SEP body) as [[token last]|];
      [|intros [= <- _]; symmetry; apply orb_false_r].
    destruct (apr_strnatcmp_is0 token "DISALLOW_REUSE");
      [intros [= <- _]; symmetry; apply orb_true_r|].
    rewrite orb_false_r.
    destruct (apr_strnatcmp_is0 token "WINDOW_SIZE").
    { unfold Utils.read_window_size.
      destruct (apr_strtok SEP last) as [[v ?]|]; [|discriminate].
      destruct (Utils.is_digit_str v); intros [= <- _]; reflexivity. }
    destruct (apr_strnatcmp_is0 token "RATE_LIMIT");
      [|intros [= <- _]; reflexivity].
    unfold Utils.read_rate_limit.
    destruct (apr_strtok SEP last) as [[v last1]|]; [|discriminate].
    destruct (Utils.is_digit_str v);
      (destruct (apr_strtok SEP last1) as [[v2 ?]|]; [|discriminate]);
      destruct (Utils.is_digit_str v2);
      intros [= <- _]; reflexivity.
  - destruct rest as [|c1 body]; rewrite orb_false_r;
      (destruct (shared_key c);
       [ destruct (Utils.is_digit_str _);
         [|destruct (scratch_codes_count c <? 10)];
         intros [= <- _]; reflexivity
       | destruct (apr_pdecode_base32 _); intros [= <- _]; reflexivity ]).
Qed.

Lemma read_loop_flag
    (step : totp_user_config -> string -> step_result * list log_msg) :
  (forall c line c' l, step c line = (Continue c', l) ->
     disallow_reuse c' = disallow_reuse c || disallows_reuse line) ->
  forall lines c c' log,
    read_loop step lines c = (Loaded c', log) ->
    disallow_reuse c' = disallow_reuse c || existsb disallows_reuse lines.
Proof.
  intros Hstep lines. induction lines as [|line rest IH]; intros c c' log.
  - simpl. intros [= <- _]. symmetry. apply orb_false_r.
  - simpl. destruct (step c line) as [[c1| |] l] eqn:Hs; try discriminate.
    destruct (read_loop step rest c1) as [r1 l1] eqn:Hr.
    intros [= -> _]. rewrite (IH _ _ _ Hr), (Hstep _ _ _ _ Hs).
    symmetry. apply orb_assoc.
Qed.

(** The two loops side by side. *)
Lemma seconds_alike a :
  0 <= a ->
  c_max 30 (c_min a 300) = c_max 0 (c_min a 300)
  \/ (0 <= c_max 0 (c_min a 300) < 30 /\ c_max 30 (c_min a 300) = 30).
Proof.
  intros Ha. unfold c_max, c_min. rewrite !Z.gtb_ltb.
  destruct (Z.ltb_spec a 300).
  - destruct (Z.ltb_spec a 30), (Z.ltb_spec a 0); lia.
  - simpl. lia.
Qed.

Lemma apr_atoi64_nonneg v : all_digits v = true -> 0 <= apr_atoi64 v.
Proof.
  intros H. rewrite (apr_atoi64_digits v H).
  pose proof (digits_value_ge 0 v ltac:(lia)). unfold decimal, INT64_MAX.
  lia.
Qed.

Ltac alike_fields :=
  unfold agree_but_seconds in *;
  cbn [shared_key disallow_reuse window_size rate_limit_count
       rate_limit_seconds scratch_codes scratch_codes_count
       set_disallow_reuse set_shared_key set_window_size
       set_rate_limit_count set_rate_limit_seconds push_scratch_code];
  match goal with
  | H : _ /\ _ /\ _ /\ _ /\ _ /\ _ /\ _ |- _ =>
      destruct H as (? & ? & ? & ? & ? & ? & ?)
  end;
  repeat split; try congruence; auto.

Lemma lines_alike cm cu line :
  (forall s, base32_decode s (strlen s) = apr_pdecode_base32 s) ->
  agree_but_seconds cm cu ->
  step_alike (fst (process_line cm line))
             (fst (Utils.read_process_line cu line)).
Proof.
  intros Hdec Hag. unfold process_line, Utils.read_process_line.
  destruct line as [|c0 rest]; [exact Hag|].
  destruct (Ascii.eqb c0 QUOTE).
  - destruct rest as [|c1 body]; [exact I|].
    destruct (apr_strtok SEP body) as [[token last]|]; [|exact Hag].
    destruct (apr_strnatcmp_is0 token "DISALLOW_REUSE");
      [cbn [fst step_alike]; alike_fields|].
    destruct (apr_strnatcmp_is0 token "WINDOW_SIZE").
    { unfold window_size_directive, Utils.read_window_size.
      destruct (apr_strtok SEP last) as [[v ?]|]; [|exact I].
      destruct (validate_digits_result WindowSize v v) as (lg & -> & _).
      unfold Utils.is_digit_str, all_digits.
      destruct (first_bad apr_isdigit v); cbn [fst step_alike];
        [exact Hag | alike_fields]. }
    destruct (apr_strnatcmp_is0 token "RATE_LIMIT"); [|exact Hag].
    unfold rate_limit_directive, Utils.read_rate_limit.
    destruct (apr_strtok SEP last) as [[v last1]|]; [|exact I].
    destruct (validate_digits_result RateLimitCount v v) as (lg & -> & _).
    unfold Utils.is_digit_str.
    assert (Hv : all_digits v
                 = match first_bad apr_isdigit v with
                   | None => true | Some _ => false end) by reflexivity.
    destruct (first_bad apr_isdigit v); rewrite Hv;
      (destruct (apr_strtok SEP last1) as [[v2 ?]|]; [|exact I]);
      destruct (validate_digits_result RateLimitSeconds v2 v2)
        as (lg2 & -> & _);
      pose proof (apr_atoi64_nonneg v2) as Hpos;
      unfold all_digits in *;
      destruct (first_bad apr_isdigit v2); cbn [fst step_alike];
      try (pose proof (seconds_alike _ (Hpos eq_refl))); alike_fields.
  - pose proof Hag as (Hkey & _ & _ & _ & _ & Hcount & _).
    rewrite Hkey, Hcount. clear Hkey Hcount.
    destruct (shared_key cu).
    + set (line := String c0 rest).
      pose proof (validate_scratch_result line line line) as (Hres & _).
      destruct (validate_scratch line line (Some line)) as [tok lg].
      simpl in Hres. subst tok. unfold Utils.is_digit_str, all_digits.
      destruct (first_bad apr_isdigit line); [exact Hag|].
      destruct (scratch_codes_count cu <? 10); [|exact Hag].
      cbn [fst step_alike]. alike_fields.
    + rewrite Hdec.
      destruct (apr_pdecode_base32 _); [|exact I].
      cbn [fst step_alike]. alike_fields.
Qed.

Lemma loops_alike :
  (forall s, base32_decode s (strlen s) = apr_pdecode_base32 s) ->
  forall lines cm cu,
    agree_but_seconds cm cu ->
    loaded_alike (fst (read_loop process_line lines cm))
                 (fst (read_loop Utils.read_process_line lines cu)).
Proof.
  intros Hdec lines. induction lines as [|line rest IH]; intros cm cu Hag.
  - exact Hag.
  - cbn [read_loop]. pose proof (lines_alike cm cu line Hdec Hag) as Hs.
    destruct (process_line cm line) as [[cm1| |] lm],
             (Utils.read_process_line cu line) as [[cu1| |] lu];
      cbn [fst step_alike] in Hs; try contradiction; try exact I.
    specialize (IH cm1 cu1 Hs).
    destruct (read_loop process_line rest cm1),
             (read_loop Utils.read_process_line rest cu1).
    exact IH.
Qed.

End LineFacts.

(** X11.  A blank line, a comment line and a directive that names none
    of [DISALLOW_REUSE], [WINDOW_SIZE] and [RATE_LIMIT] change nothing in
    what either loader returns: the file with such a line at any place
    loads as the file without it. *)
Theorem inert_lines_ignored {L : Totp.Libs} (store store' : Totp.token_store)
    (conf : Totp.totp_auth_config_rec) (dir user : string)
    (before after : list string) (line : string) :
  Totp.tokenDir conf = Some dir ->
  store (dir +:+ "/" +:+ user) = Some (before ++ line :: after) ->
  store' (dir +:+ "/" +:+ user) = Some (before ++ after) ->
  RecordSpec.inert line = true ->
  fst (Totp.get_user_totp_config store conf user)
  = fst (Totp.get_user_totp_config store' conf user)
  /\ fst (Utils.totp_read_user_config store user dir)
     = fst (Utils.totp_read_user_config store' user dir).
Proof.
  intros Hdir Hs Hs' Hin.
  unfold Totp.get_user_totp_config, Utils.totp_read_user_config.
  rewrite Hdir, Hs, Hs', !read_lines_loop, !read_config_lines_loop.
  pose proof (read_loop_skip Totp.process_line line
                (fun c => process_line_inert c line Hin)
                before after Totp.zero_config) as Hm.
  pose proof (read_loop_skip Utils.read_process_line line
                (fun c => read_process_line_inert c line Hin)
                before after Totp.zero_config) as Hu.
  destruct (LoaderSpec.read_loop Totp.process_line (before ++ line :: after) _),
           (LoaderSpec.read_loop Totp.process_line (before ++ after) _),
           (LoaderSpec.read_loop Utils.read_process_line
              (before ++ line :: after) _),
           (LoaderSpec.read_loop Utils.read_process_line (before ++ after) _).
  split; assumption.
Qed.

Lemma inert_lines_ignored_witness :
  fst (@Totp.get_user_totp_config Demo.libs
         (Demo.store_with
            ([Demo.directive "WINDOW_SIZE 1"]
             ++ Demo.directive "NO_SUCH_OPTION 7" :: Demo.record []))
         Demo.conf "alice")
  = fst (@Totp.get_user_totp_config Demo.libs
           (Demo.store_with ([Demo.directive "WINDOW_SIZE 1"] ++ Demo.record []))
           Demo.conf "alice").
Proof.
  refine (proj1 (@inert_lines_ignored Demo.libs _ _ Demo.conf "/tokens"
                   "alice" [Demo.directive "WINDOW_SIZE 1"] (Demo.record [])
                   (Demo.directive "NO_SUCH_OPTION 7") _ _ _ _));
    vm_compute; reflexivity.
Defined.

(** X12.  The record that a loader returns forbids the reuse of a code
    exactly when some line of the file is a [DISALLOW_REUSE] directive;
    no later line takes the flag back. *)
Theorem disallow_reuse_iff_directive {L : Totp.Libs}
    (store : Totp.token_store) (conf : Totp.totp_auth_config_rec)
    (dir user : string) (lines : list string) :
  Totp.tokenDir conf = Some dir ->
  store (dir +:+ "/" +:+ user) = Some lines ->
  (forall c ev,
     Totp.get_user_totp_config store conf user = (Totp.Loaded c, ev) ->
     Totp.disallow_reuse c = existsb RecordSpec.disallows_reuse lines)
  /\ (forall c ev,
        Utils.totp_read_user_config store user dir = (Totp.Loaded c, ev) ->
        Totp.disallow_reuse c = existsb RecordSpec.disallows_reuse lines).
Proof.
  intros Hdir Hs.
  unfold Totp.get_user_totp_config, Utils.totp_read_user_config.
  rewrite Hdir, Hs, read_lines_loop, read_config_lines_loop.
  split; intros c ev.
  - destruct (LoaderSpec.read_loop Totp.process_line lines _)
      as [r l] eqn:Hr.
    intros [= -> _].
    exact (read_loop_flag _ process_line_flag _ _ _ _ Hr).
  - destruct (LoaderSpec.read_loop Utils.read_process_line lines _)
      as [r l] eqn:Hr.
    intros [= -> _].
    exact (read_loop_flag _ read_process_line_flag _ _ _ _ Hr).
Qed.

Lemma disallow_reuse_iff_directive_witness :
  Totp.disallow_reuse Demo.alice_config
  = existsb RecordSpec.disallows_reuse Demo.alice_record.
Proof.
  refine (proj1 (@disallow_reuse_iff_directive Demo.libs Demo.store Demo.conf
                   "/tokens" "alice" Demo.alice_record _ _)
            Demo.alice_config Demo.alice_events _);
    vm_compute; reflexivity.
Defined.

(** X13.  With decoders of the secret that agree, the loader of the
    module and the loader of [utils.c] return alike on every file: both
    NULL, or both a record with the same secret, flag, window, rate-limit
    count and scratch codes, and the same rate-limit seconds unless the
    record of [utils.c] has less than 30, where the module has 30. *)
Theorem loaders_agree {L : Totp.Libs} (store : Totp.token_store)
    (conf : Totp.totp_auth_config_rec) (dir user : string) :
  (forall s,
     Totp.base32_decode s (CStr.strlen s) = Totp.apr_pdecode_base32 s) ->
  Totp.tokenDir conf = Some dir ->
  RecordSpec.loaded_alike
    (fst (Totp.get_user_totp_config store conf user))
    (fst (Utils.totp_read_user_config store user dir)).
Proof.
  intros Hdec Hdir.
  unfold Totp.get_user_totp_config, Utils.totp_read_user_config.
  rewrite Hdir. destruct (store _) as [lines|]; [|exact I].
  rewrite read_lines_loop, read_config_lines_loop.
  assert (Hz : RecordSpec.agree_but_seconds Totp.zero_config Totp.zero_config).
  { unfold RecordSpec.agree_but_seconds. repeat split; auto. }
  pose proof (loops_alike Hdec lines _ _ Hz) as H.
  destruct (LoaderSpec.read_loop Totp.process_line lines _),
           (LoaderSpec.read_loop Utils.read_process_line lines _).
  exact H.
Qed.

Lemma loaders_agree_witness :
  RecordSpec.loaded_alike
    (fst (@Totp.get_user_totp_config Demo.libs Demo.store Demo.conf "alice"))
    (fst (@Utils.totp_read_user_config Demo.libs Demo.store "alice" "/tokens")).
Proof.
  apply (@loaders_agree Demo.libs Demo.store Demo.conf "/tokens" "alice").
  - intros s. reflexivity.
  - reflexivity.
Defined.

(** ** A ledger transaction that fails *)

Section LedgerFails.
Import Word Utils.
Variable cb_data : Type.
Variable cb_check : list Z -> option (list Z) -> cb_data -> bool * cb_data.
Variable entry : list Z.
Variable entry_size : positive.

Local Abbreviation helper io :=
  (totp_check_n_update_file_helper cb_data cb_check io entry entry_size).

(** With the temporary file in the way the transaction ends at its first
    call. *)
Lemma ledger_tmp_in_the_way io (fs : gmap string (list Z)) filepath acc :
  is_Some (fs !! tmp_filepath_of entry filepath) ->
  helper io fs filepath acc = (APR_FAILURE CreateTmp, acc, fs).
Proof.
  intros Htmp. unfold totp_check_n_update_file_helper.
  rewrite (bool_decide_eq_true_2 _ Htmp), orb_true_r. reflexivity.
Qed.

(** What a failed transaction leaves: the files but the temporary one as
    they were, and after the first call the temporary file. *)
Lemma ledger_failure_files io (fs fs' : gmap string (list Z)) filepath
    acc acc' st :
  helper io fs filepath acc = (APR_FAILURE st, acc', fs') ->
  (forall path, path <> tmp_filepath_of entry filepath ->
                fs' !! path = fs !! path)
  /\ (st = CreateTmp -> fs' = fs /\ acc' = acc)
  /\ (st <> CreateTmp -> is_Some (fs' !! tmp_filepath_of entry filepath)).
Proof.
  unfold totp_check_n_update_file_helper.
  set (tmp_filepath := tmp_filepath_of entry filepath).
  assert (Hone : forall (data : list Z) path,
            path <> tmp_filepath ->
            (<[tmp_filepath := data]> fs) !! path = fs !! path).
  { intros data path Hp. apply lookup_insert_ne. congruence. }
  assert (Htwo : forall (data data' : list Z) path,
            path <> tmp_filepath ->
            (<[tmp_filepath := data]> (<[tmp_filepath := data']> fs)) !! path
            = fs !! path).
  { intros data data' path Hp. rewrite lookup_insert_ne by congruence.
    apply Hone, Hp. }
  assert (Hin : forall (data : list Z) (m : gmap string (list Z)),
            is_Some (<[tmp_filepath := data]> m !! tmp_filepath)).
  { intros data m. rewrite lookup_insert_eq. eauto. }
  destruct (_ || _).
  { intros [= <- <- <-]. split; [reflexivity|]. split; [auto|congruence]. }
  destruct (open_error io).
  { intros [= <- <- <-]. split; [apply Hone|]. split; [discriminate|auto]. }
  destruct (_ !! filepath) as [file_data|].
  - destruct (finfo_error io).
    { intros [= <- <- <-]. split; [apply Hone|]. split; [discriminate|auto]. }
    destruct (mmap_error io).
    { intros [= <- <- <-]. split; [apply Hone|]. split; [discriminate|auto]. }
    destruct (scan_target _ _ _ _ _ _ _ _ _) as [[[] acc1] tmp].
    + destruct (cb_check entry None acc1) as [[] acc2].
      * destruct (write_error io _).
        { intros [= <- <- <-]. split; [apply Htwo|].
          split; [discriminate|auto]. }
        destruct (rename_error io); [|discriminate].
        intros [= <- <- <-]. split; [apply Htwo|].
        split; [discriminate|auto].
      * destruct (rename_error io); [|discriminate].
        intros [= <- <- <-]. split; [apply Htwo|].
        split; [discriminate|auto].
    + intros [= <- <- <-]. split; [apply Htwo|].
      split; [discriminate|auto].
  - destruct (cb_check entry None acc) as [[] acc2].
    + destruct (write_error io _).
      { intros [= <- <- <-]. split; [apply Htwo|].
        split; [discriminate|auto]. }
      destruct (rename_error io); [|discriminate].
      intros [= <- <- <-]. split; [apply Htwo|].
      split; [discriminate|auto].
    + destruct (rename_error io); [|discriminate].
      intros [= <- <- <-]. split; [apply Htwo|].
      split; [discriminate|auto].
Qed.

End LedgerFails.

(** X14.  A transaction of [totp_check_n_update_file_helper] that returns
    an error leaves the ledger file, and every file but its temporary
    file, as it was.  An error of the first call (the exclusive creation
    of the temporary file) leaves all files and the accumulator as they
    were.  After any later error the temporary file is still there, so
    that a new transaction for an entry of the same time stamp, whatever
    the system then refuses, ends at the creation of its temporary file
    and changes nothing. *)
Theorem failed_transaction_keeps_ledger (cb_data : Type)
    (cb_check : list Z -> option (list Z) -> cb_data -> bool * cb_data)
    (io : Utils.ledger_io) (entry : list Z) (entry_size : positive)
    (fs fs' : gmap string (list Z)) (filepath : string) (acc acc' : cb_data)
    (st : Utils.ledger_step) :
  Utils.totp_check_n_update_file_helper cb_data cb_check io entry entry_size
    fs filepath acc = (Utils.APR_FAILURE st, acc', fs') ->
  fs' !! filepath = fs !! filepath
  /\ (forall path,
        path <> Utils.tmp_filepath_of entry filepath ->
        fs' !! path = fs !! path)
  /\ (st = Utils.CreateTmp -> fs' = fs /\ acc' = acc)
  /\ (st <> Utils.CreateTmp ->
      is_Some (fs' !! Utils.tmp_filepath_of entry filepath)
      /\ forall io2 acc2,
           Utils.totp_check_n_update_file_helper cb_data cb_check io2 entry
             entry_size fs' filepath acc2
           = (Utils.APR_FAILURE Utils.CreateTmp, acc2, fs')).
Proof.
  intros Hrun.
  destruct (ledger_failure_files _ _ _ _ _ _ _ _ _ _ _ Hrun)
    as (Hother & Hfirst & Hlater).
  split; [|split; [exact Hother|split; [exact Hfirst|]]].
  - apply Hother. intros Heq. symmetry in Heq.
    exact (tmp_filepath_fresh entry filepath Heq).
  - intros Hst. split; [exact (Hlater Hst)|].
    intros io2 acc2. apply ledger_tmp_in_the_way. exact (Hlater Hst).
Qed.

Lemma failed_transaction_keeps_ledger_witness :
  snd (Utils.totp_check_n_update_file_helper Z Demo.count_recent
         Faults.rename_refused (Demo.stamp 120) 8 Demo.ledger
         "/state/alice" 0)
    !! "/state/alice"%string
  = Demo.ledger !! "/state/alice"%string.
Proof.
  refine (proj1 (failed_transaction_keeps_ledger Z Demo.count_recent
                   Faults.rename_refused (Demo.stamp 120) 8 Demo.ledger _
                   "/state/alice" 0 1 Utils.Rename _)).
  vm_compute. reflexivity.
Defined.

(** ** The realm hash and the password check at the same moment *)

Section DecimalFacts.
Import Word CStr.

Lemma pretty_N_char_digit (d : N) :
  (d < 10)%N ->
  apr_isdigit (pretty_N_char d) = true
  /\ code (pretty_N_char d) = 48 + Z.of_N d.
Proof.
  intros Hd. replace d with (N.of_nat (N.to_nat d)) by lia.
  assert (Hm : (N.to_nat d < 10)%nat) by lia.
  revert Hm. generalize (N.to_nat d). intros m Hm.
  do 10 (destruct m as [|m]; [split; reflexivity|]). lia.
Qed.

(** The digits that [pretty] puts before [s]: their number, and their
    value as [apr_atoi64] reads it. *)
Lemma pretty_N_go_digits (x : N) :
  forall s, exists k : nat,
    String.length (pretty_N_go x s) = (k + String.length s)%nat
    /\ Z.of_N x < 10 ^ Z.of_nat k
    /\ (0 < Z.of_N x -> 10 ^ Z.of_nat k <= 10 * Z.of_N x)
    /\ (all_digits s = true -> all_digits (pretty_N_go x s) = true)
    /\ forall acc,
         digits_value acc (pretty_N_go x s)
         = digits_value (acc * 10 ^ Z.of_nat k + Z.of_N x) s.
Proof.
  induction (N.lt_wf_0 x) as [x _ IH]. intros s.
  destruct (N.eq_dec x 0%N) as [->|Hx].
  - exists 0%nat. rewrite pretty_N_go_0. simpl.
    repeat split; try lia; auto. intros acc. f_equal. lia.
  - rewrite pretty_N_go_step by lia.
    set (q := (x `div` 10)%N). set (m := (x `mod` 10)%N).
    assert (Hm : (m < 10)%N) by (apply N.mod_lt; discriminate).
    assert (Hqm : Z.of_N x = 10 * Z.of_N q + Z.of_N m).
    { unfold q, m. pose proof (N.div_mod x 10 ltac:(discriminate)). lia. }
    destruct (pretty_N_char_digit m Hm) as [Hdig Hcode].
    assert (Hlt : (q < x)%N) by (apply N.div_lt; lia).
    destruct (IH q Hlt (String (pretty_N_char m) s))
      as (k & Hlen & Hup & Hlow & Hall & Hval).
    exists (S k). rewrite Nat2Z.inj_succ, Z.pow_succ_r by lia.
    split; [rewrite Hlen; simpl; lia|].
    split; [lia|]. split.
    + intros _. destruct (N.eq_dec q 0%N) as [Hq|Hq].
      * rewrite Hq, pretty_N_go_0 in Hlen. assert (k = 0%nat) by lia.
        subst k. simpl. lia.
      * lia.
    + split.
      * intros Hs. apply Hall. unfold all_digits in *. simpl.
        rewrite Hdig. exact Hs.
      * intros acc. rewrite Hval. simpl. rewrite Hdig. f_equal. lia.
Qed.

Lemma zeros_cons (n : nat) :
  String.concat "" (repeat "0"%string (S n))
  = String "0" (String.concat "" (repeat "0"%string n)).
Proof. destruct n; reflexivity. Qed.

Lemma zeros_before (n : nat) (t : string) :
  let z := (String.concat "" (repeat "0"%string n) +:+ t)%string in
  String.length z = (n + String.length t)%nat
  /\ all_digits z = all_digits t
  /\ digits_value 0 z = digits_value 0 t.
Proof.
  induction n as [|n (Hlen & Hall & Hval)].
  - repeat split.
  - cbv zeta. rewrite zeros_cons.
    change (String "0" ?a +:+ t)%string with (String "0" (a +:+ t)).
    split; [simpl; rewrite Hlen; reflexivity|]. split.
    + unfold all_digits in *. simpl. exact Hall.
    + simpl. exact Hval.
Qed.

(** [apr_psprintf("%6.6u", n)] of a number below a million: six digits
    that [apr_atoi64] reads back as [n]. *)
Lemma fmt_6_6u_digits (n : Z) :
  0 <= n <= 999999 ->
  String.length (fmt_6_6u n) = 6%nat
  /\ all_digits (fmt_6_6u n) = true
  /\ apr_atoi64 (fmt_6_6u n) = n.
Proof.
  intros Hn.
  assert (Hd : exists k : nat,
            String.length (pretty n) = k /\ (k <= 6)%nat
            /\ all_digits (pretty n) = true
            /\ digits_value 0 (pretty n) = n).
  { destruct n as [|p|p]; [exists 1%nat; repeat split; lia| |lia].
    change (pretty (Z.pos p)) with (pretty_N_go (N.pos p) "").
    destruct (pretty_N_go_digits (N.pos p) "")
      as (k & Hlen & Hup & Hlow & Hall & Hval).
    exists k. simpl in Hlen. rewrite Nat.add_0_r in Hlen.
    split; [exact Hlen|]. split.
    - specialize (Hlow ltac:(lia)).
      destruct (Nat.le_gt_cases k 6) as [|Hgt]; [assumption|].
      assert (10 ^ 7 <= 10 ^ Z.of_nat k)
        by (apply Z.pow_le_mono_r; lia).
      change (Z.of_N (N.pos p)) with (Z.pos p) in *. lia.
    - split; [apply Hall; reflexivity|].
      rewrite Hval. simpl. reflexivity. }
  destruct Hd as (k & Hlen & Hk & Hall & Hval).
  unfold fmt_6_6u. cbv zeta.
  destruct (zeros_before (6 - String.length (pretty n)) (pretty n))
    as (Hzlen & Hzall & Hzval).
  cbv zeta in Hzlen, Hzall, Hzval.
  split; [rewrite Hzlen, Hlen; lia|].
  split; [rewrite Hzall; exact Hall|].
  rewrite apr_atoi64_digits by (rewrite Hzall; exact Hall).
  unfold LoaderSpec.decimal. rewrite Hzval, Hval. unfold INT64_MAX. lia.
Qed.

End DecimalFacts.

Section Composition.
Import Word CStr Totp CheckSpec RecordSpec.
Context {L : Libs}.

Lemma get_user_totp_config_range store conf user c ev :
  get_user_totp_config store conf user = (Loaded c, ev) ->
  policy_in_range 30 c.
Proof.
  unfold get_user_totp_config.
  destruct (tokenDir conf) as [dir|]; [|discriminate].
  destruct (store _) as [lines|]; [|discriminate].
  destruct (read_lines lines zero_config) as [res log] eqn:Hread.
  intros [= -> _]. rewrite read_lines_loop in Hread.
  exact (read_loop_invariant process_line (policy_in_range 30)
           process_line_range lines _ _ _ (zero_config_in_range 30) Hread).
Qed.

(** The password check on the code of the current time step. *)
Lemma check_password_now r fs user cfg ev :
  first_bad apr_isalnum user = None ->
  get_user_totp_config (token_files r) (per_dir_config r) user
    = (Loaded cfg, ev) ->
  let password :=
    fmt_6_6u (generate_totp_code (get_timestamp r) (key_bytes cfg)) in
  exists granted tr,
    authn_totp_check_password r fs user password
    = admission r fs user password granted tr.
Proof.
  intros Huser Hload password.
  pose proof (generate_totp_code_range (get_timestamp r) (key_bytes cfg))
    as Hrange.
  destruct (fmt_6_6u_digits _ Hrange) as (Hlen & Hall & Hval).
  fold password in Hlen, Hall, Hval.
  assert (Hdigits : first_bad apr_isdigit password = None).
  { unfold all_digits in Hall.
    destruct (first_bad apr_isdigit password); [discriminate|reflexivity]. }
  destruct (get_user_totp_config_range _ _ _ _ _ Hload) as (Hw & _).
  rewrite (check_password_totp r fs user password cfg ev Huser
             (password_len_6 _ Hlen) Hdigits Hload).
  rewrite Hval.
  assert (Hcode : u32 (generate_totp_code (get_timestamp r) (key_bytes cfg))
                  = generate_totp_code (get_timestamp r) (key_bytes cfg)).
  { unfold u32, wrap. apply Z.mod_small. lia. }
  rewrite Hcode.
  destruct (first_hit_exists
              (fun k => candidate r cfg k
                        =? generate_totp_code (get_timestamp r) (key_bytes cfg))
              (- window_size cfg) (Z.to_nat (2 * window_size cfg + 1)) 0)
    as (k0 & -> & _).
  - lia.
  - rewrite candidate_now. apply Z.eqb_refl.
  - eauto.
Qed.

End Composition.

(** X15.  The two entry points agree on the code of the moment.  For a
    user of letters and digits whose record loads, the realm hash digests
    "user:realm:" followed by the six digits of the code of the current
    time step; the password check of the same request, given these six
    digits, grants them and creates their marker when the marker can be
    created, and denies them when the marker is already there. *)
Theorem realm_hash_code_admitted {L : Totp.Libs} (r : Totp.request_rec)
    (fs : gmap string (list Z)) (user realm dir : string)
    (cfg : Totp.totp_user_config) (ev : list Totp.event) :
  CStr.first_bad CStr.apr_isalnum user = None ->
  Totp.get_user_totp_config (Totp.token_files r) (Totp.per_dir_config r) user
    = (Totp.Loaded cfg, ev) ->
  Totp.stateDir (Totp.per_dir_config r) = Some dir ->
  let password :=
    CStr.fmt_6_6u
      (Totp.generate_totp_code (Totp.get_timestamp r) (Totp.key_bytes cfg)) in
  let path := Totp.code_filepath dir user password in
  fst (Totp.authn_totp_get_realm_hash r user realm)
  = (Totp.Verdict Totp.AUTH_USER_FOUND,
     Some (Totp.hex_encode
             (Totp.apr_md5
                (CStr.bytes_of_string
                   (user +:+ ":" +:+ realm +:+ ":" +:+ password))) 16))
  /\ String.length password = 6%nat
  /\ (Totp.create_error r path = false -> fs !! path = None ->
      fst (Totp.authn_totp_check_password r fs user password)
      = (Totp.Verdict Totp.AUTH_GRANTED, <[path := []]> fs))
  /\ (is_Some (fs !! path) ->
      fst (Totp.authn_totp_check_password r fs user password)
      = (Totp.Verdict Totp.AUTH_DENIED, fs)).
Proof.
  intros Huser Hload Hdir password path.
  destruct (check_password_now r fs user cfg ev Huser Hload)
    as (granted & tr & Hcheck).
  fold password in Hcheck.
  split; [|split; [|split]].
  - unfold Totp.authn_totp_get_realm_hash. rewrite Hload. reflexivity.
  - apply fmt_6_6u_digits. apply generate_totp_code_range.
  - intros Herr Hfree. rewrite Hcheck. unfold CheckSpec.admission.
    rewrite (mark_code_invalid_free r fs user password dir Hdir Herr Hfree).
    reflexivity.
  - intros Htaken. rewrite Hcheck. unfold CheckSpec.admission.
    rewrite (mark_code_invalid_taken r fs user password dir Hdir Htaken).
    reflexivity.
Qed.

Lemma realm_hash_code_admitted_witness :
  fst (@Totp.authn_totp_check_password Demo.libs (Demo.request 59) ∅
         "alice" "287082")
  = (Totp.Verdict Totp.AUTH_GRANTED,
     <[ "/state/alice-c287082"%string := [] ]> ∅).
Proof.
  refine (proj1 (proj2 (proj2
    (@realm_hash_code_admitted Demo.libs (Demo.request 59) ∅ "alice"
       "realm" "/state" Demo.alice_config Demo.alice_events _ _ _))) _ _);
    vm_compute; reflexivity.
Defined.

(** ** Requests of the same time step *)

Lemma get_timestamp_div (r : Totp.request_rec) :
  0 <= Totp.apr_time_now r < 2 ^ 63 ->
  Totp.get_timestamp r = Totp.apr_time_now r / 30000000.
Proof.
  intros Hn. unfold Totp.get_timestamp.
  rewrite (Z.quot_div_nonneg (Totp.apr_time_now r) 1000000) by lia.
  rewrite Z.quot_div_nonneg; [| apply Z.div_pos; lia | lia].
  rewrite Z.div_div by lia. change (1000000 * 30) with 30000000.
  unfold Word.u64, Word.wrap. apply Z.mod_small.
  split; [apply Z.div_pos; lia|].
  apply Z.div_lt_upper_bound; lia.
Qed.

(** X16.  The time of a request enters the password check and the realm
    hash through its 30-second interval only: a request that differs in
    nothing but a time of the same interval gets the same answer, leaves
    the state directory the same and writes the same lines to the log. *)
Theorem same_step_same_answer {L : Totp.Libs} (r : Totp.request_rec)
    (now' : Z) (fs : gmap string (list Z)) (user password realm : string) :
  let r' := Host.elsewhen r now' (Totp.token_files r) in
  0 <= Totp.apr_time_now r < 2 ^ 63 ->
  0 <= now' < 2 ^ 63 ->
  now' / 30000000 = Totp.apr_time_now r / 30000000 ->
  Totp.authn_totp_check_password r' fs user password
  = Totp.authn_totp_check_password r fs user password
  /\ Totp.authn_totp_get_realm_hash r' user realm
     = Totp.authn_totp_get_realm_hash r user realm.
Proof.
  intros r' Hnow Hnow' Hsame.
  assert (Hstep : Totp.get_timestamp r' = Totp.get_timestamp r).
  { rewrite (get_timestamp_div r Hnow), (get_timestamp_div r' Hnow').
    exact Hsame. }
  split.
  - unfold Totp.authn_totp_check_password. rewrite Hstep. reflexivity.
  - unfold Totp.authn_totp_get_realm_hash. rewrite Hstep. reflexivity.
Qed.

Lemma same_step_same_answer_witness :
  @Totp.authn_totp_check_password Demo.libs
    (Host.elsewhen (Demo.request 60) 89999999 Demo.store) ∅ "alice" "359152"
  = @Totp.authn_totp_check_password Demo.libs (Demo.request 60) ∅
      "alice" "359152".
Proof.
  refine (proj1 (@same_step_same_answer Demo.libs (Demo.request 60) 89999999
                   ∅ "alice" "359152" "realm" _ _ _)).
  - simpl. lia.
  - lia.
  - reflexivity.
Defined.
